(** * B-tree node layer: byte-level model of the node codec, the node
      builders and the in-node key lookup.

    The Go sources modelled here are [consts/consts.go] and the two versions
    of the [bnode] package ([internal/BNode/BNode.go], which carries
    [NodeLookUpLE], and its sibling, which carries [LeafInsert],
    [NodeAppendRange] and [NodeAppendKV]; the accessors are identical in
    both).

    A [BNode] is a struct holding a Go slice; passing it by value shares
    the backing array.  Memory is therefore one flat byte store, a slice is
    a window (base, len, cap) into it, and every function reads and writes
    the store through its slices, so that aliasing between nodes is
    expressible. *)

From Stdlib Require Import ZArith List Bool Lia.
Import ListNotations.
Local Open Scope Z_scope.

(* ================================================================== *)
(** ** Package [consts] *)

Module consts.
Definition BNODE_BNODE : Z := 1.
Definition BNODE_BLEAF : Z := 2.
Definition HEADER : Z := 4.
Definition BTREE_PAGE_SIZE : Z := 4096.
Definition BTREE_MAX_KEY_SIZE : Z := 1000.
Definition BTREE_MAX_VAL_SIZE : Z := 3000.
End consts.

(* ================================================================== *)
(** ** Fixed-width unsigned arithmetic *)

(** Conversion to [uint16] / [uint64]: keep the low bits. *)
Definition uint16 (x : Z) : Z := x mod 65536.
Definition uint64 (x : Z) : Z := x mod 18446744073709551616.

(** [+], [*], [-] on [uint16] operands wrap around. *)
Definition add16 (a b : Z) : Z := uint16 (a + b).
Definition mul16 (a b : Z) : Z := uint16 (a * b).
Definition sub16 (a b : Z) : Z := uint16 (a - b).

(* ================================================================== *)
(** ** Byte store and slices *)

(** The store maps an address to a byte; a cell is read modulo 256, so
    every load is a byte whatever the underlying function. *)
Definition mem : Type := Z -> Z.

Definition load (m : mem) (a : Z) : Z := m a mod 256.

Definition store (m : mem) (a v : Z) : mem :=
  fun a' => if a' =? a then v mod 256 else m a'.

(** A Go slice header: address of element 0, length, capacity. *)
Record slice : Type := mkSlice { base : Z; len : Z; cap : Z }.

(** [s[lo:]]: the bounds are [0 <= lo <= len(s)]. *)
Definition slice_from (s : slice) (lo : Z) : option slice :=
  if (0 <=? lo) && (lo <=? len s)
  then Some (mkSlice (base s + lo) (len s - lo) (cap s - lo))
  else None.

(** [s[lo:hi]]: for a slice operand the upper bound is the capacity. *)
Definition slice_range (s : slice) (lo hi : Z) : option slice :=
  if (0 <=? lo) && (lo <=? hi) && (hi <=? cap s)
  then Some (mkSlice (base s + lo) (hi - lo) (cap s - lo))
  else None.

(** [s[:hi]]. *)
Definition slice_to (s : slice) (hi : Z) : option slice := slice_range s 0 hi.

(** The bytes a slice currently denotes. *)
Definition bytes_at (m : mem) (s : slice) : list Z :=
  map (fun i => load m (base s + Z.of_nat i)) (seq 0 (Z.to_nat (len s))).

(** Consecutive byte writes starting at [a]. *)
Fixpoint store_list (m : mem) (a : Z) (l : list Z) : mem :=
  match l with
  | [] => m
  | b :: r => store_list (store m a b) (a + 1) r
  end.

(** Little-endian encoding of the low [k] bytes of [v], and decoding. *)
Fixpoint le_bytes (k : nat) (v : Z) : list Z :=
  match k with
  | O => []
  | S k' => v mod 256 :: le_bytes k' (v / 256)
  end.

Fixpoint load_le (k : nat) (m : mem) (a : Z) : Z :=
  match k with
  | O => 0
  | S k' => load m a + 256 * load_le k' m (a + 1)
  end.

Definition store_le (k : nat) (m : mem) (a v : Z) : mem :=
  store_list m a (le_bytes k v).

(* ================================================================== *)
(** ** Effects: readers, and mutators with panics *)

(** A read-only function either yields a value or panics ([None]). *)
Definition R (A : Type) : Type := mem -> option A.

Notation "'let?' x ':=' e 'in' k" :=
  (match e with Some x => k | None => None end)
  (at level 10, x name, e at level 100, k at level 200).

(** A mutator returns normally with the final store, panics (the store is
    the one at the point of the panic), or fails to finish within the
    fuel of one of its loops. *)
Inductive outcome (A : Type) : Type :=
| Ok (a : A) (m : mem)
| Panic (m : mem)
| OutOfFuel.
Arguments Ok {A} a m.
Arguments Panic {A} m.
Arguments OutOfFuel {A}.

Definition M (A : Type) : Type := mem -> outcome A.

Definition ret {A} (a : A) : M A := fun m => Ok a m.

Definition bind {A B} (c : M A) (k : A -> M B) : M B :=
  fun m => match c m with
           | Ok a m' => k a m'
           | Panic m' => Panic m'
           | OutOfFuel => OutOfFuel
           end.

Notation "x <- c ;; k" := (bind c (fun x => k))
  (at level 61, c at next level, right associativity).
Notation "c ;; k" := (bind c (fun _ => k))
  (at level 61, right associativity).

Definition liftO {A} (o : option A) : M A :=
  fun m => match o with Some a => Ok a m | None => Panic m end.

Definition lift {A} (r : R A) : M A := fun m => liftO (r m) m.

(** The final store of an outcome, when there is one. *)
Definition final_mem {A} (o : outcome A) : option mem :=
  match o with Ok _ m => Some m | Panic m => Some m | OutOfFuel => None end.

Definition panicked {A} (o : outcome A) : bool :=
  match o with Panic _ => true | _ => false end.

(** [for i := start; cond(i); i++ { body }] over a [uint16] counter. *)
Fixpoint for_loop (fuel : nat) (cond : Z -> bool) (body : Z -> M unit)
         (i : Z) : M unit :=
  match fuel with
  | O => fun _ => OutOfFuel
  | S fuel' =>
      if cond i then body i ;; for_loop fuel' cond body (add16 i 1)
      else ret tt
  end.

(** A [uint16] counter takes 65536 values; one more step than that is
    never needed by a loop that stops. *)
Definition loop_fuel : nat := Z.to_nat 65537.

(* ================================================================== *)
(** ** Package [utils] and the library functions used *)

(** Modelled from the spec: [utils.Assert] is not among the sources; the
    specification describes the bounds checks as assertion-style fatal
    failures, so a false condition panics and a true one does nothing. *)
Definition Assert (b : bool) : option unit := if b then Some tt else None.

Definition AssertM (b : bool) : M unit := liftO (Assert b).

(** [binary.LittleEndian.Uint16(b)]: needs [len(b) >= 2]. *)
Definition Uint16 (b : slice) : R Z :=
  fun m => if 2 <=? len b then Some (load_le 2 m (base b)) else None.

(** [binary.LittleEndian.Uint64(b)]: needs [len(b) >= 8]. *)
Definition Uint64 (b : slice) : R Z :=
  fun m => if 8 <=? len b then Some (load_le 8 m (base b)) else None.

Definition PutUint16 (b : slice) (v : Z) : M unit :=
  fun m => if 2 <=? len b then Ok tt (store_le 2 m (base b) v) else Panic m.

Definition PutUint64 (b : slice) (v : Z) : M unit :=
  fun m => if 8 <=? len b then Ok tt (store_le 8 m (base b) v) else Panic m.

(** The builtin [copy(dst, src)]: copies [min(len(dst), len(src))] bytes,
    reading the source before writing, and returns that count. *)
Definition copy (dst src : slice) : M Z :=
  fun m =>
    let n := Z.min (len dst) (len src) in
    Ok n (store_list m (base dst) (firstn (Z.to_nat n) (bytes_at m src))).

(** [bytes.Compare]: lexicographic comparison, result -1, 0 or +1. *)
Fixpoint bytes_Compare (a b : list Z) : Z :=
  match a, b with
  | [], [] => 0
  | [], _ :: _ => -1
  | _ :: _, [] => 1
  | x :: a', y :: b' =>
      if x <? y then -1 else if y <? x then 1 else bytes_Compare a' b'
  end.

(* ================================================================== *)
(** ** Package [bnode]: the node codec *)

Import consts.

Record BNode : Type := mkBNode { Data : slice }.

(** *** header *)

Definition BType (n : BNode) : R Z :=
  fun m => Uint16 (Data n) m.

Definition NKeys (n : BNode) : R Z :=
  fun m => let? b := slice_range (Data n) 2 4 in Uint16 b m.

Definition SetHeader (n : BNode) (btype nkeys : Z) : M unit :=
  b <- liftO (slice_range (Data n) 0 2) ;;
  PutUint16 b btype ;;
  PutUint16 (Data n) nkeys.

(** *** pointers *)

Definition GetPtr (n : BNode) (idx : Z) : R Z :=
  fun m =>
    let? nk := NKeys n m in
    let? _ := Assert (idx <? nk) in
    let pos := add16 HEADER (mul16 8 idx) in
    let? b := slice_from (Data n) pos in
    Uint64 b m.

Definition SetPtr (n : BNode) (idx val : Z) : M unit :=
  nk <- lift (NKeys n) ;;
  AssertM (idx <? nk) ;;
  let pos := add16 HEADER (mul16 8 idx) in
  b <- liftO (slice_from (Data n) pos) ;;
  PutUint64 b val.

(** *** offset list *)

Definition OffsetPos (n : BNode) (idx : Z) : R Z :=
  fun m =>
    let? nk := NKeys n m in
    let? _ := Assert ((1 <=? idx) && (idx <=? nk)) in
    let? nk' := NKeys n m in
    Some (add16 (add16 HEADER (mul16 8 nk')) (mul16 2 (sub16 idx 1))).

Definition GetOffset (n : BNode) (idx : Z) : R Z :=
  fun m =>
    if idx =? 0 then Some 0
    else
      let? pos := OffsetPos n idx m in
      let? b := slice_from (Data n) pos in
      Uint16 b m.

Definition SetOffset (n : BNode) (idx offset : Z) : M unit :=
  pos <- lift (OffsetPos n idx) ;;
  b <- liftO (slice_from (Data n) pos) ;;
  PutUint16 b offset.

(** *** key-values *)

Definition KVPos (n : BNode) (idx : Z) : R Z :=
  fun m =>
    let? nk := NKeys n m in
    let? _ := Assert (idx <=? nk) in
    let? nk1 := NKeys n m in
    let? nk2 := NKeys n m in
    let? off := GetOffset n idx m in
    Some (add16 (add16 (add16 HEADER (mul16 8 nk1)) (mul16 2 nk2)) off).

(** [GetKey] returns a window into the node's own buffer. *)
Definition GetKey (n : BNode) (idx : Z) : R slice :=
  fun m =>
    let? nk := NKeys n m in
    let? _ := Assert (idx <=? nk) in
    let? pos := KVPos n idx m in
    let? b := slice_from (Data n) pos in
    let? klen := Uint16 b m in
    let? rest := slice_from (Data n) (add16 pos 4) in
    slice_to rest klen.

Definition GetVal (n : BNode) (idx : Z) : R slice :=
  fun m =>
    let? nk := NKeys n m in
    let? _ := Assert (idx <=? nk) in
    let? pos := KVPos n idx m in
    let? b0 := slice_from (Data n) (add16 pos 0) in
    let? klen := Uint16 b0 m in
    let? b2 := slice_from (Data n) (add16 pos 2) in
    let? vlen := Uint16 b2 m in
    let? rest := slice_from (Data n) (add16 (add16 pos 4) klen) in
    slice_to rest vlen.

(** *** node size *)

Definition Nbyte (n : BNode) : R Z :=
  fun m => let? nk := NKeys n m in KVPos n nk m.

(* ================================================================== *)
(** ** The in-node lookup *)

(** The loop of [NodeLookUpLE]: [i] is the counter, [found] the running
    answer.  The counter stays below [nkeys], so [nkeys] steps of fuel
    always suffice (see [lookup_loop_fuel]). *)
Fixpoint lookup_loop (n : BNode) (key : slice) (nkeys : Z) (fuel : nat)
         (i found : Z) (m : mem) : option Z :=
  match fuel with
  | O => Some found
  | S fuel' =>
      if i <? nkeys then
        let? k := GetKey n i m in
        let cmp := bytes_Compare (bytes_at m k) (bytes_at m key) in
        let found := if cmp <=? 0 then i else found in
        if cmp >=? 0 then Some found
        else lookup_loop n key nkeys fuel' (add16 i 1) found m
      else Some found
  end.

Definition NodeLookUpLE (n : BNode) (key : slice) : R Z :=
  fun m =>
    let? nkeys := NKeys n m in
    lookup_loop n key nkeys (Z.to_nat nkeys) 1 0 m.

(* ================================================================== *)
(** ** The node builders *)

Definition NodeAppendRange (new old : BNode) (dstNew srcOld n : Z) : M unit :=
  nkO <- lift (NKeys old) ;;
  AssertM (add16 srcOld n <=? nkO) ;;
  nkN <- lift (NKeys new) ;;
  AssertM (add16 dstNew n <=? nkN) ;;
  if n =? 0 then ret tt
  else
    (* pointers *)
    for_loop loop_fuel (fun i => i <? n)
      (fun i =>
         p <- lift (GetPtr old (add16 srcOld i)) ;;
         SetPtr new (add16 dstNew i) p) 0 ;;
    (* offsets *)
    dstBegin <- lift (GetOffset new dstNew) ;;
    srcBegin <- lift (GetOffset old srcOld) ;;
    for_loop loop_fuel (fun i => i <=? n)
      (fun i =>
         o <- lift (GetOffset old (add16 srcOld i)) ;;
         let offset := sub16 (add16 dstBegin o) srcBegin in
         SetOffset new (add16 dstNew i) offset) 1 ;;
    (* KVs *)
    begin <- lift (KVPos old srcOld) ;;
    end_ <- lift (KVPos old (add16 srcOld n)) ;;
    pos <- lift (KVPos new dstNew) ;;
    d <- liftO (slice_from (Data new) pos) ;;
    s <- liftO (slice_range (Data old) begin end_) ;;
    copy d s ;;
    ret tt.

Definition NodeAppendKV (new : BNode) (idx ptr : Z) (key val : slice) : M unit :=
  (* ptrs *)
  SetPtr new idx ptr ;;
  (* KVs *)
  pos <- lift (KVPos new idx) ;;
  b0 <- liftO (slice_from (Data new) (add16 pos 0)) ;;
  PutUint16 b0 (uint16 (len key)) ;;
  b2 <- liftO (slice_from (Data new) (add16 pos 2)) ;;
  PutUint16 b2 (uint16 (len val)) ;;
  dk <- liftO (slice_from (Data new) (add16 pos 4)) ;;
  copy dk key ;;
  dv <- liftO (slice_from (Data new) (add16 (add16 pos 4) (uint16 (len key)))) ;;
  copy dv val ;;
  (* the offset of next key *)
  off <- lift (GetOffset new idx) ;;
  SetOffset new (add16 idx 1)
            (add16 (add16 off 4) (uint16 (len key + len val))).

Definition LeafInsert (new old : BNode) (idx : Z) (key val : slice) : M unit :=
  nk <- lift (NKeys old) ;;
  SetHeader new BNODE_BLEAF (add16 nk 1) ;;
  NodeAppendRange new old 0 0 idx ;;
  NodeAppendKV new idx 0 key val ;;
  nk' <- lift (NKeys old) ;;
  NodeAppendRange new old (add16 idx 1) idx (sub16 nk' idx).

(* ================================================================== *)
(** ** Package [btree] *)

(** The size [init] computes: a header, one pointer, one offset, the two
    length fields, and a key and a value of the largest sizes. *)
Definition nodelmax : Z :=
  HEADER + 8 + 2 + 4 + BTREE_MAX_KEY_SIZE + BTREE_MAX_VAL_SIZE.

(** [init()]: asserts that this size is at most a page. *)
Definition init : option unit := Assert (nodelmax <=? BTREE_PAGE_SIZE).

(* ================================================================== *)
(** ** Concrete stores used in the examples *)

(** A store holding the bytes [l] from address [a0] on, zero elsewhere. *)
Definition mem_of (a0 : Z) (l : list Z) : mem :=
  fun a => if (a0 <=? a) then nth (Z.to_nat (a - a0)) l 0 else 0.

(** A page-size slice at address [a0]. *)
Definition page (a0 : Z) : BNode :=
  mkBNode (mkSlice a0 BTREE_PAGE_SIZE BTREE_PAGE_SIZE).

(** A one-entry leaf, key "a" and value "1": type 2, one key, a zero
    pointer, end offset 6, then the record. *)
Definition leaf1 : list Z :=
  [2;0; 1;0;  0;0;0;0;0;0;0;0;  6;0;  1;0; 1;0; 97; 49].

(** A three-entry leaf: "a" -> "1", "c" -> "2", "e" -> "3".  The records
    start at 4 + 10*3 = 34; the byte of key 0 is at 38. *)
Definition leaf3 : list Z :=
  [2;0; 3;0] ++ repeat 0 24 ++ [6;0; 12;0; 18;0]
  ++ [1;0; 1;0; 97; 49] ++ [1;0; 1;0; 99; 50] ++ [1;0; 1;0; 101; 51].

Definition leaf3_key (i : Z) : list Z :=
  if i =? 0 then [97] else if i =? 1 then [99] else [101].

(** Store for the examples: the three-entry leaf at 0, a fresh (zero) page
    at 4096, and the bytes "b" and "9" at 9000 and 9001. *)
Definition m_ex : mem := store (store (mem_of 0 leaf3) 9000 98) 9001 57.
Definition key_b : slice := mkSlice 9000 1 1.
Definition val_9 : slice := mkSlice 9001 1 1.

(** The same with the key-count bytes of the destination page already
    holding 4. *)
Definition m_ex4 : mem := store m_ex (4096 + 2) 4.

(** The same again with offset 1 of the destination holding 8: its slot 1
    starts 8 bytes into the record area. *)
Definition m_ex4_at8 : mem := store m_ex4 (4096 + 36) 8.

(** A destination page declaring 8 keys whose offset 1 is 4004, so that
    the records of slot 1 start at position 4088, 8 bytes before the end
    of the page. *)
Definition m_tight : mem :=
  store (store (store m_ex (4096 + 2) 8) (4096 + 68) 164) (4096 + 69) 15.

(* ================================================================== *)
(** ** Layout vocabulary used in the statements *)

(** The addresses a node's slice can reach: from its base up to its
    length or capacity, whichever is larger (they coincide for a buffer
    made by [make([]byte, n)]). *)
Definition lo (n : BNode) : Z := base (Data n).
Definition hi (n : BNode) : Z :=
  base (Data n) + Z.max (len (Data n)) (cap (Data n)).

(** Address of pointer slot [idx], and of the stored offset [idx >= 1] in
    a node of [nk] keys. *)
Definition ptr_addr (n : BNode) (idx : Z) : Z :=
  base (Data n) + HEADER + 8 * idx.
Definition off_addr (n : BNode) (nk idx : Z) : Z :=
  base (Data n) + HEADER + 8 * nk + 2 * (idx - 1).

(** Two slices whose reachable addresses do not meet. *)
Definition extent (s : slice) : Z := base s + Z.max (len s) (cap s).
Definition separate (s t : slice) : Prop :=
  extent s <= base t \/ extent t <= base s.

(** [c] changes no cell outside [[a, b)], whether it returns or panics. *)
Definition writes_within (a b : Z) {A} (c : M A) : Prop :=
  forall m m', final_mem (c m) = Some m' ->
  forall x, ~ (a <= x < b) -> m' x = m x.

(** [c] never runs out of loop fuel: it returns or panics. *)
Definition terminates {A} (c : M A) : Prop := forall m, c m <> OutOfFuel.

(** A store that differs from [m0] only inside [[a, b)]. *)
Definition only_changed (m0 : mem) (a b : Z) (m : mem) : Prop :=
  forall x, ~ (a <= x < b) -> m x = m0 x.

(** The bodies of the two loops of [NodeAppendRange]. *)
Definition ptr_body (new old : BNode) (dst src : Z) (i : Z) : M unit :=
  p <- lift (GetPtr old (add16 src i)) ;; SetPtr new (add16 dst i) p.

Definition off_body (new old : BNode) (dst src d0 s0 : Z) (i : Z) : M unit :=
  o <- lift (GetOffset old (add16 src i)) ;;
  SetOffset new (add16 dst i) (sub16 (add16 d0 o) s0).

(** Size of the record found at position [pos] of node [n]. *)
Definition rec_len (n : BNode) (m : mem) (pos : Z) : Z :=
  4 + load_le 2 m (lo n + pos) + load_le 2 m (lo n + pos + 2).

(** The decoded entry [i] of a node. *)
Definition entry (n : BNode) (m : mem) (i : Z) : option (list Z * list Z) :=
  match GetKey n i m, GetVal n i m with
  | Some ks, Some vs => Some (bytes_at m ks, bytes_at m vs)
  | _, _ => None
  end.

(** A node of [nk] entries laid out as the builders lay them out: its
    offsets are [offs], each record ends where the next begins, and the
    whole node lies inside its buffer and the 16-bit position range. *)
Definition node_ok (n : BNode) (m : mem) (nk : Z) (offs : Z -> Z) : Prop :=
  NKeys n m = Some nk /\
  len (Data n) <= cap (Data n) /\
  offs 0 = 0 /\
  (forall j, 0 <= j <= nk -> GetOffset n j m = Some (offs j)) /\
  (forall j, 0 <= j < nk ->
     offs j + rec_len n m (HEADER + 10 * nk + offs j) = offs (j + 1)) /\
  HEADER + 10 * nk + offs nk <= Z.min (len (Data n)) 65535.

(** Entries [0 .. k-1] of a node, as decoded. *)
Definition entries (n : BNode) (m : mem) (k : nat)
  : list (option (list Z * list Z)) :=
  map (fun i => entry n m (Z.of_nat i)) (seq 0 k).

(** The offsets of a node after a record of [d] bytes is inserted at
    slot [idx]: unchanged up to [idx], shifted by [d] from there on. *)
Definition ins_offs (offs : Z -> Z) (idx d : Z) : Z -> Z :=
  fun j => if j <=? idx then offs j else offs (j - 1) + d.

(* ================================================================== *)
(** * Basic facts *)

Ltac zlia := Z.div_mod_to_equations; lia.
Ltac u16 := unfold add16, mul16, sub16, uint16 in *; zlia.
Ltac hlia := unfold consts.HEADER in *; lia.
Ltac fr_lia := unfold ptr_addr, off_addr, lo, separate, extent in *; hlia.

(** ** Unsigned arithmetic and the byte store *)

Lemma uint16_small x : 0 <= x < 65536 -> uint16 x = x.
Proof. intros; unfold uint16; apply Z.mod_small; lia. Qed.

Lemma uint16_range x : 0 <= uint16 x < 65536.
Proof. unfold uint16; zlia. Qed.

Lemma load_range m a : 0 <= load m a < 256.
Proof. unfold load; zlia. Qed.

Lemma load_store m a v a' :
  load (store m a v) a' = if a' =? a then v mod 256 else load m a'.
Proof.
  unfold load, store. destruct (a' =? a); [apply Z.mod_mod; lia | reflexivity].
Qed.

Lemma store_list_outside l : forall m a a',
  a' < a \/ a + Z.of_nat (length l) <= a' -> store_list m a l a' = m a'.
Proof.
  induction l as [|b l IH]; intros m a a' H; simpl in *; [reflexivity|].
  rewrite IH by lia. unfold store.
  destruct (Z.eqb_spec a' a); [lia | reflexivity].
Qed.

Lemma load_store_list_in l : forall m a a',
  a <= a' < a + Z.of_nat (length l) ->
  load (store_list m a l) a' = nth (Z.to_nat (a' - a)) l 0 mod 256.
Proof.
  induction l as [|b l IH]; intros m a a' H; simpl in *; [lia|].
  destruct (Z.eq_dec a' a) as [->|Hne].
  - unfold load. rewrite store_list_outside by lia.
    unfold store. rewrite Z.eqb_refl, Z.sub_diag. simpl. apply Z.mod_mod; lia.
  - rewrite IH by lia.
    replace (Z.to_nat (a' - a)) with (S (Z.to_nat (a' - (a + 1)))) by lia.
    reflexivity.
Qed.

Lemma le_bytes_length k : forall v, length (le_bytes k v) = k.
Proof. induction k; intros; simpl; auto. Qed.

Lemma load_le_range k : forall m a, 0 <= load_le k m a < 256 ^ Z.of_nat k.
Proof.
  induction k as [|k IH]; intros m a.
  - simpl. lia.
  - cbn [load_le]. rewrite Nat2Z.inj_succ, Z.pow_succ_r by lia.
    pose proof (IH m (a + 1)). pose proof (load_range m a). nia.
Qed.

(** Equal cells give equal decoded fields. *)
Lemma load_le_ext k : forall m m' a,
  (forall j, 0 <= j < Z.of_nat k -> m' (a + j) = m (a + j)) ->
  load_le k m' a = load_le k m a.
Proof.
  induction k as [|k IH]; intros m m' a H; [reflexivity|].
  cbn [load_le]. f_equal.
  - unfold load. specialize (H 0). rewrite Z.add_0_r in H. rewrite H by lia. reflexivity.
  - f_equal. apply IH. intros j Hj.
    replace (a + 1 + j) with (a + (1 + j)) by lia. apply H. lia.
Qed.

Lemma load_le_store_list_out k m a0 l a :
  a + Z.of_nat k <= a0 \/ a0 + Z.of_nat (length l) <= a ->
  load_le k (store_list m a0 l) a = load_le k m a.
Proof.
  intros H. apply load_le_ext. intros j Hj. apply store_list_outside. lia.
Qed.

Lemma load_le_store_le_same k : forall m a v,
  load_le k (store_le k m a v) a = v mod 256 ^ Z.of_nat k.
Proof.
  induction k as [|k IH]; intros m a v.
  - simpl. rewrite Z.mod_1_r. reflexivity.
  - unfold store_le. cbn [le_bytes store_list load_le].
    fold (store_le k (store m a (v mod 256)) (a + 1) (v / 256)).
    rewrite IH.
    unfold store_le, load. rewrite store_list_outside by lia.
    unfold store. rewrite Z.eqb_refl.
    rewrite Nat2Z.inj_succ, Z.pow_succ_r by lia.
    rewrite !Z.mod_mod by lia.
    rewrite (Z.rem_mul_r v 256 (256 ^ Z.of_nat k)) by lia. reflexivity.
Qed.

Lemma bytes_at_length m s : length (bytes_at m s) = Z.to_nat (len s).
Proof. unfold bytes_at. rewrite length_map, length_seq. reflexivity. Qed.

Lemma bytes_at_ext m m' s :
  (forall a, base s <= a < base s + len s -> m' a = m a) ->
  bytes_at m' s = bytes_at m s.
Proof.
  intros H. unfold bytes_at. apply map_ext_in. intros i Hi.
  apply in_seq in Hi. unfold load. rewrite H by lia. reflexivity.
Qed.

Lemma nth_bytes_at m s i :
  (i < Z.to_nat (len s))%nat -> nth i (bytes_at m s) 0 = load m (base s + Z.of_nat i).
Proof.
  intros H. unfold bytes_at.
  set (f := fun i => load m (base s + Z.of_nat i)).
  rewrite (nth_indep _ 0 (f 0%nat)) by (rewrite length_map, length_seq; exact H).
  rewrite map_nth, seq_nth by exact H. reflexivity.
Qed.

(** The bytes just written are the bytes read back. *)
Lemma bytes_at_store_list m a l s :
  base s = a -> len s = Z.of_nat (length l) ->
  bytes_at (store_list m a l) s = map (fun b => b mod 256) l.
Proof.
  intros Hb Hl. apply nth_ext with (d := 0) (d' := 0 mod 256).
  - rewrite bytes_at_length, length_map. lia.
  - intros i Hi. rewrite bytes_at_length in Hi.
    rewrite nth_bytes_at by exact Hi.
    rewrite load_store_list_in by lia.
    rewrite (map_nth (fun b => b mod 256)). f_equal. f_equal. lia.
Qed.

Lemma map_mod_bytes_at m s :
  map (fun b => b mod 256) (bytes_at m s) = bytes_at m s.
Proof.
  unfold bytes_at. rewrite map_map. apply map_ext. intros i.
  unfold load. apply Z.mod_mod. lia.
Qed.


(** ** Closed forms of the readers *)

Lemma load_le_2_range m a : 0 <= load_le 2 m a < 65536.
Proof. apply (load_le_range 2). Qed.

Lemma slice_from_some s p :
  0 <= p <= len s ->
  slice_from s p = Some (mkSlice (base s + p) (len s - p) (cap s - p)).
Proof.
  intros H. unfold slice_from.
  destruct (Z.leb_spec 0 p); [|lia]. destruct (Z.leb_spec p (len s)); [|lia].
  reflexivity.
Qed.

Lemma slice_range_some s p q :
  0 <= p <= q -> q <= cap s ->
  slice_range s p q = Some (mkSlice (base s + p) (q - p) (cap s - p)).
Proof.
  intros H H'. unfold slice_range.
  destruct (Z.leb_spec 0 p); [|lia]. destruct (Z.leb_spec p q); [|lia].
  destruct (Z.leb_spec q (cap s)); [|lia]. reflexivity.
Qed.

Lemma Uint16_some b m : 2 <= len b -> Uint16 b m = Some (load_le 2 m (base b)).
Proof. intros H. unfold Uint16. destruct (Z.leb_spec 2 (len b)); [reflexivity|lia]. Qed.

Lemma Uint64_some b m : 8 <= len b -> Uint64 b m = Some (load_le 8 m (base b)).
Proof. intros H. unfold Uint64. destruct (Z.leb_spec 8 (len b)); [reflexivity|lia]. Qed.

Lemma NKeys_eq n m :
  NKeys n m = if 4 <=? cap (Data n) then Some (load_le 2 m (lo n + 2)) else None.
Proof.
  unfold NKeys, lo. destruct (Z.leb_spec 4 (cap (Data n))).
  - rewrite slice_range_some by lia. rewrite Uint16_some by (cbn [len]; lia). reflexivity.
  - unfold slice_range. destruct (Z.leb_spec 4 (cap (Data n))); [lia|].
    rewrite andb_false_r. reflexivity.
Qed.

Lemma NKeys_inv n m nk :
  NKeys n m = Some nk ->
  4 <= cap (Data n) /\ nk = load_le 2 m (lo n + 2) /\ 0 <= nk < 65536.
Proof.
  rewrite NKeys_eq. destruct (Z.leb_spec 4 (cap (Data n))); [|discriminate].
  intros H0. injection H0 as <-. pose proof (load_le_2_range m (lo n + 2)). auto.
Qed.

Lemma NKeys_ext n m m' :
  (forall a, lo n + 2 <= a < lo n + 4 -> m' a = m a) -> NKeys n m' = NKeys n m.
Proof.
  intros H. rewrite !NKeys_eq. destruct (4 <=? cap (Data n)); [|reflexivity].
  f_equal. apply load_le_ext. intros j Hj. apply H. change (Z.of_nat 2) with 2 in Hj. lia.
Qed.

Lemma GetPtr_spec n m nk idx :
  NKeys n m = Some nk -> 0 <= idx < nk ->
  HEADER + 8 * idx + 8 <= Z.min (len (Data n)) 65536 ->
  GetPtr n idx m = Some (load_le 8 m (ptr_addr n idx)).
Proof.
  intros Hnk Hidx Hfit. unfold GetPtr, ptr_addr, HEADER in *. rewrite Hnk.
  destruct (Z.ltb_spec idx nk); [|lia]. cbn [Assert].
  replace (add16 4 (mul16 8 idx)) with (4 + 8 * idx) by u16.
  rewrite slice_from_some by lia. rewrite Uint64_some by (cbn [len]; lia).
  cbn [base]. do 2 f_equal. lia.
Qed.

Lemma OffsetPos_spec n m nk idx :
  NKeys n m = Some nk -> 1 <= idx <= nk ->
  HEADER + 8 * nk + 2 * idx <= 65536 ->
  OffsetPos n idx m = Some (HEADER + 8 * nk + 2 * (idx - 1)).
Proof.
  intros Hnk Hidx Hfit. unfold OffsetPos, HEADER in *. rewrite Hnk.
  destruct (Z.leb_spec 1 idx); [|lia]. destruct (Z.leb_spec idx nk); [|lia].
  cbn [andb Assert]. f_equal. u16.
Qed.

Lemma GetOffset_0 n m : GetOffset n 0 m = Some 0.
Proof. reflexivity. Qed.

Lemma GetOffset_spec n m nk idx :
  NKeys n m = Some nk -> 1 <= idx <= nk ->
  HEADER + 8 * nk + 2 * idx <= Z.min (len (Data n)) 65536 ->
  GetOffset n idx m = Some (load_le 2 m (off_addr n nk idx)).
Proof.
  intros Hnk Hidx Hfit. unfold GetOffset.
  destruct (Z.eqb_spec idx 0); [lia|].
  rewrite (OffsetPos_spec n m nk idx) by (auto; lia).
  unfold off_addr, HEADER in *.
  rewrite slice_from_some by lia. rewrite Uint16_some by (cbn [len]; lia).
  cbn [base]. do 2 f_equal. lia.
Qed.

Lemma KVPos_spec n m nk idx off :
  NKeys n m = Some nk -> 0 <= idx <= nk ->
  GetOffset n idx m = Some off ->
  KVPos n idx m = Some (uint16 (HEADER + 10 * nk + off)).
Proof.
  intros Hnk Hidx Hoff. unfold KVPos. rewrite Hnk, Hoff.
  destruct (Z.leb_spec idx nk); [|lia]. cbn [Assert]. f_equal. unfold HEADER. u16.
Qed.

(** ** Stepping through mutators *)

Lemma bind_ok {A B} (c : M A) (k : A -> M B) m a m1 :
  c m = Ok a m1 -> bind c k m = k a m1.
Proof. intros H. unfold bind. rewrite H. reflexivity. Qed.

Lemma bind_lift {A B} (r : R A) (k : A -> M B) m a :
  r m = Some a -> bind (lift r) k m = k a m.
Proof. intros H. unfold bind, lift, liftO. rewrite H. reflexivity. Qed.

Lemma bind_liftO {A B} (o : option A) (k : A -> M B) m a :
  o = Some a -> bind (liftO o) k m = k a m.
Proof. intros ->. reflexivity. Qed.

Lemma PutUint16_ok b v m :
  2 <= len b -> PutUint16 b v m = Ok tt (store_le 2 m (base b) v).
Proof. intros H. unfold PutUint16. destruct (Z.leb_spec 2 (len b)); [reflexivity|lia]. Qed.

Lemma PutUint64_ok b v m :
  8 <= len b -> PutUint64 b v m = Ok tt (store_le 8 m (base b) v).
Proof. intros H. unfold PutUint64. destruct (Z.leb_spec 8 (len b)); [reflexivity|lia]. Qed.

Lemma load_le_store_le_out k k' m a0 v a :
  a + Z.of_nat k <= a0 \/ a0 + Z.of_nat k' <= a ->
  load_le k (store_le k' m a0 v) a = load_le k m a.
Proof.
  intros H. unfold store_le. apply load_le_store_list_out.
  rewrite le_bytes_length. exact H.
Qed.

Lemma store_le_outside k m a0 v a :
  a < a0 \/ a0 + Z.of_nat k <= a -> store_le k m a0 v a = m a.
Proof.
  intros H. unfold store_le. apply store_list_outside. rewrite le_bytes_length. exact H.
Qed.

(** What [SetHeader] does: both 16-bit writes land on bytes 0 and 1. *)
Lemma SetHeader_spec n btype nkeys m :
  2 <= len (Data n) -> 2 <= cap (Data n) ->
  SetHeader n btype nkeys m =
    Ok tt (store_le 2 (store_le 2 m (lo n) btype) (lo n) nkeys).
Proof.
  intros Hl Hc. unfold SetHeader.
  erewrite bind_liftO by (apply slice_range_some; lia).
  erewrite bind_ok by (apply PutUint16_ok; cbn [len]; lia).
  rewrite PutUint16_ok by lia. cbn [base]. unfold lo.
  rewrite Z.add_0_r. reflexivity.
Qed.

Lemma SetHeader_effect n btype nkeys m :
  2 <= len (Data n) -> 4 <= cap (Data n) ->
  exists m', SetHeader n btype nkeys m = Ok tt m' /\
             BType n m' = Some (uint16 nkeys) /\
             NKeys n m' = NKeys n m.
Proof.
  intros Hl Hc. eexists. split; [apply SetHeader_spec; lia|]. split.
  - unfold BType. rewrite Uint16_some by lia. f_equal.
    fold (lo n). rewrite load_le_store_le_same. reflexivity.
  - apply NKeys_ext. intros a Ha. rewrite !store_le_outside by (simpl; lia). reflexivity.
Qed.


(* ================================================================== *)
(** * The header *)

(** C1 (header round trip) fails on the code: [SetHeader] writes the key
    count over the type field and never writes bytes 2 and 3.  On a zeroed
    page, after [SetHeader(Leaf, 3)], [BType] returns 3 and [NKeys]
    returns 0. *)
Theorem SetHeader_clobbers_type :
  let n := page 0 in
  let m : mem := fun _ => 0 in
  exists m', SetHeader n BNODE_BLEAF 3 m = Ok tt m' /\
             BType n m' = Some 3 /\ NKeys n m' = Some 0.
Proof.
  intros n m.
  destruct (SetHeader_effect n BNODE_BLEAF 3 m) as (m' & H1 & H2 & H3);
    [vm_compute; discriminate | vm_compute; discriminate |].
  exists m'. split; [exact H1|]. split; [exact H2|]. rewrite H3. reflexivity.
Qed.


(* ================================================================== *)
(** * Bounds of the key and value accessors *)

Lemma GetKey_GetVal_beyond n m nk idx :
  NKeys n m = Some nk -> nk < idx -> GetKey n idx m = None /\ GetVal n idx m = None.
Proof.
  intros Hnk Hidx. unfold GetKey, GetVal. rewrite Hnk.
  destruct (Z.leb_spec idx nk); [lia|]. split; reflexivity.
Qed.

(** C3 (accesses outside [i < key_count] fail) does not hold at
    [i = key_count]: the assertion of [GetKey] and [GetVal] is
    [idx <= NKeys()], so on the one-entry leaf both return a (here empty)
    window at index 1, where [GetPtr], which asserts [idx < NKeys()],
    panics. *)
Theorem GetKey_at_key_count_returns :
  let n := page 0 in
  let m := mem_of 0 leaf1 in
  NKeys n m = Some 1 /\
  GetKey n 1 m = Some (mkSlice 24 0 4072) /\
  GetVal n 1 m = Some (mkSlice 24 0 4072) /\
  GetPtr n 1 m = None.
Proof. vm_compute. repeat split. Qed.


(* ================================================================== *)
(** * Record positions and node size *)

(** C8: with [nk] the key count, [GetOffset(0)] is 0; for [0 <= i <= nk],
    [KVPos(i)] is [HEADER + 10*nk + GetOffset(i)] computed in [uint16]
    (and panics exactly when [GetOffset(i)] does), which is the plain sum
    whenever that fits 16 bits; [Nbyte()] is [KVPos(nk)]; and a node with
    no keys has [Nbyte() = 4]. *)
Theorem KVPos_Nbyte_formula n m nk :
  NKeys n m = Some nk ->
  GetOffset n 0 m = Some 0 /\
  (forall i, 0 <= i <= nk ->
     KVPos n i m =
       option_map (fun off => uint16 (HEADER + 10 * nk + off)) (GetOffset n i m)) /\
  (forall i off, 0 <= i <= nk -> GetOffset n i m = Some off ->
     HEADER + 10 * nk + off < 65536 ->
     KVPos n i m = Some (HEADER + 10 * nk + off)) /\
  Nbyte n m = KVPos n nk m /\
  (nk = 0 -> Nbyte n m = Some 4).
Proof.
  intros Hnk. pose proof (NKeys_inv _ _ _ Hnk) as (_ & _ & Hr).
  assert (Hgen : forall i, 0 <= i <= nk ->
     KVPos n i m =
       option_map (fun off => uint16 (HEADER + 10 * nk + off)) (GetOffset n i m)).
  { intros i Hi. destruct (GetOffset n i m) as [off|] eqn:Hoff.
    - cbn [option_map]. apply KVPos_spec; assumption.
    - unfold KVPos. rewrite Hnk, Hoff.
      destruct (Assert (i <=? nk)); reflexivity. }
  split; [reflexivity|]. split; [exact Hgen|]. split.
  - intros i off Hi Hoff Hfit. rewrite Hgen, Hoff by exact Hi. cbn [option_map].
    f_equal. apply uint16_small.
    assert (0 <= off).
    { unfold GetOffset in Hoff. destruct (i =? 0); [injection Hoff; lia|].
      destruct (OffsetPos n i m); [|discriminate].
      destruct (slice_from (Data n) z); [|discriminate].
      unfold Uint16 in Hoff. destruct (2 <=? len s); [|discriminate].
      injection Hoff as <-. apply load_le_2_range. }
    unfold HEADER in *. lia.
  - split.
    + unfold Nbyte. rewrite Hnk. reflexivity.
    + intros ->. unfold Nbyte. rewrite Hnk. rewrite Hgen by lia. reflexivity.
Qed.

Lemma KVPos_Nbyte_formula_witness :
  let n := page 0 in let m := mem_of 0 leaf1 in
  KVPos n 1 m = Some 20 /\ Nbyte n m = Some 20.
Proof.
  intros n m.
  destruct (KVPos_Nbyte_formula n m 1 eq_refl) as (_ & _ & H & HN & _).
  assert (K : KVPos n 1 m = Some 20) by (apply (H 1 6); [lia | reflexivity | vm_compute; reflexivity]).
  split; [exact K | rewrite HN; exact K].
Defined.

(* ================================================================== *)
(** * The in-node lookup *)

(** ** Lexicographic comparison *)

Lemma bytes_Compare_range a : forall b, -1 <= bytes_Compare a b <= 1.
Proof.
  induction a as [|x a IH]; intros [|y b]; simpl; try lia.
  destruct (x <? y); [lia|]. destruct (y <? x); [lia|]. apply IH.
Qed.

Lemma bytes_Compare_antisym a : forall b, bytes_Compare b a = - bytes_Compare a b.
Proof.
  induction a as [|x a IH]; intros [|y b]; simpl; try reflexivity.
  destruct (Z.ltb_spec x y), (Z.ltb_spec y x); try lia. apply IH.
Qed.

Lemma bytes_Compare_eq a : forall b, bytes_Compare a b = 0 -> a = b.
Proof.
  induction a as [|x a IH]; intros [|y b]; simpl; try discriminate; [reflexivity|].
  destruct (Z.ltb_spec x y); [discriminate|].
  destruct (Z.ltb_spec y x); [discriminate|].
  intros H'. f_equal; [lia | apply IH; exact H'].
Qed.

Lemma bytes_Compare_lt_trans a : forall b c,
  bytes_Compare a b < 0 -> bytes_Compare b c < 0 -> bytes_Compare a c < 0.
Proof.
  induction a as [|x a IH]; intros [|y b] [|z c]; simpl; try lia.
  destruct (Z.ltb_spec x y), (Z.ltb_spec y z), (Z.ltb_spec x z); try lia;
    destruct (Z.ltb_spec y x); try lia;
    destruct (Z.ltb_spec z y); try lia;
    destruct (Z.ltb_spec z x); try lia.
  apply IH.
Qed.

(** ** The lookup loop *)

Section Lookup.
Variables (n : BNode) (key : slice) (m : mem) (nk : Z).
Hypothesis Hnk : 0 <= nk < 65536.

(** The loop returns the running answer or an index it visited. *)
Lemma lookup_loop_bound fuel : forall i found r,
  0 <= i ->
  lookup_loop n key nk fuel i found m = Some r ->
  r = found \/ i <= r < nk.
Proof.
  induction fuel as [|fuel IH]; intros i found r Hi H; cbn [lookup_loop] in H.
  - left. congruence.
  - destruct (Z.ltb_spec i nk); [|left; congruence].
    destruct (GetKey n i m) as [k|]; [|discriminate].
    destruct (bytes_Compare (bytes_at m k) (bytes_at m key) >=? 0).
    + destruct (bytes_Compare (bytes_at m k) (bytes_at m key) <=? 0);
        injection H as <-; [right; lia | left; reflexivity].
    + replace (add16 i 1) with (i + 1) in H by u16.
      apply IH in H; [|lia].
      destruct (bytes_Compare (bytes_at m k) (bytes_at m key) <=? 0); lia.
Qed.

(** The loop only consults the keys at the indices it is given, all at
    or above its starting index. *)
Lemma lookup_loop_ext m' fuel : forall i found,
  1 <= i ->
  (forall j, 1 <= j < nk ->
     option_map (bytes_at m') (GetKey n j m') = option_map (bytes_at m) (GetKey n j m)) ->
  bytes_at m' key = bytes_at m key ->
  lookup_loop n key nk fuel i found m' = lookup_loop n key nk fuel i found m.
Proof.
  induction fuel as [|fuel IH]; intros i found Hi HK Hkey; cbn [lookup_loop];
    [reflexivity|].
  destruct (Z.ltb_spec i nk); [|reflexivity].
  specialize (HK i ltac:(lia)) as HKi. rewrite Hkey.
  destruct (GetKey n i m') as [k'|], (GetKey n i m) as [k|];
    cbn [option_map] in HKi; try discriminate; [|reflexivity].
  injection HKi as ->.
  rewrite IH by (try assumption; u16). reflexivity.
Qed.

Variable K : Z -> list Z.
Hypothesis HK : forall i, 1 <= i < nk ->
  exists s, GetKey n i m = Some s /\ bytes_at m s = K i.
Hypothesis Hasc : forall i j, 1 <= i < j -> j < nk -> bytes_Compare (K i) (K j) < 0.

Lemma lookup_loop_correct fuel : forall i,
  1 <= i <= Z.max 1 nk ->
  nk <= i \/ nk - i < Z.of_nat fuel ->
  (forall j, 1 <= j < i -> bytes_Compare (K j) (bytes_at m key) < 0) ->
  exists r, lookup_loop n key nk fuel i (i - 1) m = Some r /\
    0 <= r /\ (r = 0 \/ (r < nk /\ bytes_Compare (K r) (bytes_at m key) <= 0)) /\
    (forall j, r < j < nk -> bytes_Compare (K j) (bytes_at m key) > 0).
Proof.
  induction fuel as [|fuel IH]; intros i Hi Hfuel Hbelow; cbn [lookup_loop].
  - exists (i - 1). split; [reflexivity|]. split; [lia|]. split; [|intros; lia].
    destruct (Z.eq_dec i 1); [left; lia|]. right.
    split; [lia|]. specialize (Hbelow (i - 1)). lia.
  - destruct (Z.ltb_spec i nk) as [Hlt|Hge].
    + destruct (HK i ltac:(lia)) as (s & -> & ->).
      set (c := bytes_Compare (K i) (bytes_at m key)).
      destruct (Z.geb_spec c 0) as [Hc|Hc].
      * destruct (Z.leb_spec c 0) as [Hc'|Hc'].
        -- (* equal: stop at i *)
           exists i. split; [reflexivity|]. split; [lia|]. split; [right; lia|].
           intros j Hj. assert (E : K i = bytes_at m key) by (apply bytes_Compare_eq; lia).
           rewrite <- E. rewrite bytes_Compare_antisym.
           specialize (Hasc i j). lia.
        -- (* greater: keep the previous index *)
           exists (i - 1). split; [reflexivity|]. split; [lia|]. split.
           ++ destruct (Z.eq_dec i 1); [left; lia|]. right.
              split; [lia|]. specialize (Hbelow (i - 1)). lia.
           ++ intros j Hj. destruct (Z.eq_dec j i) as [->|Hne]; [fold c; lia|].
              assert (bytes_Compare (bytes_at m key) (K j) < 0).
              { apply bytes_Compare_lt_trans with (b := K i).
                - rewrite bytes_Compare_antisym. fold c. lia.
                - apply Hasc; lia. }
              rewrite bytes_Compare_antisym. lia.
      * (* smaller: go on *)
        destruct (Z.leb_spec c 0); [|lia].
        replace (add16 i 1) with (i + 1) by u16.
        specialize (IH (i + 1)). replace (i + 1 - 1) with i in IH by lia.
        apply IH; [lia | lia |].
        intros j Hj. destruct (Z.eq_dec j i) as [->|]; [fold c; lia | apply Hbelow; lia].
    + exists (i - 1). split; [reflexivity|]. split; [lia|]. split; [|intros; lia].
      destruct (Z.eq_dec i 1); [left; lia|]. right.
      split; [lia|]. specialize (Hbelow (i - 1)). lia.
Qed.
End Lookup.

(** C10: when the node has at least one key, a returned index is below
    the key count; with no key the result is 0 whatever the buffer holds;
    the lookup returns whenever the keys at indices 1 and up are readable;
    and the result is a function of the key count, the search key and the
    keys at indices 1 and up alone: two stores that agree on those give
    the same result, whatever key 0 is (or whether it is readable at all). *)
Theorem NodeLookUpLE_ignores_first_key n key m :
  (forall nk r, NKeys n m = Some nk -> 1 <= nk ->
     NodeLookUpLE n key m = Some r -> 0 <= r < nk) /\
  (NKeys n m = Some 0 -> NodeLookUpLE n key m = Some 0) /\
  (forall nk, NKeys n m = Some nk ->
     (forall i, 1 <= i < nk -> GetKey n i m <> None) ->
     NodeLookUpLE n key m <> None) /\
  (forall m' nk, NKeys n m = Some nk -> NKeys n m' = Some nk ->
     (forall i, 1 <= i < nk ->
        option_map (bytes_at m') (GetKey n i m') =
        option_map (bytes_at m) (GetKey n i m)) ->
     bytes_at m' key = bytes_at m key ->
     NodeLookUpLE n key m' = NodeLookUpLE n key m).
Proof.
  split; [|split; [|split]].
  - intros nk r Hnk H1 Hr. unfold NodeLookUpLE in Hr. rewrite Hnk in Hr.
    pose proof (NKeys_inv _ _ _ Hnk) as (_ & _ & Hb).
    apply lookup_loop_bound in Hr; lia.
  - intros Hnk. unfold NodeLookUpLE. rewrite Hnk. reflexivity.
  - intros nk Hnk Hall. unfold NodeLookUpLE. rewrite Hnk.
    pose proof (NKeys_inv _ _ _ Hnk) as (_ & _ & Hb).
    assert (G : forall fuel i found, 1 <= i ->
              lookup_loop n key nk fuel i found m <> None).
    { induction fuel as [|fuel IH]; intros i found Hi; cbn [lookup_loop]; [discriminate|].
      destruct (Z.ltb_spec i nk); [|discriminate].
      specialize (Hall i ltac:(lia)).
      destruct (GetKey n i m) as [k|]; [|congruence].
      destruct (bytes_Compare (bytes_at m k) (bytes_at m key) >=? 0); [discriminate|].
      apply IH. u16. }
    apply G. lia.
  - intros m' nk Hnk Hnk' HK Hkey. unfold NodeLookUpLE. rewrite Hnk, Hnk'.
    pose proof (NKeys_inv _ _ _ Hnk) as (_ & _ & Hb).
    apply lookup_loop_ext; [exact Hb | lia | exact HK | exact Hkey].
Qed.


(** On the three-entry leaf, searching "d" gives index 1, also after the
    byte of key 0 is overwritten. *)
Lemma NodeLookUpLE_ignores_first_key_witness :
  let n := page 0 in
  let m := store (mem_of 0 leaf3) 5000 100 in
  let m' := store m 38 122 in
  let key := mkSlice 5000 1 1 in
  NodeLookUpLE n key m = Some 1 /\ NodeLookUpLE n key m' = Some 1.
Proof.
  intros n m m' key.
  destruct (NodeLookUpLE_ignores_first_key n key m) as (Hb & _ & _ & Hext).
  assert (E : NodeLookUpLE n key m = Some 1) by (vm_compute; reflexivity).
  split; [exact E|].
  rewrite (Hext m' 3); [exact E | reflexivity | reflexivity | | reflexivity].
  intros i Hi.
  assert (Hc : i = 1 \/ i = 2) by lia.
  destruct Hc as [-> | ->]; vm_compute; reflexivity.
Defined.


(** C4: on a node whose keys [K 0 < K 1 < ... < K (nk-1)] are readable and
    strictly ascending, the lookup returns an index [r] such that: if some
    index has a key at most the search key, [r] is the largest such index;
    and if no index from 1 up has one, [r] is 0. *)
Theorem NodeLookUpLE_largest_le n key m nk (K : Z -> list Z) :
  NKeys n m = Some nk ->
  (forall i, 0 <= i < nk -> exists s, GetKey n i m = Some s /\ bytes_at m s = K i) ->
  (forall i j, 0 <= i < j -> j < nk -> bytes_Compare (K i) (K j) < 0) ->
  exists r, NodeLookUpLE n key m = Some r /\
    ((exists i, 0 <= i < nk /\ bytes_Compare (K i) (bytes_at m key) <= 0) ->
       0 <= r < nk /\ bytes_Compare (K r) (bytes_at m key) <= 0 /\
       forall j, r < j < nk -> bytes_Compare (K j) (bytes_at m key) > 0) /\
    ((forall i, 1 <= i < nk -> bytes_Compare (K i) (bytes_at m key) > 0) -> r = 0).
Proof.
  intros Hnk HK Hasc.
  pose proof (NKeys_inv _ _ _ Hnk) as (_ & _ & Hb).
  destruct (lookup_loop_correct n key m nk Hb K
              (fun i Hi => HK i ltac:(lia)) (fun i j Hi Hj => Hasc i j ltac:(lia) Hj)
              (Z.to_nat nk) 1 ltac:(lia) ltac:(lia) ltac:(intros; lia))
    as (r & Hr & Hr0 & Hle & Hgt).
  change (1 - 1) with 0 in Hr.
  exists r. unfold NodeLookUpLE. rewrite Hnk. split; [exact Hr|]. split.
  - intros (i & Hi & Hci).
    assert (Hrn : r < nk) by (destruct Hle as [->|[? _]]; lia).
    split; [lia|]. split; [|exact Hgt].
    destruct Hle as [->|[_ ?]]; [|assumption].
    destruct (Z.eq_dec i 0) as [->|]; [exact Hci|].
    specialize (Hgt i). lia.
  - intros Hnone. destruct Hle as [->|[Hrn Hc]]; [reflexivity|].
    destruct (Z.eq_dec r 0) as [->|]; [reflexivity|].
    specialize (Hnone r). lia.
Qed.


(** On the three-entry leaf, searching "d" gives index 1. *)
Lemma NodeLookUpLE_largest_le_witness :
  let n := page 0 in
  let m := store (mem_of 0 leaf3) 5000 100 in
  let key := mkSlice 5000 1 1 in
  exists r, NodeLookUpLE n key m = Some r /\ r = 1.
Proof.
  intros n m key.
  destruct (NodeLookUpLE_largest_le n key m 3 leaf3_key) as (r & Hr & _ & _).
  - reflexivity.
  - intros i Hi. assert (Hc : i = 0 \/ i = 1 \/ i = 2) by lia.
    destruct Hc as [-> | [-> | ->]]; eexists; split; vm_compute; reflexivity.
  - intros i j Hi Hj.
    assert (Hc : (i = 0 /\ j = 1) \/ (i = 0 /\ j = 2) \/ (i = 1 /\ j = 2)) by lia.
    destruct Hc as [[-> ->] | [[-> ->] | [-> ->]]]; vm_compute; reflexivity.
  - exists r. split; [exact Hr|].
    assert (E : NodeLookUpLE n key m = Some 1) by (vm_compute; reflexivity).
    congruence.
Defined.

(* ================================================================== *)
(** * Footprint of the mutators *)

Section Frame.
Variables a b : Z.

Lemma ww_ret {A} (v : A) : writes_within a b (ret v).
Proof. intros m m' H x _. injection H as <-. reflexivity. Qed.

Lemma ww_liftO {A} (o : option A) : writes_within a b (liftO o).
Proof. intros m m' H x _. destruct o; injection H as <-; reflexivity. Qed.

Lemma ww_lift {A} (r : R A) : writes_within a b (lift r).
Proof. intros m m' H x _. unfold lift in H. destruct (r m); injection H as <-; reflexivity. Qed.

Lemma ww_bind {A B} (c : M A) (k : A -> M B) :
  writes_within a b c -> (forall v, writes_within a b (k v)) ->
  writes_within a b (bind c k).
Proof.
  intros Hc Hk m m' H x Hx. unfold bind in H.
  destruct (c m) as [v m1| m1 |] eqn:E.
  - rewrite (Hk v m1 m' H x Hx). apply (Hc m m1); [rewrite E; reflexivity | exact Hx].
  - injection H as <-. apply (Hc m m1); [rewrite E; reflexivity | exact Hx].
  - discriminate.
Qed.

Lemma ww_bind_liftO {A B} (o : option A) (k : A -> M B) :
  (forall v, o = Some v -> writes_within a b (k v)) ->
  writes_within a b (bind (liftO o) k).
Proof.
  intros Hk. destruct o as [v|].
  - intros m m' H. apply (Hk v eq_refl m m'). exact H.
  - intros m m' H x _. injection H as <-. reflexivity.
Qed.

Lemma ww_for_loop cond body fuel : forall i,
  (forall j, writes_within a b (body j)) ->
  writes_within a b (for_loop fuel cond body i).
Proof.
  induction fuel as [|fuel IH]; intros i Hb; cbn [for_loop].
  - intros m m' H. discriminate.
  - destruct (cond i); [|apply ww_ret].
    apply ww_bind; [apply Hb | intros _; apply IH; exact Hb].
Qed.

Lemma ww_store_list l : forall m a0 x,
  a <= a0 -> a0 + Z.of_nat (length l) <= b -> ~ (a <= x < b) ->
  store_list m a0 l x = m x.
Proof. intros. apply store_list_outside. lia. Qed.

Lemma ww_PutUint16 s v :
  a <= base s -> base s + len s <= b -> writes_within a b (PutUint16 s v).
Proof.
  intros H1 H2 m m' H x Hx. unfold PutUint16 in H.
  destruct (Z.leb_spec 2 (len s)); injection H as <-; [|reflexivity].
  apply store_le_outside. change (Z.of_nat 2) with 2. lia.
Qed.

Lemma ww_PutUint64 s v :
  a <= base s -> base s + len s <= b -> writes_within a b (PutUint64 s v).
Proof.
  intros H1 H2 m m' H x Hx. unfold PutUint64 in H.
  destruct (Z.leb_spec 8 (len s)); injection H as <-; [|reflexivity].
  apply store_le_outside. change (Z.of_nat 8) with 8. lia.
Qed.

Lemma ww_copy d s :
  a <= base d -> base d + len d <= b -> writes_within a b (copy d s).
Proof.
  intros H1 H2 m m' H x Hx. unfold copy in H. injection H as <-.
  apply store_list_outside. rewrite length_firstn, bytes_at_length. lia.
Qed.
End Frame.

Lemma slice_from_within n p s :
  slice_from (Data n) p = Some s -> lo n <= base s /\ base s + len s <= hi n.
Proof.
  unfold slice_from, lo, hi.
  destruct (Z.leb_spec 0 p); [|discriminate].
  destruct (Z.leb_spec p (len (Data n))); [|discriminate].
  intros H'. injection H' as <-. cbn [base len]. lia.
Qed.

Lemma ww_SetHeader n t k : writes_within (lo n) (hi n) (SetHeader n t k).
Proof.
  unfold SetHeader. apply ww_bind_liftO. intros s Hs.
  assert (lo n <= base s /\ base s + len s <= hi n) as [? ?].
  { unfold slice_range, lo, hi in *. cbn [andb Z.leb] in Hs.
    destruct (Z.leb_spec 2 (cap (Data n))); [|discriminate].
    injection Hs as <-. cbn [base len]. lia. }
  apply ww_bind; [apply ww_PutUint16; assumption | intros _].
  unfold lo, hi. apply ww_PutUint16; lia.
Qed.

Lemma ww_SetPtr n idx v : writes_within (lo n) (hi n) (SetPtr n idx v).
Proof.
  unfold SetPtr. apply ww_bind; [apply ww_lift | intros nk].
  apply ww_bind; [apply ww_liftO | intros _].
  apply ww_bind_liftO. intros s Hs. apply slice_from_within in Hs.
  apply ww_PutUint64; apply Hs.
Qed.

Lemma ww_SetOffset n idx v : writes_within (lo n) (hi n) (SetOffset n idx v).
Proof.
  unfold SetOffset. apply ww_bind; [apply ww_lift | intros pos].
  apply ww_bind_liftO. intros s Hs. apply slice_from_within in Hs.
  apply ww_PutUint16; apply Hs.
Qed.

Lemma ww_NodeAppendRange new old dst src n :
  writes_within (lo new) (hi new) (NodeAppendRange new old dst src n).
Proof.
  unfold NodeAppendRange.
  apply ww_bind; [apply ww_lift | intros nkO].
  apply ww_bind; [apply ww_liftO | intros _].
  apply ww_bind; [apply ww_lift | intros nkN].
  apply ww_bind; [apply ww_liftO | intros _].
  destruct (n =? 0); [apply ww_ret|].
  apply ww_bind.
  { apply ww_for_loop. intros j. apply ww_bind; [apply ww_lift | intros p; apply ww_SetPtr]. }
  intros _. apply ww_bind; [apply ww_lift | intros dstBegin].
  apply ww_bind; [apply ww_lift | intros srcBegin].
  apply ww_bind.
  { apply ww_for_loop. intros j. apply ww_bind; [apply ww_lift | intros p; apply ww_SetOffset]. }
  intros _. apply ww_bind; [apply ww_lift | intros begin].
  apply ww_bind; [apply ww_lift | intros end_].
  apply ww_bind; [apply ww_lift | intros pos].
  apply ww_bind_liftO. intros d Hd. apply slice_from_within in Hd.
  apply ww_bind_liftO. intros s _.
  apply ww_bind; [apply ww_copy; apply Hd | intros _; apply ww_ret].
Qed.

Lemma ww_NodeAppendKV new idx ptr key val :
  writes_within (lo new) (hi new) (NodeAppendKV new idx ptr key val).
Proof.
  unfold NodeAppendKV.
  apply ww_bind; [apply ww_SetPtr | intros _].
  apply ww_bind; [apply ww_lift | intros pos].
  apply ww_bind_liftO. intros b0 H0. apply slice_from_within in H0.
  apply ww_bind; [apply ww_PutUint16; apply H0 | intros _].
  apply ww_bind_liftO. intros b2 H2. apply slice_from_within in H2.
  apply ww_bind; [apply ww_PutUint16; apply H2 | intros _].
  apply ww_bind_liftO. intros dk Hk. apply slice_from_within in Hk.
  apply ww_bind; [apply ww_copy; apply Hk | intros _].
  apply ww_bind_liftO. intros dv Hv. apply slice_from_within in Hv.
  apply ww_bind; [apply ww_copy; apply Hv | intros _].
  apply ww_bind; [apply ww_lift | intros off].
  apply ww_SetOffset.
Qed.

Lemma ww_LeafInsert new old idx key val :
  writes_within (lo new) (hi new) (LeafInsert new old idx key val).
Proof.
  unfold LeafInsert.
  apply ww_bind; [apply ww_lift | intros nk].
  apply ww_bind; [apply ww_SetHeader | intros _].
  apply ww_bind; [apply ww_NodeAppendRange | intros _].
  apply ww_bind; [apply ww_NodeAppendKV | intros _].
  apply ww_bind; [apply ww_lift | intros nk'].
  apply ww_NodeAppendRange.
Qed.

(** ** Every loop of the builders stops *)

Lemma term_ret {A} (v : A) : terminates (ret v).
Proof. intros m. discriminate. Qed.

Lemma term_liftO {A} (o : option A) : terminates (liftO o).
Proof. intros m. destruct o; discriminate. Qed.

Lemma term_lift {A} (r : R A) : terminates (lift r).
Proof. intros m. unfold lift. apply term_liftO. Qed.

Lemma term_bind {A B} (c : M A) (k : A -> M B) :
  terminates c -> (forall v, terminates (k v)) -> terminates (bind c k).
Proof.
  intros Hc Hk m. unfold bind. specialize (Hc m).
  destruct (c m) as [v m1|m1|]; [apply Hk | discriminate | congruence].
Qed.

Lemma term_PutUint16 s v : terminates (PutUint16 s v).
Proof. intros m. unfold PutUint16. destruct (2 <=? len s); discriminate. Qed.

Lemma term_PutUint64 s v : terminates (PutUint64 s v).
Proof. intros m. unfold PutUint64. destruct (8 <=? len s); discriminate. Qed.

Lemma term_copy d s : terminates (copy d s).
Proof. intros m. discriminate. Qed.

Lemma term_SetPtr n idx v : terminates (SetPtr n idx v).
Proof.
  unfold SetPtr. apply term_bind; [apply term_lift | intros nk].
  apply term_bind; [apply term_liftO | intros _].
  apply term_bind; [apply term_liftO | intros s]. apply term_PutUint64.
Qed.

Lemma term_SetOffset n idx v : terminates (SetOffset n idx v).
Proof.
  unfold SetOffset. apply term_bind; [apply term_lift | intros pos].
  apply term_bind; [apply term_liftO | intros s]. apply term_PutUint16.
Qed.

Lemma term_SetHeader n t k : terminates (SetHeader n t k).
Proof.
  unfold SetHeader. apply term_bind; [apply term_liftO | intros s].
  apply term_bind; [apply term_PutUint16 | intros _]. apply term_PutUint16.
Qed.

(** A counting loop stops once its condition fails, or at an iteration
    whose body panics, if that happens within the fuel. *)
Lemma term_for_loop cond body (stop : Z -> Prop) :
  (forall j, terminates (body j)) ->
  (forall j, stop j -> cond j = true -> forall m, panicked (body j m) = true) ->
  forall k fuel i,
  (k < fuel)%nat -> 0 <= i < 65536 ->
  cond (uint16 (i + Z.of_nat k)) = false \/ stop (uint16 (i + Z.of_nat k)) ->
  terminates (for_loop fuel cond body i).
Proof.
  intros Hb Hstop. induction k as [|k IH]; intros fuel i Hk Hi Hend m;
    (destruct fuel as [|fuel]; [lia|]); cbn [for_loop].
  - replace (uint16 (i + Z.of_nat 0)) with i in Hend by u16.
    destruct (cond i) eqn:Hc; [|discriminate].
    destruct Hend as [|Hs]; [discriminate|].
    unfold bind. specialize (Hstop i Hs Hc m).
    destruct (body i m); discriminate.
  - destruct (cond i); [|discriminate].
    apply term_bind; [apply Hb | intros _].
    apply IH; [lia | u16 |].
    replace (uint16 (add16 i 1 + Z.of_nat k)) with (uint16 (i + Z.of_nat (S k)));
      [exact Hend | u16].
Qed.

Lemma SetOffset_0_panics n v m : panicked (SetOffset n 0 v m) = true.
Proof.
  unfold SetOffset, bind, lift, OffsetPos.
  destruct (NKeys n m); reflexivity.
Qed.

Lemma term_NodeAppendRange new old dst src n :
  0 <= dst < 65536 -> 0 <= n < 65536 ->
  terminates (NodeAppendRange new old dst src n).
Proof.
  intros Hd Hn. unfold NodeAppendRange.
  apply term_bind; [apply term_lift | intros nkO].
  apply term_bind; [apply term_liftO | intros _].
  apply term_bind; [apply term_lift | intros nkN].
  apply term_bind; [apply term_liftO | intros _].
  destruct (n =? 0); [apply term_ret|].
  apply term_bind.
  { apply term_for_loop with (stop := fun _ => False) (k := Z.to_nat n).
    - intros j. apply term_bind; [apply term_lift | intros p; apply term_SetPtr].
    - intros j [].
    - unfold loop_fuel. lia.
    - lia.
    - left. rewrite Z2Nat.id, Z.add_0_l, uint16_small by lia. apply Z.ltb_irrefl. }
  intros _. apply term_bind; [apply term_lift | intros dstBegin].
  apply term_bind; [apply term_lift | intros srcBegin].
  apply term_bind.
  { apply term_for_loop with (stop := fun j => add16 dst j = 0)
                             (k := Z.to_nat (if n =? 65535 then 65535 - dst else n)).
    - intros j. apply term_bind; [apply term_lift | intros p; apply term_SetOffset].
    - intros j Hj _ m. unfold bind, lift, liftO.
      destruct (GetOffset old (add16 src j) m); [|reflexivity].
      rewrite Hj. apply SetOffset_0_panics.
    - unfold loop_fuel. destruct (n =? 65535); lia.
    - lia.
    - destruct (Z.eqb_spec n 65535) as [->|Hne].
      + right. rewrite Z2Nat.id by lia. u16.
      + left. rewrite Z2Nat.id by lia. rewrite uint16_small by lia. apply Z.leb_gt. lia. }
  intros _. apply term_bind; [apply term_lift | intros begin].
  apply term_bind; [apply term_lift | intros end_].
  apply term_bind; [apply term_lift | intros pos].
  apply term_bind; [apply term_liftO | intros d].
  apply term_bind; [apply term_liftO | intros s].
  apply term_bind; [apply term_copy | intros _; apply term_ret].
Qed.

Lemma term_NodeAppendKV new idx ptr key val :
  terminates (NodeAppendKV new idx ptr key val).
Proof.
  unfold NodeAppendKV.
  apply term_bind; [apply term_SetPtr | intros _].
  apply term_bind; [apply term_lift | intros pos].
  apply term_bind; [apply term_liftO | intros b0].
  apply term_bind; [apply term_PutUint16 | intros _].
  apply term_bind; [apply term_liftO | intros b2].
  apply term_bind; [apply term_PutUint16 | intros _].
  apply term_bind; [apply term_liftO | intros dk].
  apply term_bind; [apply term_copy | intros _].
  apply term_bind; [apply term_liftO | intros dv].
  apply term_bind; [apply term_copy | intros _].
  apply term_bind; [apply term_lift | intros off].
  apply term_SetOffset.
Qed.

Lemma term_LeafInsert new old idx key val :
  0 <= idx < 65536 -> terminates (LeafInsert new old idx key val).
Proof.
  intros Hi. unfold LeafInsert.
  apply term_bind; [apply term_lift | intros nk].
  apply term_bind; [apply term_SetHeader | intros _].
  apply term_bind; [apply term_NodeAppendRange; lia | intros _].
  apply term_bind; [apply term_NodeAppendKV | intros _].
  apply term_bind; [apply term_lift | intros nk'].
  apply term_NodeAppendRange; [pose proof (uint16_range (idx + 1)) | pose proof (uint16_range (nk' - idx))]; assumption.
Qed.

(* ================================================================== *)
(** * The builders leave the source node alone *)

Lemma separate_bytes_at new s m m' :
  (forall x, ~ (lo new <= x < hi new) -> m' x = m x) ->
  separate (Data new) s ->
  bytes_at m' s = bytes_at m s.
Proof.
  intros H Hsep. apply bytes_at_ext. intros x Hx. apply H.
  unfold separate, extent, lo, hi in *. lia.
Qed.

(** C9: whatever the arguments, and whether the call returns or panics,
    [LeafInsert], [NodeAppendRange] and [NodeAppendKV] change no cell
    outside the destination buffer; so the bytes of the source node are
    the same afterwards whenever its buffer does not overlap the
    destination's.  With [uint16] arguments each call does return or
    panic. *)
Theorem builders_leave_old_unchanged new old idx dst src n ptr key val m :
  let unchanged (o : outcome unit) :=
    forall m', final_mem o = Some m' ->
      (forall x, ~ (lo new <= x < hi new) -> m' x = m x) /\
      (separate (Data new) (Data old) ->
         bytes_at m' (Data old) = bytes_at m (Data old)) in
  unchanged (LeafInsert new old idx key val m) /\
  unchanged (NodeAppendRange new old dst src n m) /\
  unchanged (NodeAppendKV new idx ptr key val m) /\
  (0 <= idx < 65536 -> 0 <= dst < 65536 -> 0 <= n < 65536 ->
     final_mem (LeafInsert new old idx key val m) <> None /\
     final_mem (NodeAppendRange new old dst src n m) <> None /\
     final_mem (NodeAppendKV new idx ptr key val m) <> None).
Proof.
  intros unchanged.
  assert (G : forall c : M unit, writes_within (lo new) (hi new) c -> unchanged (c m)).
  { intros c Hc m' Hm'. split; [exact (Hc m m' Hm')|].
    intros Hsep. apply (separate_bytes_at new); [exact (Hc m m' Hm') | exact Hsep]. }
  assert (T : forall c : M unit, terminates c -> final_mem (c m) <> None).
  { intros c Hc. specialize (Hc m). destruct (c m); [discriminate | discriminate | congruence]. }
  split; [apply G, ww_LeafInsert|].
  split; [apply G, ww_NodeAppendRange|].
  split; [apply G, ww_NodeAppendKV|].
  intros Hi Hd Hn.
  split; [apply T, term_LeafInsert; exact Hi|].
  split; [apply T, term_NodeAppendRange; assumption|].
  apply T, term_NodeAppendKV.
Qed.


(** Inserting into a destination page whose count bytes hold 4 leaves the
    source page as it was. *)
Lemma builders_leave_old_unchanged_witness :
  exists m', final_mem (LeafInsert (page 4096) (page 0) 1 key_b val_9 m_ex4) = Some m' /\
             bytes_at m' (Data (page 0)) = bytes_at m_ex4 (Data (page 0)).
Proof.
  destruct (builders_leave_old_unchanged (page 4096) (page 0) 1 0 0 0 0 key_b val_9 m_ex4)
    as (HL & _ & _ & HT).
  destruct HT as (HT & _ & _); [lia | lia | lia |].
  destruct (final_mem (LeafInsert (page 4096) (page 0) 1 key_b val_9 m_ex4)) as [m'|] eqn:E;
    [|exfalso; apply HT; reflexivity].
  exists m'. split; [reflexivity|].
  apply (HL m' eq_refl). right. vm_compute. discriminate.
Defined.

(* ================================================================== *)
(** * [LeafInsert] on a fresh page *)

(** C5 (postcondition of [LeafInsert]) fails on the code: the header
    written by [SetHeader] has the key count in the type field and leaves
    the count bytes alone, so on a fresh page the destination still has
    0 keys and the first [NodeAppendRange] panics on its assertion
    [dstNew+n <= new.NKeys()].  The page is left with type 4 (not Leaf)
    and key count 0 (not 4). *)
Theorem LeafInsert_fresh_page_fails :
  let new := page 4096 in
  let old := page 0 in
  NKeys old m_ex = Some 3 /\
  NKeys new m_ex = Some 0 /\
  exists m', LeafInsert new old 1 key_b val_9 m_ex = Panic m' /\
             BType new m' = Some 4 /\ NKeys new m' = Some 0.
Proof.
  intros new old. split; [reflexivity|]. split; [reflexivity|].
  eexists. split; [vm_compute; reflexivity|]. split; vm_compute; reflexivity.
Qed.


(** The slip is confined to the header: when the count bytes of the
    destination already hold 4, the same call returns and the page decodes
    to the four entries in order, with key count 4, but its type field
    still holds 4 instead of Leaf (2). *)
Example LeafInsert_count_preset :
  exists m', LeafInsert (page 4096) (page 0) 1 key_b val_9 m_ex4 = Ok tt m' /\
    entries (page 4096) m' 4 =
      [Some ([97], [49]); Some ([98], [57]); Some ([99], [50]); Some ([101], [51])] /\
    NKeys (page 4096) m' = Some 4 /\
    BType (page 4096) m' = Some 4.
Proof.
  eexists. split; [vm_compute; reflexivity|]. repeat split; vm_compute; reflexivity.
Qed.

(** C2 (round trip through [LeafInsert]) fails on the code for the same
    reason: the call panics and no entry is stored; on the page it leaves,
    index 0 decodes to the empty key and index 1 is out of bounds. *)
Theorem LeafInsert_round_trip_fails :
  let new := page 4096 in
  let old := page 0 in
  option_map (bytes_at m_ex) (GetKey old 0 m_ex) = Some [97] /\
  exists m', final_mem (LeafInsert new old 1 key_b val_9 m_ex) = Some m' /\
             panicked (LeafInsert new old 1 key_b val_9 m_ex) = true /\
             option_map (bytes_at m') (GetKey new 0 m') = Some [] /\
             GetKey new 1 m' = None /\ GetVal new 1 m' = None.
Proof.
  intros new old. split; [vm_compute; reflexivity|].
  eexists. split; [vm_compute; reflexivity|]. repeat split; vm_compute; reflexivity.
Qed.

(* ================================================================== *)
(** * [NodeAppendKV] *)

(** ** More closed forms *)

Lemma copy_ok dst src m :
  0 <= len src <= len dst ->
  copy dst src m = Ok (len src) (store_list m (base dst) (bytes_at m src)).
Proof.
  intros H. unfold copy. rewrite Z.min_r by lia.
  rewrite firstn_all2 by (rewrite bytes_at_length; lia). reflexivity.
Qed.

Lemma SetPtr_ok n m nk idx v :
  NKeys n m = Some nk -> 0 <= idx < nk ->
  HEADER + 8 * idx + 8 <= Z.min (len (Data n)) 65536 ->
  SetPtr n idx v m = Ok tt (store_le 8 m (ptr_addr n idx) v).
Proof.
  intros Hnk Hidx Hfit. unfold SetPtr, ptr_addr, HEADER in *.
  erewrite bind_lift by exact Hnk.
  destruct (Z.ltb_spec idx nk); [|lia]. unfold AssertM. cbn [Assert].
  erewrite bind_liftO by reflexivity.
  replace (add16 4 (mul16 8 idx)) with (4 + 8 * idx) by u16.
  erewrite bind_liftO by (apply slice_from_some; lia).
  rewrite PutUint64_ok by (cbn [len]; lia). cbn [base]. do 2 f_equal. lia.
Qed.

Lemma SetOffset_ok n m nk idx v :
  NKeys n m = Some nk -> 1 <= idx <= nk ->
  HEADER + 8 * nk + 2 * idx <= Z.min (len (Data n)) 65536 ->
  SetOffset n idx v m = Ok tt (store_le 2 m (off_addr n nk idx) v).
Proof.
  intros Hnk Hidx Hfit. unfold SetOffset.
  erewrite bind_lift by (apply (OffsetPos_spec n m nk idx); auto; lia).
  unfold off_addr, HEADER in *.
  erewrite bind_liftO by (apply slice_from_some; lia).
  rewrite PutUint16_ok by (cbn [len]; lia). cbn [base]. do 2 f_equal. lia.
Qed.

(** [GetOffset] only looks at the key count and at its own slot. *)
Lemma GetOffset_frame n m m' nk idx :
  NKeys n m = Some nk -> NKeys n m' = Some nk -> 0 <= idx <= nk ->
  HEADER + 8 * nk + 2 * idx <= Z.min (len (Data n)) 65536 ->
  (idx <> 0 -> load_le 2 m' (off_addr n nk idx) = load_le 2 m (off_addr n nk idx)) ->
  GetOffset n idx m' = GetOffset n idx m.
Proof.
  intros Hnk Hnk' Hidx Hfit Hslot.
  destruct (Z.eq_dec idx 0) as [->|Hne]; [reflexivity|].
  rewrite (GetOffset_spec n m nk idx), (GetOffset_spec n m' nk idx) by (auto; lia).
  f_equal. apply Hslot. exact Hne.
Qed.

Lemma GetOffset_range n m idx off :
  GetOffset n idx m = Some off -> 0 <= off < 65536.
Proof.
  unfold GetOffset. destruct (idx =? 0); [intros H; injection H; lia|].
  destruct (OffsetPos n idx m); [|discriminate].
  destruct (slice_from (Data n) z); [|discriminate].
  unfold Uint16. destruct (2 <=? len s); [|discriminate].
  intros H. injection H as <-. apply load_le_2_range.
Qed.

Lemma GetKey_spec n m nk idx pos :
  NKeys n m = Some nk -> 0 <= idx <= nk ->
  KVPos n idx m = Some pos -> 0 <= pos ->
  pos + 4 <= Z.min (len (Data n)) 65535 ->
  load_le 2 m (lo n + pos) <= cap (Data n) - (pos + 4) ->
  GetKey n idx m =
    Some (mkSlice (lo n + pos + 4) (load_le 2 m (lo n + pos)) (cap (Data n) - (pos + 4))).
Proof.
  intros Hnk Hidx Hpos Hp Hfit Hk. unfold GetKey, lo in *. rewrite Hnk, Hpos.
  destruct (Z.leb_spec idx nk); [|lia]. cbn [Assert].
  rewrite slice_from_some by lia. rewrite Uint16_some by (cbn [len]; lia). cbn [base].
  replace (add16 pos 4) with (pos + 4) by u16.
  rewrite slice_from_some by lia.
  pose proof (load_le_2_range m (base (Data n) + pos)).
  unfold slice_to. rewrite slice_range_some by (cbn [cap]; lia).
  cbn [base cap]. f_equal. f_equal; lia.
Qed.

Lemma GetVal_spec n m nk idx pos :
  NKeys n m = Some nk -> 0 <= idx <= nk ->
  KVPos n idx m = Some pos -> 0 <= pos ->
  pos + 4 + load_le 2 m (lo n + pos) <= Z.min (len (Data n)) 65535 ->
  load_le 2 m (lo n + pos + 2) <= cap (Data n) - (pos + 4 + load_le 2 m (lo n + pos)) ->
  GetVal n idx m =
    Some (mkSlice (lo n + pos + 4 + load_le 2 m (lo n + pos))
                  (load_le 2 m (lo n + pos + 2))
                  (cap (Data n) - (pos + 4 + load_le 2 m (lo n + pos)))).
Proof.
  intros Hnk Hidx Hpos Hp Hfit Hk. unfold GetVal, lo in *. rewrite Hnk, Hpos.
  destruct (Z.leb_spec idx nk); [|lia]. cbn [Assert].
  pose proof (load_le_2_range m (base (Data n) + pos)).
  pose proof (load_le_2_range m (base (Data n) + pos + 2)).
  replace (add16 pos 0) with pos by u16.
  rewrite slice_from_some by lia. rewrite Uint16_some by (cbn [len]; lia). cbn [base].
  replace (add16 pos 2) with (pos + 2) by u16.
  rewrite slice_from_some by lia. rewrite Uint16_some by (cbn [len]; lia). cbn [base].
  rewrite Z.add_assoc.
  set (kl := load_le 2 m (base (Data n) + pos)) in *.
  replace (add16 (add16 pos 4) kl) with (pos + 4 + kl) by u16.
  rewrite slice_from_some by lia.
  unfold slice_to. rewrite slice_range_some by (cbn [cap]; lia).
  cbn [base cap]. f_equal. f_equal; lia.
Qed.

Lemma bytes_at_store_list_out m a0 l s :
  base s + len s <= a0 \/ a0 + Z.of_nat (length l) <= base s ->
  bytes_at (store_list m a0 l) s = bytes_at m s.
Proof. intros H. apply bytes_at_ext. intros x Hx. apply store_list_outside. lia. Qed.

Lemma bytes_at_store_le_out k m a0 v s :
  base s + len s <= a0 \/ a0 + Z.of_nat k <= base s ->
  bytes_at (store_le k m a0 v) s = bytes_at m s.
Proof. intros H. apply bytes_at_ext. intros x Hx. apply store_le_outside. lia. Qed.

Lemma bytes_at_window m s t :
  base s = base t -> len s = len t -> bytes_at m s = bytes_at m t.
Proof. intros Hb Hl. unfold bytes_at. rewrite Hb, Hl. reflexivity. Qed.

Ltac mem_out :=
  repeat first
    [ rewrite load_le_store_le_out by (rewrite ?bytes_at_length; lia)
    | rewrite load_le_store_list_out by (rewrite ?bytes_at_length; lia)
    | rewrite bytes_at_store_le_out by (rewrite ?bytes_at_length; cbn [base len]; lia)
    | rewrite bytes_at_store_list_out by (rewrite ?bytes_at_length; cbn [base len]; lia) ].

(** What [NodeAppendKV] leaves in the store, cell by cell. *)
Lemma NodeAppendKV_run new idx ptr key val m nk off :
  NKeys new m = Some nk ->
  0 <= idx < nk ->
  GetOffset new idx m = Some off ->
  0 <= len key -> 0 <= len val ->
  HEADER + 10 * nk + off + 4 + len key + len val <= Z.min (len (Data new)) 65535 ->
  separate (Data new) key -> separate (Data new) val ->
  let pos := HEADER + 10 * nk + off in
  exists m',
    NodeAppendKV new idx ptr key val m = Ok tt m' /\
    NKeys new m' = Some nk /\
    load_le 8 m' (ptr_addr new idx) = uint64 ptr /\
    load_le 2 m' (lo new + pos) = len key /\
    load_le 2 m' (lo new + pos + 2) = len val /\
    bytes_at m' (mkSlice (lo new + pos + 4) (len key) (len key)) = bytes_at m key /\
    bytes_at m' (mkSlice (lo new + pos + 4 + len key) (len val) (len val)) = bytes_at m val /\
    load_le 2 m' (off_addr new nk (idx + 1)) = off + 4 + len key + len val /\
    (forall x,
       ~ (ptr_addr new idx <= x < ptr_addr new idx + 8) ->
       ~ (off_addr new nk (idx + 1) <= x < off_addr new nk (idx + 1) + 2) ->
       ~ (lo new + pos <= x < lo new + pos + 4 + len key + len val) ->
       m' x = m x).
Proof.
  intros Hnk Hidx Hoff Hlk Hlv Hfit Hsk Hsv pos.
  pose proof (NKeys_inv _ _ _ Hnk) as (Hc4 & Hnkv & Hnkr).
  pose proof (GetOffset_range _ _ _ _ Hoff) as Hoffr.
  unfold separate, extent in Hsk, Hsv.
  assert (Hpos : forall m1, NKeys new m1 = Some nk -> GetOffset new idx m1 = Some off ->
                            KVPos new idx m1 = Some pos).
  { intros m1 H1 H2. rewrite (KVPos_spec new m1 nk idx off) by (auto; lia).
    f_equal. apply uint16_small. unfold pos, HEADER in *. lia. }
  set (B := base (Data new)) in *.
  unfold pos, lo, ptr_addr, off_addr, HEADER in *. clear pos. fold B.
  set (m1 := store_le 8 m (B + 4 + 8 * idx) ptr).
  set (m2 := store_le 2 m1 (B + (4 + 10 * nk + off)) (uint16 (len key))).
  set (m3 := store_le 2 m2 (B + (4 + 10 * nk + off) + 2) (uint16 (len val))).
  set (m4 := store_list m3 (B + (4 + 10 * nk + off) + 4) (bytes_at m key)).
  set (m5 := store_list m4 (B + (4 + 10 * nk + off) + 4 + len key) (bytes_at m val)).
  set (m6 := store_le 2 m5 (B + 4 + 8 * nk + 2 * (idx + 1 - 1)) (off + 4 + len key + len val)).
  (* the key count is never touched *)
  assert (N : forall mi, load_le 2 mi (B + 2) = load_le 2 m (B + 2) -> NKeys new mi = Some nk).
  { intros mi Hmi. rewrite NKeys_eq. unfold lo. fold B. rewrite Hmi.
    destruct (Z.leb_spec 4 (cap (Data new))); [|lia]. f_equal. symmetry. exact Hnkv. }
  assert (N1 : NKeys new m1 = Some nk) by (apply N; unfold m1; mem_out; reflexivity).
  assert (N5 : NKeys new m5 = Some nk)
    by (apply N; unfold m5, m4, m3, m2, m1; mem_out; reflexivity).
  assert (N6 : NKeys new m6 = Some nk)
    by (apply N; unfold m6, m5, m4, m3, m2, m1; mem_out; reflexivity).
  (* nor is the offset of [idx] *)
  assert (O : forall mi, NKeys new mi = Some nk ->
            (idx <> 0 -> load_le 2 mi (B + 4 + 8 * nk + 2 * (idx - 1)) =
                         load_le 2 m (B + 4 + 8 * nk + 2 * (idx - 1))) ->
            GetOffset new idx mi = Some off).
  { intros mi Hmi Hs. rewrite <- Hoff.
    apply (GetOffset_frame new m mi nk idx); auto; unfold HEADER, off_addr; fold B; lia. }
  assert (O1 : GetOffset new idx m1 = Some off)
    by (apply O; [exact N1 | intros; unfold m1; mem_out; reflexivity]).
  assert (O5 : GetOffset new idx m5 = Some off)
    by (apply O; [exact N5 | intros; unfold m5, m4, m3, m2, m1; mem_out; reflexivity]).
  (* the source bytes are away from the destination *)
  assert (Kk : bytes_at m3 key = bytes_at m key).
  { unfold m3, m2, m1. mem_out. reflexivity. }
  assert (Kv : bytes_at m4 val = bytes_at m val).
  { unfold m4, m3, m2, m1. mem_out. reflexivity. }
  exists m6. split.
  { unfold NodeAppendKV.
    erewrite bind_ok
      by (apply (SetPtr_ok new m nk idx ptr); auto; unfold HEADER; lia).
    unfold ptr_addr, HEADER. fold B. fold m1.
    erewrite bind_lift by (apply Hpos; assumption).
    replace (add16 (4 + 10 * nk + off) 0) with (4 + 10 * nk + off) by u16.
    erewrite bind_liftO by (apply slice_from_some; lia).
    erewrite bind_ok by (apply PutUint16_ok; cbn [len]; lia). cbn [base]. fold B. fold m2.
    replace (add16 (4 + 10 * nk + off) 2) with (4 + 10 * nk + off + 2) by u16.
    erewrite bind_liftO by (apply slice_from_some; lia).
    erewrite bind_ok by (apply PutUint16_ok; cbn [len]; lia). cbn [base]. fold B.
    rewrite (Z.add_assoc B (4 + 10 * nk + off) 2). fold m3.
    replace (add16 (4 + 10 * nk + off) 4) with (4 + 10 * nk + off + 4) by u16.
    erewrite bind_liftO by (apply slice_from_some; lia).
    erewrite bind_ok by (apply copy_ok; cbn [len]; lia). cbn [base]. fold B.
    rewrite Kk. rewrite (Z.add_assoc B (4 + 10 * nk + off) 4). fold m4.
    replace (add16 (4 + 10 * nk + off + 4) (uint16 (len key)))
      with (4 + 10 * nk + off + 4 + len key) by u16.
    erewrite bind_liftO by (apply slice_from_some; lia).
    erewrite bind_ok by (apply copy_ok; cbn [len]; lia). cbn [base]. fold B.
    rewrite Kv. rewrite (Z.add_assoc B (4 + 10 * nk + off + 4) (len key)).
    rewrite (Z.add_assoc B (4 + 10 * nk + off) 4). fold m5.
    erewrite bind_lift by exact O5.
    replace (add16 idx 1) with (idx + 1) by u16.
    replace (add16 (add16 off 4) (uint16 (len key + len val)))
      with (off + 4 + len key + len val) by u16.
    rewrite (SetOffset_ok new m5 nk (idx + 1)) by (auto; unfold HEADER; lia).
    unfold off_addr, HEADER. fold B. reflexivity. }
  split; [exact N6|]. split.
  { unfold m6, m5, m4, m3, m2. mem_out.
    unfold m1. rewrite load_le_store_le_same. reflexivity. }
  split.
  { unfold m6, m5, m4, m3. mem_out. unfold m2. rewrite load_le_store_le_same.
    change (256 ^ Z.of_nat 2) with 65536. u16. }
  split.
  { unfold m6, m5, m4. mem_out. unfold m3. rewrite load_le_store_le_same.
    change (256 ^ Z.of_nat 2) with 65536. u16. }
  split.
  { unfold m6, m5. mem_out. unfold m4.
    rewrite bytes_at_store_list
      by (cbn [base len]; rewrite ?bytes_at_length; lia).
    apply map_mod_bytes_at. }
  split.
  { unfold m6. mem_out. unfold m5.
    rewrite bytes_at_store_list
      by (cbn [base len]; rewrite ?bytes_at_length; lia).
    apply map_mod_bytes_at. }
  split.
  { unfold m6. rewrite load_le_store_le_same.
    change (256 ^ Z.of_nat 2) with 65536. u16. }
  intros x H1 H2 H3. unfold m6, m5, m4, m3, m2, m1.
  rewrite !store_le_outside, !store_list_outside, !store_le_outside
    by (rewrite ?bytes_at_length; lia).
  reflexivity.
Qed.

(** C7: let the destination have [nk] keys, [idx < nk], offset [off] at
    [idx], and room for the record (it ends inside the buffer and below
    2^16), with [key] and [val] outside the destination buffer.  Then
    [NodeAppendKV] returns, leaves the key count, stores [ptr] in pointer
    slot [idx], writes at [KVPos(idx) = HEADER + 10*nk + off] the two
    lengths, then the key bytes, then the value bytes, and sets the offset
    of [idx+1] to [off + 4 + len(key) + len(val)]; [GetKey(idx)] and
    [GetVal(idx)] then decode to the bytes passed in. *)
Theorem NodeAppendKV_spec new idx ptr key val m nk off :
  NKeys new m = Some nk ->
  0 <= idx < nk ->
  GetOffset new idx m = Some off ->
  0 <= len key -> 0 <= len val ->
  len (Data new) <= cap (Data new) ->
  HEADER + 10 * nk + off + 4 + len key + len val <= Z.min (len (Data new)) 65535 ->
  separate (Data new) key -> separate (Data new) val ->
  let pos := HEADER + 10 * nk + off in
  exists m',
    NodeAppendKV new idx ptr key val m = Ok tt m' /\
    NKeys new m' = Some nk /\
    GetPtr new idx m' = Some (uint64 ptr) /\
    KVPos new idx m = Some pos /\ KVPos new idx m' = Some pos /\
    load_le 2 m' (lo new + pos) = len key /\
    load_le 2 m' (lo new + pos + 2) = len val /\
    bytes_at m' (mkSlice (lo new + pos + 4) (len key) (len key)) = bytes_at m key /\
    bytes_at m' (mkSlice (lo new + pos + 4 + len key) (len val) (len val)) = bytes_at m val /\
    GetOffset new (idx + 1) m' = Some (off + 4 + len key + len val) /\
    option_map (bytes_at m') (GetKey new idx m') = Some (bytes_at m key) /\
    option_map (bytes_at m') (GetVal new idx m') = Some (bytes_at m val).
Proof.
  intros Hnk Hidx Hoff Hlk Hlv Hcap Hfit Hsk Hsv pos.
  destruct (NodeAppendKV_run new idx ptr key val m nk off
              Hnk Hidx Hoff Hlk Hlv Hfit Hsk Hsv)
    as (m' & Hrun & HN & Hp & L1 & L2 & Bk & Bv & Ho & Hfr).
  fold pos in L1, L2, Bk, Bv, Hfr.
  pose proof (NKeys_inv _ _ _ Hnk) as (_ & _ & Hnkr).
  pose proof (GetOffset_range _ _ _ _ Hoff) as Hoffr.
  assert (Hpos : forall m1, NKeys new m1 = Some nk -> GetOffset new idx m1 = Some off ->
                            KVPos new idx m1 = Some pos).
  { intros m1 H1 H2. rewrite (KVPos_spec new m1 nk idx off) by (auto; lia).
    f_equal. apply uint16_small. unfold pos. hlia. }
  assert (Hoff' : GetOffset new idx m' = Some off).
  { rewrite <- Hoff. apply (GetOffset_frame new m m' nk idx); auto; [lia | hlia |].
    intros Hne. apply load_le_ext. intros j Hj. apply Hfr;
      unfold ptr_addr, off_addr, pos, lo in *; hlia. }
  exists m'. split; [exact Hrun|]. split; [exact HN|]. split.
  { rewrite (GetPtr_spec new m' nk idx) by (auto; hlia). f_equal. exact Hp. }
  split; [apply Hpos; assumption|]. split; [apply Hpos; assumption|].
  split; [exact L1|]. split; [exact L2|]. split; [exact Bk|]. split; [exact Bv|].
  split.
  { rewrite (GetOffset_spec new m' nk (idx + 1)) by (auto; hlia). f_equal. exact Ho. }
  split.
  { rewrite (GetKey_spec new m' nk idx pos)
      by (auto; try apply Hpos; auto; rewrite ?L1; unfold pos; hlia).
    cbn [option_map]. rewrite L1. f_equal.
    rewrite <- Bk. apply bytes_at_window; reflexivity. }
  { rewrite (GetVal_spec new m' nk idx pos)
      by (auto; try apply Hpos; auto; rewrite ?L1, ?L2; unfold pos; hlia).
    cbn [option_map]. rewrite L1, L2. f_equal.
    rewrite <- Bv. apply bytes_at_window; reflexivity. }
Qed.

(** Appending "b" -> "9" at slot 0 of an empty four-slot page. *)
Lemma NodeAppendKV_spec_witness :
  exists m', NodeAppendKV (page 4096) 0 0 key_b val_9 m_ex4 = Ok tt m' /\
             option_map (bytes_at m') (GetKey (page 4096) 0 m') = Some [98] /\
             option_map (bytes_at m') (GetVal (page 4096) 0 m') = Some [57] /\
             GetOffset (page 4096) 1 m' = Some 6.
Proof.
  destruct (NodeAppendKV_spec (page 4096) 0 0 key_b val_9 m_ex4 4 0)
    as (m' & H & _ & _ & _ & _ & _ & _ & _ & _ & Ho & Hk & Hv).
  - reflexivity.
  - lia.
  - reflexivity.
  - vm_compute; discriminate.
  - vm_compute; discriminate.
  - vm_compute; discriminate.
  - vm_compute; discriminate.
  - left. vm_compute; discriminate.
  - left. vm_compute; discriminate.
  - exists m'. split; [exact H|]. split; [exact Hk|]. split; [exact Hv | exact Ho].
Defined.

(* ================================================================== *)
(** * [NodeAppendRange] *)

Lemma sub16_add16 a b c : sub16 (add16 a b) c = uint16 (a + b - c).
Proof. unfold sub16, add16, uint16. apply Zminus_mod_idemp_l. Qed.

Lemma uint16_idem x : uint16 (uint16 x) = uint16 x.
Proof. unfold uint16. apply Z.mod_mod. lia. Qed.

Lemma oc_NKeys n m0 m a b nk :
  NKeys n m0 = Some nk -> only_changed m0 a b m ->
  lo n + 4 <= a \/ b <= lo n + 2 ->
  NKeys n m = Some nk.
Proof.
  intros Hnk H Ha. rewrite <- Hnk. apply NKeys_ext. intros x Hx. apply H. lia.
Qed.

Lemma oc_load m0 m a b k addr :
  only_changed m0 a b m -> addr + Z.of_nat k <= a \/ b <= addr ->
  load_le k m addr = load_le k m0 addr.
Proof. intros H Ha. apply load_le_ext. intros j Hj. apply H. lia. Qed.

Lemma oc_store_le m0 k a b a' b' m addr v :
  only_changed m0 a b m -> a' <= a -> b <= b' ->
  a' <= addr -> addr + Z.of_nat k <= b' ->
  only_changed m0 a' b' (store_le k m addr v).
Proof.
  intros H Ha Hb H1 H2 x Hx. rewrite store_le_outside by lia. apply H. lia.
Qed.

Section AppendRange.
Variables (new old : BNode) (dst src n nkN nkO : Z) (m0 : mem).
Hypothesis HnkN : NKeys new m0 = Some nkN.
Hypothesis HnkO : NKeys old m0 = Some nkO.
Hypothesis Hdst : 0 <= dst.
Hypothesis Hsrc : 0 <= src.
Hypothesis HsrcN : src + n <= nkO.
Hypothesis HdstN : dst + n <= nkN.
Hypothesis HfitN : HEADER + 10 * nkN <= Z.min (len (Data new)) 65535.
Hypothesis HfitO : HEADER + 10 * nkO <= Z.min (len (Data old)) 65535.
Hypothesis Hsep : separate (Data new) (Data old).

(** *** The pointer loop *)

Lemma ptr_loop_spec k : forall fuel i m,
  Z.of_nat k = n - i -> (k < fuel)%nat -> 0 <= i ->
  only_changed m0 (ptr_addr new dst) (ptr_addr new (dst + i)) m ->
  (forall j, 0 <= j < i ->
     load_le 8 m (ptr_addr new (dst + j)) = load_le 8 m0 (ptr_addr old (src + j))) ->
  exists m', for_loop fuel (fun i => i <? n) (ptr_body new old dst src) i m = Ok tt m' /\
    only_changed m0 (ptr_addr new dst) (ptr_addr new (dst + n)) m' /\
    (forall j, 0 <= j < n ->
       load_le 8 m' (ptr_addr new (dst + j)) = load_le 8 m0 (ptr_addr old (src + j))).
Proof using All.
  pose proof (NKeys_inv _ _ _ HnkN) as (_ & _ & HrN).
  pose proof (NKeys_inv _ _ _ HnkO) as (_ & _ & HrO).
  unfold separate, extent in Hsep.
  induction k as [|k IH]; intros fuel i m Hk Hfuel Hi Hoc Hdone;
    (destruct fuel as [|fuel]; [lia|]); cbn [for_loop].
  - destruct (Z.ltb_spec i n); [lia|]. replace i with n in * by lia.
    exists m. split; [reflexivity|]. split; assumption.
  - destruct (Z.ltb_spec i n); [|lia].
    unfold ptr_addr, HEADER in *.
    assert (HNm : NKeys new m = Some nkN)
      by (apply (oc_NKeys new m0 m _ _ nkN HnkN Hoc); unfold lo; lia).
    assert (HOm : NKeys old m = Some nkO)
      by (apply (oc_NKeys old m0 m _ _ nkO HnkO Hoc); unfold lo; lia).
    unfold ptr_body at 1.
    replace (add16 src i) with (src + i) by u16.
    replace (add16 dst i) with (dst + i) by u16.
    erewrite bind_ok; cycle 1.
    { erewrite bind_lift by (apply (GetPtr_spec old m nkO); auto; unfold HEADER; lia).
      apply (SetPtr_ok new m nkN); auto; unfold HEADER; lia. }
    unfold ptr_addr, HEADER.
    rewrite (oc_load m0 m _ _ _ _ Hoc) by lia.
    replace (add16 i 1) with (i + 1) by u16.
    set (p := load_le 8 m0 (base (Data old) + 4 + 8 * (src + i))).
    apply IH; [lia | lia | lia | |].
    + apply (oc_store_le m0 _ _ _ _ _ _ _ _ Hoc); lia.
    + intros j Hj. destruct (Z.eq_dec j i) as [->|Hne].
      * rewrite load_le_store_le_same. apply Z.mod_small. apply load_le_range.
      * rewrite load_le_store_le_out by lia. apply Hdone. lia.
Qed.

(** *** The offset loop, run on a store [mb] *)

Variables (d0 s0 : Z).

Lemma off_loop_spec k : forall fuel i m,
  Z.of_nat k = n + 1 - i -> (k < fuel)%nat -> 1 <= i ->
  only_changed m0 (ptr_addr new dst) (off_addr new nkN (dst + i)) m ->
  (forall j, 1 <= j < i ->
     load_le 2 m (off_addr new nkN (dst + j)) =
     uint16 (d0 + load_le 2 m0 (off_addr old nkO (src + j)) - s0)) ->
  exists m', for_loop fuel (fun i => i <=? n) (off_body new old dst src d0 s0) i m = Ok tt m' /\
    (forall x, ~ (off_addr new nkN (dst + i) <= x < off_addr new nkN (dst + n + 1)) ->
       m' x = m x) /\
    (forall j, 1 <= j <= n ->
       load_le 2 m' (off_addr new nkN (dst + j)) =
       uint16 (d0 + load_le 2 m0 (off_addr old nkO (src + j)) - s0)).
Proof using All.
  pose proof (NKeys_inv _ _ _ HnkN) as (_ & _ & HrN).
  pose proof (NKeys_inv _ _ _ HnkO) as (_ & _ & HrO).
  unfold separate, extent in Hsep.
  induction k as [|k IH]; intros fuel i m Hk Hfuel Hi Hoc Hdone;
    (destruct fuel as [|fuel]; [lia|]); cbn [for_loop].
  - destruct (Z.leb_spec i n); [lia|]. replace i with (n + 1) in * by lia.
    exists m. split; [reflexivity|]. split; [reflexivity|].
    intros j Hj. apply Hdone. lia.
  - destruct (Z.leb_spec i n); [|lia].
    unfold ptr_addr, off_addr, HEADER in *.
    assert (HNm : NKeys new m = Some nkN)
      by (apply (oc_NKeys new m0 m _ _ nkN HnkN Hoc); unfold lo; lia).
    assert (HOm : NKeys old m = Some nkO)
      by (apply (oc_NKeys old m0 m _ _ nkO HnkO Hoc); unfold lo; lia).
    unfold off_body at 1.
    replace (add16 src i) with (src + i) by u16.
    replace (add16 dst i) with (dst + i) by u16.
    erewrite bind_ok; cycle 1.
    { erewrite bind_lift by (apply (GetOffset_spec old m nkO); auto; unfold HEADER; lia).
      apply (SetOffset_ok new m nkN); auto; unfold HEADER; lia. }
    unfold off_addr, HEADER.
    rewrite (oc_load m0 m _ _ _ _ Hoc) by lia.
    replace (add16 i 1) with (i + 1) by u16.
    set (o := load_le 2 m0 (base (Data old) + 4 + 8 * nkO + 2 * (src + i - 1))).
    set (m1 := store_le 2 m (base (Data new) + 4 + 8 * nkN + 2 * (dst + i - 1))
                        (sub16 (add16 d0 o) s0)).
    destruct (IH fuel (i + 1) m1) as (m' & Hrun & Hout & Hall); [lia | lia | lia | | |].
    + apply (oc_store_le m0 _ _ _ _ _ _ _ _ Hoc); lia.
    + intros j Hj. unfold m1. destruct (Z.eq_dec j i) as [->|Hne].
      * rewrite load_le_store_le_same. change (256 ^ Z.of_nat 2) with 65536.
        fold o. rewrite sub16_add16. apply uint16_idem.
      * rewrite load_le_store_le_out by lia. apply Hdone. lia.
    + exists m'. split; [exact Hrun|]. split; [|exact Hall].
      intros x Hx. rewrite Hout by lia. unfold m1. apply store_le_outside. lia.
Qed.

End AppendRange.

Lemma NodeAppendRange_fields new old dst src n m nkN nkO :
  NKeys new m = Some nkN -> NKeys old m = Some nkO ->
  0 <= dst -> 0 <= src -> 0 <= n ->
  src + n <= nkO -> dst + n <= nkN ->
  (n = 0 -> NodeAppendRange new old dst src n m = Ok tt m) /\
  (0 < n -> forall d0 s0 sn,
     GetOffset new dst m = Some d0 ->
     GetOffset old src m = Some s0 ->
     GetOffset old (src + n) m = Some sn ->
     s0 <= sn ->
     len (Data old) <= cap (Data old) ->
     HEADER + 10 * nkO + sn <= Z.min (len (Data old)) 65535 ->
     HEADER + 10 * nkN + d0 + (sn - s0) <= Z.min (len (Data new)) 65535 ->
     separate (Data new) (Data old) ->
     let posN := HEADER + 10 * nkN + d0 in
     let posO := HEADER + 10 * nkO + s0 in
     exists m',
       NodeAppendRange new old dst src n m = Ok tt m' /\
       NKeys new m' = Some nkN /\
       GetOffset new dst m' = Some d0 /\
       (forall i, 0 <= i < n ->
          exists p, GetPtr old (src + i) m = Some p /\
                    GetPtr new (dst + i) m' = Some p) /\
       (forall i, 1 <= i <= n ->
          exists oi, GetOffset old (src + i) m = Some oi /\
                     GetOffset new (dst + i) m' = Some (uint16 (d0 + (oi - s0)))) /\
       KVPos old src m = Some posO /\
       KVPos new dst m' = Some posN /\
       bytes_at m' (mkSlice (lo new + posN) (sn - s0) (sn - s0)) =
       bytes_at m (mkSlice (lo old + posO) (sn - s0) (sn - s0)) /\
       (forall x,
          ~ (ptr_addr new dst <= x < ptr_addr new (dst + n)) ->
          ~ (off_addr new nkN (dst + 1) <= x < off_addr new nkN (dst + n + 1)) ->
          ~ (lo new + posN <= x < lo new + posN + (sn - s0)) ->
          m' x = m x)).
Proof.
  intros HnkN HnkO Hdst Hsrc Hn HsrcN HdstN.
  pose proof (NKeys_inv _ _ _ HnkN) as (_ & _ & HrN).
  pose proof (NKeys_inv _ _ _ HnkO) as (_ & _ & HrO).
  assert (Hpre : forall k : M unit,
            NodeAppendRange new old dst src n m =
            (if n =? 0 then ret tt else
               for_loop loop_fuel (fun i => i <? n)
                 (fun i => p <- lift (GetPtr old (add16 src i)) ;;
                           SetPtr new (add16 dst i) p) 0 ;;
               dstBegin <- lift (GetOffset new dst) ;;
               srcBegin <- lift (GetOffset old src) ;;
               for_loop loop_fuel (fun i => i <=? n)
                 (fun i => o <- lift (GetOffset old (add16 src i)) ;;
                           SetOffset new (add16 dst i) (sub16 (add16 dstBegin o) srcBegin)) 1 ;;
               begin <- lift (KVPos old src) ;;
               end_ <- lift (KVPos old (add16 src n)) ;;
               pos <- lift (KVPos new dst) ;;
               d <- liftO (slice_from (Data new) pos) ;;
               s <- liftO (slice_range (Data old) begin end_) ;;
               copy d s ;; ret tt) m).
  { intros _. unfold NodeAppendRange.
    erewrite bind_lift by exact HnkO.
    replace (add16 src n) with (src + n) by u16.
    destruct (Z.leb_spec (src + n) nkO); [|hlia].
    unfold AssertM. cbn [Assert]. erewrite bind_liftO by reflexivity.
    erewrite bind_lift by exact HnkN.
    replace (add16 dst n) with (dst + n) by u16.
    destruct (Z.leb_spec (dst + n) nkN); [|hlia].
    cbn [Assert]. erewrite bind_liftO by reflexivity. reflexivity. }
  specialize (Hpre (ret tt)).
  split.
  { intros ->. rewrite Hpre. reflexivity. }
  intros Hn0 d0 s0 sn Hd0 Hs0 Hsn Hmono HcapO HfitO HfitN Hsep posN posO.
  subst posN posO. unfold HEADER in HfitO, HfitN |- *.
  pose proof (GetOffset_range _ _ _ _ Hd0) as Hd0r.
  pose proof (GetOffset_range _ _ _ _ Hs0) as Hs0r.
  pose proof (GetOffset_range _ _ _ _ Hsn) as Hsnr.
  assert (HfN : HEADER + 10 * nkN <= Z.min (len (Data new)) 65535) by hlia.
  assert (HfO : HEADER + 10 * nkO <= Z.min (len (Data old)) 65535) by hlia.
  (* the pointer loop *)
  destruct (ptr_loop_spec new old dst src n nkN nkO m HnkN HnkO Hdst Hsrc HsrcN HdstN
              HfN HfO Hsep (Z.to_nat n) loop_fuel 0 m)
    as (mP & HrunP & HocP & HptrP);
    [hlia | unfold loop_fuel; hlia | hlia | intros x _; reflexivity | intros; hlia |].
  (* the offset loop *)
  assert (HNP : NKeys new mP = Some nkN).
  { apply (oc_NKeys new m mP _ _ nkN HnkN HocP). unfold ptr_addr, lo, HEADER. hlia. }
  assert (HocP' : only_changed m (ptr_addr new dst) (off_addr new nkN (dst + 1)) mP).
  { intros x Hx. apply HocP. unfold ptr_addr, off_addr, HEADER in *. hlia. }
  destruct (off_loop_spec new old dst src n nkN nkO m HnkN HnkO Hdst Hsrc HsrcN HdstN
              HfN HfO Hsep d0 s0 (Z.to_nat n) loop_fuel 1 mP)
    as (mQ & HrunQ & HoutQ & HoffQ);
    [hlia | unfold loop_fuel; hlia | hlia | exact HocP' | intros; hlia |].
  assert (HocQ : only_changed m (ptr_addr new dst) (off_addr new nkN (dst + n + 1)) mQ).
  { intros x Hx. unfold ptr_addr, off_addr, HEADER in *.
    rewrite HoutQ by hlia. apply HocP. hlia. }
  unfold ptr_body in HrunP. unfold off_body in HrunQ.
  set (B := lo new) in *. set (BO := lo old) in *.
  set (s := mkSlice (BO + (4 + 10 * nkO + s0)) (sn - s0) (cap (Data old) - (4 + 10 * nkO + s0))).
  set (m' := store_list mQ (B + (4 + 10 * nkN + d0)) (bytes_at m s)).
  assert (Hoc' : only_changed m (B + 4) (B + (4 + 10 * nkN + d0) + (sn - s0)) m').
  { intros x Hx. unfold m'. rewrite store_list_outside by (rewrite bytes_at_length; unfold s; cbn [len];  hlia).
    apply HocQ. unfold ptr_addr, off_addr, HEADER, B, lo in *. hlia. }
  (* what a store changed only in the destination tables and records reads *)
  assert (F : forall mi, only_changed m (B + 4) (B + (4 + 10 * nkN + d0) + (sn - s0)) mi ->
            NKeys new mi = Some nkN /\ NKeys old mi = Some nkO /\
            (forall t, 0 <= t <= nkO -> GetOffset old t mi = GetOffset old t m) /\
            (forall x, BO <= x < BO + len (Data old) -> mi x = m x)).
  { intros mi Hmi.
    assert (E1 : NKeys new mi = Some nkN)
      by (apply (oc_NKeys new m mi _ _ nkN HnkN Hmi); unfold B, lo; hlia).
    assert (E2 : NKeys old mi = Some nkO)
      by (apply (oc_NKeys old m mi _ _ nkO HnkO Hmi);
          unfold separate, extent, B, lo, HEADER in *; hlia).
    assert (E4 : forall x, BO <= x < BO + len (Data old) -> mi x = m x).
    { intros x Hx. apply Hmi. unfold separate, extent, B, BO, lo, HEADER in *. hlia. }
    split; [exact E1|]. split; [exact E2|]. split; [|exact E4].
    intros t Ht. apply (GetOffset_frame old m mi nkO t); auto; [hlia|].
    intros _. apply load_le_ext. intros j Hj. apply E4.
    unfold off_addr, BO, lo, HEADER in *. hlia. }
  destruct (F mP) as (_ & HOP & HoffOP & _).
  { intros x Hx. apply HocP. unfold ptr_addr, HEADER, B, lo in *. hlia. }
  destruct (F mQ) as (HNQ & HOQ & HoffOQ & HoldQ).
  { intros x Hx. apply HocQ. unfold ptr_addr, off_addr, HEADER, B, lo in *. hlia. }
  destruct (F m' Hoc') as (HN' & HO' & HoffO' & Hold').
  (* the offset of [dst] in the destination is not written *)
  assert (D : forall mi, NKeys new mi = Some nkN ->
            (forall x, 1 <= dst ->
               off_addr new nkN dst <= x < off_addr new nkN dst + 2 -> mi x = m x) ->
            GetOffset new dst mi = Some d0).
  { intros mi Hmi Hs. rewrite <- Hd0.
    apply (GetOffset_frame new m mi nkN dst); auto; [hlia | hlia |].
    intros Hz. apply load_le_ext. intros j Hj. apply Hs; hlia. }
  assert (DP : GetOffset new dst mP = Some d0).
  { apply D; [exact HNP|]. intros x Hd Hx. apply HocP.
    unfold ptr_addr, off_addr, HEADER in *. hlia. }
  assert (DQ : GetOffset new dst mQ = Some d0).
  { apply D; [exact HNQ|]. intros x Hd Hx. rewrite HoutQ by (unfold off_addr in *; hlia).
    apply HocP. unfold ptr_addr, off_addr, HEADER in *. hlia. }
  assert (D' : GetOffset new dst m' = Some d0).
  { apply D; [exact HN'|]. intros x Hd Hx. unfold m'.
    rewrite store_list_outside
      by (unfold off_addr, HEADER, B, lo in *; hlia).
    rewrite HoutQ by (unfold off_addr in *; hlia).
    apply HocP. unfold ptr_addr, off_addr, HEADER in *. hlia. }
  assert (KO : forall mi t o, NKeys old mi = Some nkO -> 0 <= t <= nkO ->
            GetOffset old t mi = Some o -> HEADER + 10 * nkO + o < 65536 ->
            KVPos old t mi = Some (HEADER + 10 * nkO + o)).
  { intros mi t o H1 H2 H3 H4. rewrite (KVPos_spec old mi nkO t o) by auto.
    pose proof (GetOffset_range _ _ _ _ H3). f_equal. apply uint16_small.
    hlia. }
  assert (KN : forall mi, NKeys new mi = Some nkN -> GetOffset new dst mi = Some d0 ->
            KVPos new dst mi = Some (4 + 10 * nkN + d0)).
  { intros mi H1 H2. rewrite (KVPos_spec new mi nkN dst d0) by (auto; hlia).
    f_equal. apply uint16_small. hlia. }
  exists m'. split.
  { rewrite Hpre. destruct (Z.eqb_spec n 0); [hlia|].
    erewrite bind_ok by exact HrunP.
    erewrite bind_lift by exact DP.
    erewrite bind_lift by (rewrite HoffOP by hlia; exact Hs0).
    erewrite bind_ok by exact HrunQ.
    erewrite bind_lift
      by (apply (KO mQ src s0); auto; [hlia | rewrite HoffOQ by hlia; exact Hs0 | hlia]).
    replace (add16 src n) with (src + n) by u16.
    erewrite bind_lift
      by (apply (KO mQ (src + n) sn); auto; [hlia | rewrite HoffOQ by hlia; exact Hsn | hlia]).
    erewrite bind_lift by (apply KN; assumption).
    erewrite bind_liftO by (apply slice_from_some; hlia).
    erewrite bind_liftO by (apply slice_range_some; hlia).
    erewrite bind_ok; cycle 1.
    { apply copy_ok. cbn [len]. hlia. }
    unfold ret. f_equal. cbn [base]. unfold m'. fold B. f_equal.
    replace (HEADER + 10 * nkO + sn - (HEADER + 10 * nkO + s0)) with (sn - s0) by hlia.
    fold BO.
    apply bytes_at_ext. intros x Hx. apply HoldQ.
    unfold s in Hx. cbn [base len] in Hx. hlia. }
  split; [exact HN'|]. split; [exact D'|]. split.
  { intros i Hi. exists (load_le 8 m (ptr_addr old (src + i))). split.
    - apply (GetPtr_spec old m nkO); auto; hlia.
    - rewrite (GetPtr_spec new m' nkN) by (auto; hlia).
      f_equal. rewrite <- HptrP by hlia.
      apply load_le_ext. intros j Hj. unfold m'.
      rewrite store_list_outside
        by (unfold ptr_addr, HEADER, B, lo in *; hlia).
      apply HoutQ. unfold ptr_addr, off_addr, HEADER in *. hlia. }
  split.
  { intros i Hi. exists (load_le 2 m (off_addr old nkO (src + i))). split.
    - apply (GetOffset_spec old m nkO); auto; hlia.
    - rewrite (GetOffset_spec new m' nkN) by (auto; hlia).
      f_equal. replace (d0 + (load_le 2 m (off_addr old nkO (src + i)) - s0))
        with (d0 + load_le 2 m (off_addr old nkO (src + i)) - s0) by hlia.
      rewrite <- HoffQ by hlia.
      apply load_le_ext. intros j Hj. unfold m'.
      apply store_list_outside. unfold off_addr, HEADER, B, lo in *. hlia. }
  split; [apply (KO m src s0); auto; hlia|].
  split; [apply KN; assumption|].
  split.
  { unfold m'. rewrite bytes_at_store_list
      by (cbn [base len]; rewrite ?bytes_at_length; unfold s; cbn [len]; hlia).
    rewrite map_mod_bytes_at. apply bytes_at_window; reflexivity. }
  intros x H1 H2 H3. unfold m'.
  rewrite store_list_outside by (rewrite bytes_at_length; unfold s; cbn [len]; hlia).
  rewrite HoutQ by hlia. apply HocP. exact H1.
Qed.

Lemma load_le_loads k : forall m m' a a',
  (forall t, 0 <= t < Z.of_nat k -> load m' (a' + t) = load m (a + t)) ->
  load_le k m' a' = load_le k m a.
Proof.
  induction k as [|k IH]; intros m m' a a' H; [reflexivity|].
  cbn [load_le]. f_equal.
  - specialize (H 0). rewrite !Z.add_0_r in H. apply H. lia.
  - f_equal. apply IH. intros t Ht.
    replace (a' + 1 + t) with (a' + (1 + t)) by lia.
    replace (a + 1 + t) with (a + (1 + t)) by lia. apply H. lia.
Qed.

Lemma bytes_at_loads m m' s s' :
  len s' = len s ->
  (forall t, 0 <= t < len s -> load m' (base s' + t) = load m (base s + t)) ->
  bytes_at m' s' = bytes_at m s.
Proof.
  intros Hl H. unfold bytes_at. rewrite Hl. apply map_ext_in. intros i Hi.
  apply in_seq in Hi. apply H. lia.
Qed.

(** A record copied byte for byte decodes to the same key and value. *)
Lemma record_copy new old m m' nkN nkO idxN idxO pN pO :
  NKeys old m = Some nkO -> NKeys new m' = Some nkN ->
  0 <= idxO <= nkO -> 0 <= idxN <= nkN ->
  KVPos old idxO m = Some pO -> KVPos new idxN m' = Some pN ->
  0 <= pO -> 0 <= pN ->
  len (Data old) <= cap (Data old) -> len (Data new) <= cap (Data new) ->
  pO + rec_len old m pO <= Z.min (len (Data old)) 65535 ->
  pN + rec_len old m pO <= Z.min (len (Data new)) 65535 ->
  (forall t, 0 <= t < rec_len old m pO ->
     load m' (lo new + pN + t) = load m (lo old + pO + t)) ->
  exists ks vs ks' vs',
    GetKey old idxO m = Some ks /\ GetVal old idxO m = Some vs /\
    GetKey new idxN m' = Some ks' /\ GetVal new idxN m' = Some vs' /\
    bytes_at m' ks' = bytes_at m ks /\ bytes_at m' vs' = bytes_at m vs.
Proof.
  intros HnkO HnkN HiO HiN HpO HpN HpO0 HpN0 HcO HcN HfO HfN Hcopy.
  unfold rec_len in *.
  pose proof (load_le_2_range m (lo old + pO)) as Hk.
  pose proof (load_le_2_range m (lo old + pO + 2)) as Hv.
  assert (Ek : load_le 2 m' (lo new + pN) = load_le 2 m (lo old + pO)).
  { apply load_le_loads. intros t Ht. apply Hcopy. lia. }
  assert (Ev : load_le 2 m' (lo new + pN + 2) = load_le 2 m (lo old + pO + 2)).
  { apply load_le_loads. intros t Ht.
    replace (lo new + pN + 2 + t) with (lo new + pN + (2 + t)) by lia.
    replace (lo old + pO + 2 + t) with (lo old + pO + (2 + t)) by lia.
    apply Hcopy. lia. }
  eexists _, _, _, _.
  split; [apply (GetKey_spec old m nkO idxO pO); auto; lia|].
  split; [apply (GetVal_spec old m nkO idxO pO); auto; lia|].
  split; [apply (GetKey_spec new m' nkN idxN pN); auto; rewrite ?Ek; lia|].
  split; [apply (GetVal_spec new m' nkN idxN pN); auto; rewrite ?Ek, ?Ev; lia|].
  split; apply bytes_at_loads; cbn [base len]; rewrite ?Ek, ?Ev; try reflexivity;
    intros t Ht.
  - replace (lo new + pN + 4 + t) with (lo new + pN + (4 + t)) by lia.
    replace (lo old + pO + 4 + t) with (lo old + pO + (4 + t)) by lia.
    apply Hcopy. lia.
  - set (kl := load_le 2 m (lo old + pO)) in *.
    replace (lo new + pN + 4 + kl + t) with (lo new + pN + (4 + kl + t)) by lia.
    replace (lo old + pO + 4 + kl + t) with (lo old + pO + (4 + kl + t)) by lia.
    apply Hcopy. lia.
Qed.

Lemma bytes_at_eq_loads m m' s s' :
  bytes_at m' s' = bytes_at m s -> len s' = len s ->
  forall t, 0 <= t < len s -> load m' (base s' + t) = load m (base s + t).
Proof.
  intros H Hl t Ht.
  pose proof (nth_bytes_at m' s' (Z.to_nat t) ltac:(lia)) as E'.
  pose proof (nth_bytes_at m s (Z.to_nat t) ltac:(lia)) as E.
  rewrite Z2Nat.id in E, E' by lia. rewrite <- E, <- E', H. reflexivity.
Qed.

(** C6, amended: the two range preconditions are not enough, the copied
    block must also fit the destination.  Let the source have [nkO] keys
    and the destination [nkN], with
    [src + n <= nkO] and [dst + n <= nkN].  With [n = 0] the call returns
    and the store is unchanged.  With [n > 0], source offsets [s0 <= sn]
    at [src] and [src + n], destination offset [d0] at [dst], both nodes
    inside their buffers and the 16-bit position range, room for the
    copied block in the destination, and buffers that do not overlap: the
    call returns; the key count and the offset of [dst] are as before;
    pointer [dst+i] is the source's pointer [src+i]; offset [dst+i] is
    [d0 + (offset(src+i) - s0)] in [uint16]; the [sn - s0] record bytes
    from [KVPos(src)] of the source now stand at [KVPos(dst)] of the
    destination; nothing else changed; and every source entry [src+j]
    whose record lies inside the copied block decodes, at [dst+j] of the
    destination, to the same key and value. *)
Theorem NodeAppendRange_spec new old dst src n m nkN nkO :
  NKeys new m = Some nkN -> NKeys old m = Some nkO ->
  0 <= dst -> 0 <= src -> 0 <= n ->
  src + n <= nkO -> dst + n <= nkN ->
  (n = 0 -> NodeAppendRange new old dst src n m = Ok tt m) /\
  (0 < n -> forall d0 s0 sn,
     GetOffset new dst m = Some d0 ->
     GetOffset old src m = Some s0 ->
     GetOffset old (src + n) m = Some sn ->
     s0 <= sn ->
     len (Data old) <= cap (Data old) ->
     len (Data new) <= cap (Data new) ->
     HEADER + 10 * nkO + sn <= Z.min (len (Data old)) 65535 ->
     HEADER + 10 * nkN + d0 + (sn - s0) <= Z.min (len (Data new)) 65535 ->
     separate (Data new) (Data old) ->
     let posN := HEADER + 10 * nkN + d0 in
     let posO := HEADER + 10 * nkO + s0 in
     exists m',
       NodeAppendRange new old dst src n m = Ok tt m' /\
       NKeys new m' = Some nkN /\
       GetOffset new dst m' = Some d0 /\
       (forall i, 0 <= i < n ->
          exists p, GetPtr old (src + i) m = Some p /\
                    GetPtr new (dst + i) m' = Some p) /\
       (forall i, 1 <= i <= n ->
          exists oi, GetOffset old (src + i) m = Some oi /\
                     GetOffset new (dst + i) m' = Some (uint16 (d0 + (oi - s0)))) /\
       KVPos old src m = Some posO /\
       KVPos new dst m' = Some posN /\
       bytes_at m' (mkSlice (lo new + posN) (sn - s0) (sn - s0)) =
       bytes_at m (mkSlice (lo old + posO) (sn - s0) (sn - s0)) /\
       (forall x,
          ~ (ptr_addr new dst <= x < ptr_addr new (dst + n)) ->
          ~ (off_addr new nkN (dst + 1) <= x < off_addr new nkN (dst + n + 1)) ->
          ~ (lo new + posN <= x < lo new + posN + (sn - s0)) ->
          m' x = m x) /\
       (forall j oj, 0 <= j < n ->
          GetOffset old (src + j) m = Some oj -> s0 <= oj ->
          oj + rec_len old m (HEADER + 10 * nkO + oj) <= sn ->
          exists ks vs ks' vs',
            GetKey old (src + j) m = Some ks /\ GetVal old (src + j) m = Some vs /\
            GetKey new (dst + j) m' = Some ks' /\ GetVal new (dst + j) m' = Some vs' /\
            bytes_at m' ks' = bytes_at m ks /\ bytes_at m' vs' = bytes_at m vs)).
Proof.
  intros HnkN HnkO Hdst Hsrc Hn HsrcN HdstN.
  destruct (NodeAppendRange_fields new old dst src n m nkN nkO
              HnkN HnkO Hdst Hsrc Hn HsrcN HdstN) as [H0 Hpos].
  split; [exact H0|].
  intros Hn0 d0 s0 sn Hd0 Hs0 Hsn Hmono HcO HcN HfO HfN Hsep posN posO.
  destruct (Hpos Hn0 d0 s0 sn Hd0 Hs0 Hsn Hmono HcO HfO HfN Hsep)
    as (m' & Hrun & HN' & Hd' & Hptr & Hoff & HkO & HkN & Hblk & Hrest).
  fold posN posO in HkO, HkN, Hblk, Hrest.
  exists m'. do 9 (split; [assumption|]).
  intros j oj Hj Hoj Hlo Hrec.
  pose proof (GetOffset_range _ _ _ _ Hd0) as Hd0r.
  pose proof (GetOffset_range _ _ _ _ Hs0) as Hs0r.
  pose proof (GetOffset_range _ _ _ _ Hsn) as Hsnr.
  pose proof (NKeys_inv _ _ _ HnkN) as (_ & _ & HrN).
  pose proof (NKeys_inv _ _ _ HnkO) as (_ & _ & HrO).
  assert (Hrl : 4 <= rec_len old m (HEADER + 10 * nkO + oj)).
  { unfold rec_len.
    pose proof (load_le_2_range m (lo old + (HEADER + 10 * nkO + oj))).
    pose proof (load_le_2_range m (lo old + (HEADER + 10 * nkO + oj) + 2)). lia. }
  assert (HoN : GetOffset new (dst + j) m' = Some (d0 + (oj - s0))).
  { destruct (Z.eq_dec j 0) as [->|Hne].
    - rewrite Z.add_0_r in *. rewrite Hs0 in Hoj. injection Hoj as <-.
      rewrite Hd'. f_equal. lia.
    - destruct (Hoff j ltac:(lia)) as (oi & Hoi & HoiN).
      rewrite Hoj in Hoi. injection Hoi as <-.
      rewrite HoiN. f_equal. apply uint16_small. hlia. }
  apply (record_copy new old m m' nkN nkO (dst + j) (src + j)
           (posN + (oj - s0)) (HEADER + 10 * nkO + oj)); auto; try hlia.
  - rewrite (KVPos_spec old m nkO (src + j) oj) by (auto; lia).
    f_equal. apply uint16_small. hlia.
  - rewrite (KVPos_spec new m' nkN (dst + j) (d0 + (oj - s0))) by (auto; lia).
    f_equal. unfold posN. rewrite uint16_small by hlia. lia.
  - intros t Ht.
    pose proof (bytes_at_eq_loads m m' _ _ Hblk eq_refl (oj - s0 + t)) as E.
    cbn [base len] in E.
    replace (lo new + (posN + (oj - s0)) + t) with (lo new + posN + (oj - s0 + t)) by lia.
    replace (lo old + (HEADER + 10 * nkO + oj) + t) with (lo old + posO + (oj - s0 + t))
      by (unfold posO; lia).
    apply E. lia.
Qed.

(** Copying entries 1 and 2 of the three-entry leaf to slots 1 and 2 of a
    destination whose offset 1 is 8: the source offsets 12 and 18, taken
    relative to 6, land at 14 and 20. *)
Lemma NodeAppendRange_spec_witness :
  exists m' ks',
    NodeAppendRange (page 4096) (page 0) 1 1 2 m_ex4_at8 = Ok tt m' /\
    GetOffset (page 4096) 2 m' = Some 14 /\
    GetOffset (page 4096) 3 m' = Some 20 /\
    GetKey (page 4096) 2 m' = Some ks' /\ bytes_at m' ks' = [101].
Proof.
  destruct (NodeAppendRange_spec (page 4096) (page 0) 1 1 2 m_ex4_at8 4 3)
    as [_ H]; [reflexivity | reflexivity | lia | lia | lia | lia | lia |].
  assert (Hpos : 0 < 2) by lia.
  destruct (H Hpos 8 6 18) as (m' & Hrun & _ & _ & _ & Hoff & _ & _ & _ & _ & Hent).
  - reflexivity.
  - reflexivity.
  - reflexivity.
  - lia.
  - vm_compute; discriminate.
  - vm_compute; discriminate.
  - vm_compute; discriminate.
  - vm_compute; discriminate.
  - right. vm_compute; discriminate.
  - destruct (Hent 1 12) as (ks & vs & ks' & vs' & HkO & _ & HkN & _ & Hbk & _).
    + lia.
    + reflexivity.
    + lia.
    + vm_compute; discriminate.
    + assert (H1 : 1 <= 1 <= 2) by lia.
      assert (H2 : 1 <= 2 <= 2) by lia.
      destruct (Hoff 1 H1) as (o1 & Ho1 & Ho1N).
      destruct (Hoff 2 H2) as (o2 & Ho2 & Ho2N).
      exists m', ks'. split; [exact Hrun|]. split.
      * change (GetOffset (page 4096) 2 m') with (GetOffset (page 4096) (1 + 1) m').
        rewrite Ho1N. vm_compute in Ho1. injection Ho1 as <-. reflexivity.
      * split.
        -- change (GetOffset (page 4096) 3 m') with (GetOffset (page 4096) (1 + 2) m').
           rewrite Ho2N. vm_compute in Ho2. injection Ho2 as <-. reflexivity.
        -- split; [exact HkN|]. rewrite Hbk.
           vm_compute in HkO. injection HkO as <-. reflexivity.
Defined.

(** C6 as stated, with the two range preconditions only, fails:
    [NodeAppendRange] never compares the copied block with the room left
    in the destination.  Copying the three entries of the leaf (18 record
    bytes) to slots 1..3 of a page that declares 8 keys and whose slot 1
    starts at position 4088 satisfies [0 + 3 <= 3] and [1 + 3 <= 8]; the
    call returns, the re-based offsets 4010, 4016 and 4022 are written,
    but [copy] stores only the 8 bytes that reach the end of the page:
    entry 1 arrives, the key of entry 2 is cut after its length field and
    entry 3 is not there at all, so [GetKey] panics at slots 2 and 3. *)
Lemma NodeAppendRange_no_room_check :
  NKeys (page 0) m_tight = Some 3 /\
  NKeys (page 4096) m_tight = Some 8 /\
  0 + 3 <= 3 /\ 1 + 3 <= 8 /\
  KVPos (page 4096) 1 m_tight = Some 4088 /\
  entry (page 0) m_tight 1 = Some ([99], [50]) /\
  entry (page 0) m_tight 2 = Some ([101], [51]) /\
  exists m',
    NodeAppendRange (page 4096) (page 0) 1 0 3 m_tight = Ok tt m' /\
    GetOffset (page 4096) 2 m' = Some 4010 /\
    GetOffset (page 4096) 3 m' = Some 4016 /\
    GetOffset (page 4096) 4 m' = Some 4022 /\
    entry (page 4096) m' 1 = Some ([97], [49]) /\
    GetKey (page 4096) 2 m' = None /\
    GetKey (page 4096) 3 m' = None /\
    bytes_at m' (mkSlice (4096 + 4088) 8 8) = [1; 0; 1; 0; 97; 49; 1; 0].
Proof.
  split; [reflexivity|]. split; [reflexivity|]. split; [lia|]. split; [lia|].
  split; [reflexivity|]. split; [reflexivity|]. split; [reflexivity|].
  eexists. split; [vm_compute; reflexivity|].
  repeat split; vm_compute; reflexivity.
Qed.

(* ================================================================== *)
(** * [LeafInsert] once the key count is in place *)

Lemma rec_len_min n m pos : 4 <= rec_len n m pos.
Proof.
  unfold rec_len.
  pose proof (load_le_2_range m (lo n + pos)).
  pose proof (load_le_2_range m (lo n + pos + 2)). lia.
Qed.

Lemma node_ok_mono n m nk offs :
  node_ok n m nk offs ->
  forall i j, 0 <= i <= j -> j <= nk -> offs i <= offs j.
Proof.
  intros (_ & _ & _ & _ & Hrec & _) i j Hij Hj.
  assert (G : forall d : nat, forall i, 0 <= i -> i + Z.of_nat d <= nk ->
            offs i <= offs (i + Z.of_nat d)).
  { induction d as [|d IH]; intros i0 Hi0 Hd.
    - rewrite Z.add_0_r. lia.
    - specialize (IH i0 Hi0 ltac:(lia)).
      pose proof (Hrec (i0 + Z.of_nat d) ltac:(lia)) as E.
      pose proof (rec_len_min n m (HEADER + 10 * nk + offs (i0 + Z.of_nat d))).
      replace (i0 + Z.of_nat (S d)) with (i0 + Z.of_nat d + 1) by lia. lia. }
  specialize (G (Z.to_nat (j - i)) i ltac:(lia) ltac:(lia)).
  replace (i + Z.of_nat (Z.to_nat (j - i))) with j in G by lia. exact G.
Qed.

(** [NodeAppendRange] for any [n >= 0], in terms of the cells it leaves. *)
Lemma NodeAppendRange_loads new old dst src n m nkN nkO d0 s0 sn :
  NKeys new m = Some nkN -> NKeys old m = Some nkO ->
  0 <= dst -> 0 <= src -> 0 <= n ->
  src + n <= nkO -> dst + n <= nkN ->
  GetOffset new dst m = Some d0 ->
  GetOffset old src m = Some s0 ->
  GetOffset old (src + n) m = Some sn ->
  s0 <= sn ->
  len (Data old) <= cap (Data old) ->
  HEADER + 10 * nkO + sn <= Z.min (len (Data old)) 65535 ->
  HEADER + 10 * nkN + d0 + (sn - s0) <= Z.min (len (Data new)) 65535 ->
  separate (Data new) (Data old) ->
  let posN := HEADER + 10 * nkN + d0 in
  let posO := HEADER + 10 * nkO + s0 in
  exists m',
    NodeAppendRange new old dst src n m = Ok tt m' /\
    (forall i oi, 1 <= i <= n -> GetOffset old (src + i) m = Some oi ->
       load_le 2 m' (off_addr new nkN (dst + i)) = uint16 (d0 + (oi - s0))) /\
    (forall t, 0 <= t < sn - s0 ->
       load m' (lo new + posN + t) = load m (lo old + posO + t)) /\
    (forall x,
       ~ (ptr_addr new dst <= x < ptr_addr new (dst + n)) ->
       ~ (off_addr new nkN (dst + 1) <= x < off_addr new nkN (dst + n + 1)) ->
       ~ (lo new + posN <= x < lo new + posN + (sn - s0)) ->
       m' x = m x).
Proof.
  intros HnkN HnkO Hdst Hsrc Hn HsrcN HdstN Hd0 Hs0 Hsn Hmono HcO HfO HfN Hsep posN posO.
  destruct (NodeAppendRange_fields new old dst src n m nkN nkO
              HnkN HnkO Hdst Hsrc Hn HsrcN HdstN) as [H0 Hpos].
  destruct (Z.eq_dec n 0) as [->|Hne].
  - exists m. split; [apply H0; reflexivity|].
    split; [intros; lia|]. rewrite Z.add_0_r in Hsn. rewrite Hs0 in Hsn.
    injection Hsn as <-. split; [intros; lia | reflexivity].
  - destruct (Hpos ltac:(lia) d0 s0 sn Hd0 Hs0 Hsn Hmono HcO HfO HfN Hsep)
      as (m' & Hrun & HN' & Hd' & Hptr & Hoff & HkO & HkN & Hblk & Hrest).
    fold posN posO in Hblk, Hrest.
    pose proof (NKeys_inv _ _ _ HnkN) as (_ & _ & HrN).
    pose proof (GetOffset_range _ _ _ _ Hd0) as Hd0r.
    exists m'. split; [exact Hrun|]. split; [|split; [|exact Hrest]].
    + intros i oi Hi Hoi. destruct (Hoff i Hi) as (oi' & Hoi' & HoiN).
      rewrite Hoi in Hoi'. injection Hoi' as <-.
      rewrite (GetOffset_spec new m' nkN (dst + i)) in HoiN by (auto; hlia).
      congruence.
    + intros t Ht.
      apply (bytes_at_eq_loads m m' _ _ Hblk eq_refl t). cbn [len]. exact Ht.
Qed.

(** The layout [LeafInsert] produces when the count bytes of the
    destination already hold [old.NKeys() + 1]: the offsets of the source
    with those after [idx] shifted by the size of the new record, every
    record of the source copied with its length fields, and nothing
    written outside the destination buffer. *)
Lemma LeafInsert_layout new old idx key val m nkO offs :
  node_ok old m nkO offs ->
  NKeys new m = Some (nkO + 1) ->
  0 <= idx <= nkO -> 0 <= len key -> 0 <= len val ->
  len (Data new) <= cap (Data new) ->
  HEADER + 10 * (nkO + 1) + offs nkO + 4 + len key + len val
    <= Z.min (len (Data new)) 65535 ->
  separate (Data new) (Data old) ->
  separate (Data new) key -> separate (Data new) val ->
  exists m',
    LeafInsert new old idx key val m = Ok tt m' /\
    NKeys new m' = Some (nkO + 1) /\
    BType new m' = Some (nkO + 1) /\
    (forall j, 0 <= j <= nkO + 1 ->
       GetOffset new j m' = Some (ins_offs offs idx (4 + len key + len val) j)) /\
    (forall j jN, 0 <= j < nkO ->
       jN = (if j <? idx then j else j + 1) ->
       entry new m' jN = entry old m j /\ entry old m j <> None /\
       rec_len new m' (HEADER + 10 * (nkO + 1) +
                       ins_offs offs idx (4 + len key + len val) jN) =
       rec_len old m (HEADER + 10 * nkO + offs j)) /\
    entry new m' idx = Some (bytes_at m key, bytes_at m val) /\
    rec_len new m' (HEADER + 10 * (nkO + 1) + offs idx) = 4 + len key + len val /\
    (forall x, ~ (lo new <= x < lo new + len (Data new)) -> m' x = m x).
Proof.
  intros Hok HnkN Hidx Hlk Hlv HcN HfN Hsep Hsk Hsv.
  pose proof (node_ok_mono _ _ _ _ Hok) as Hmono.
  destruct Hok as (HnkO & HcO & Ho0 & Hoffs & Hrec & HfO).
  pose proof (NKeys_inv _ _ _ HnkO) as (_ & _ & HrO).
  pose proof (Hmono 0 idx ltac:(lia) ltac:(lia)) as Hm0.
  pose proof (Hmono idx nkO ltac:(lia) ltac:(lia)) as Hm1.
  (* stores that differ from [m] only inside the destination buffer read
     the source, the key and the value as [m] does *)
  assert (Out : forall mi,
            (forall x, ~ (lo new <= x < lo new + len (Data new)) -> mi x = m x) ->
            NKeys old mi = Some nkO /\
            (forall j, 0 <= j <= nkO -> GetOffset old j mi = Some (offs j)) /\
            (forall a, lo old <= a < lo old + len (Data old) -> load mi a = load m a) /\
            bytes_at mi key = bytes_at m key /\ bytes_at mi val = bytes_at m val).
  { intros mi Hmi.
    assert (E : forall x, lo old <= x < lo old + len (Data old) -> mi x = m x)
      by (intros x Hx; apply Hmi; fr_lia).
    assert (E1 : NKeys old mi = Some nkO).
    { rewrite <- HnkO. apply NKeys_ext. intros x Hx. apply E. hlia. }
    split; [exact E1|]. split.
    { intros j Hj. rewrite <- (Hoffs j Hj).
      apply (GetOffset_frame old m mi nkO j); auto; [hlia|].
      intros _. apply load_le_ext. intros t Ht. apply E. fr_lia. }
    split; [intros a Ha; unfold load; rewrite E by exact Ha; reflexivity|].
    split; apply bytes_at_ext; intros x Hx; apply Hmi; fr_lia. }
  (* 1. the header *)
  set (m1 := store_le 2 (store_le 2 m (lo new) BNODE_BLEAF) (lo new) (add16 nkO 1)).
  assert (Fr1 : forall x, ~ (lo new <= x < lo new + 2) -> m1 x = m x).
  { intros x Hx. unfold m1. rewrite !store_le_outside by lia. reflexivity. }
  assert (T1 : load_le 2 m1 (lo new) = (nkO + 1)).
  { unfold m1. rewrite load_le_store_le_same. change (256 ^ Z.of_nat 2) with 65536.
    unfold HEADER in *. u16. }
  assert (N1 : NKeys new m1 = Some (nkO + 1)).
  { rewrite <- HnkN. apply NKeys_ext. intros x Hx. apply Fr1. lia. }
  destruct (Out m1) as (O1 & Off1 & Ld1 & Kk1 & Kv1);
    [intros x Hx; apply Fr1; hlia|].
  (* 2. the entries before [idx] *)
  destruct (NodeAppendRange_loads new old 0 0 idx m1 (nkO + 1) nkO 0 0 (offs idx))
    as (m2 & Run2 & AOff & ABlk & AFr);
    [ first [ assumption | reflexivity | hlia
            | rewrite Z.add_0_l; apply Off1; lia ] .. |].
  assert (Fr2 : forall x, ~ (lo new + 4 <= x < lo new + HEADER + 10 * (nkO + 1) + offs idx) ->
                          m2 x = m1 x)
    by (intros x Hx; apply AFr; fr_lia).
  assert (N2 : NKeys new m2 = Some (nkO + 1)).
  { rewrite <- N1. apply NKeys_ext. intros x Hx. apply Fr2. hlia. }
  destruct (Out m2) as (O2 & Off2 & Ld2 & Kk2 & Kv2);
    [intros x Hx; rewrite Fr2 by hlia; apply Fr1; hlia|].
  assert (S2 : forall j, 1 <= j <= idx -> load_le 2 m2 (off_addr new (nkO + 1) j) = offs j).
  { intros j Hj. pose proof (AOff j (offs j) Hj) as E.
    change (0 + j) with j in E. rewrite E by (apply Off1; lia).
    pose proof (Hmono 0 j ltac:(lia) ltac:(lia)). pose proof (Hmono j idx ltac:(lia) ltac:(lia)).
    replace (0 + (offs j - 0)) with (offs j) by lia.
    apply uint16_small. hlia. }
  assert (G2 : GetOffset new idx m2 = Some (offs idx)).
  { destruct (Z.eq_dec idx 0) as [->|Hne]; [rewrite Ho0; reflexivity|].
    rewrite (GetOffset_spec new m2 (nkO + 1) idx) by (auto; hlia).
    f_equal. apply S2. lia. }
  (* 3. the new entry *)
  destruct (NodeAppendKV_run new idx 0 key val m2 (nkO + 1) (offs idx))
    as (m3 & Run3 & N3 & _ & L1 & L2 & Bk & Bv & BOff & BFr);
    [ first [ assumption | hlia ] .. |].
  rewrite Kk2 in Bk. rewrite Kv2 in Bv.
  assert (Fr3 : forall x, ~ (lo new + 4 <= x < lo new + len (Data new)) -> m3 x = m2 x)
    by (intros x Hx; apply BFr; fr_lia).
  destruct (Out m3) as (O3 & Off3 & Ld3 & _ & _);
    [intros x Hx; rewrite Fr3, Fr2 by hlia; apply Fr1; hlia|].
  assert (G3 : GetOffset new (idx + 1) m3 = Some (offs idx + (4 + len key + len val))).
  { rewrite (GetOffset_spec new m3 (nkO + 1) (idx + 1)) by (auto; hlia).
    f_equal. rewrite BOff. lia. }
  (* 4. the entries from [idx] on *)
  destruct (NodeAppendRange_loads new old (idx + 1) idx (nkO - idx) m3 (nkO + 1) nkO
              (offs idx + (4 + len key + len val)) (offs idx) (offs nkO))
    as (m4 & Run4 & COff & CBlk & CFr);
    [ first [ assumption | hlia | apply Off3; lia
            | replace (idx + (nkO - idx)) with nkO by lia; apply Off3; lia ] .. |].
  assert (Fr4 : forall x, ~ (lo new + 4 <= x < lo new + len (Data new)) -> m4 x = m3 x)
    by (intros x Hx; apply CFr; fr_lia).
  assert (N4 : NKeys new m4 = Some (nkO + 1)).
  { rewrite <- N3. apply NKeys_ext. intros x Hx. apply Fr4. hlia. }
  exists m4. split.
  { unfold LeafInsert.
    erewrite bind_lift by exact HnkO.
    erewrite bind_ok by (apply SetHeader_spec; hlia). fold m1.
    erewrite bind_ok by exact Run2.
    erewrite bind_ok by exact Run3.
    erewrite bind_lift by exact O3.
    replace (add16 idx 1) with (idx + 1) by (unfold HEADER in *; u16).
    replace (sub16 nkO idx) with (nkO - idx) by u16.
    exact Run4. }
  split; [exact N4|]. split.
  { unfold BType. rewrite Uint16_some by hlia. f_equal. fold (lo new). rewrite <- T1.
    apply load_le_ext. intros t Ht. rewrite Fr4, Fr3, Fr2 by fr_lia. reflexivity. }
  (* the offsets of the new node *)
  assert (SN : forall j, 0 <= j <= (nkO + 1) ->
            GetOffset new j m4 =
            Some (if j <=? idx then offs j else offs (j - 1) + (4 + len key + len val))).
  { intros j Hj. destruct (Z.eq_dec j 0) as [->|Hne].
    - destruct (Z.leb_spec 0 idx); [|lia]. rewrite Ho0. reflexivity.
    - pose proof (Hmono 0 (j - 1) ltac:(lia) ltac:(lia)).
      pose proof (Hmono (j - 1) nkO ltac:(lia) ltac:(lia)).
      rewrite (GetOffset_spec new m4 (nkO + 1) j) by (auto; hlia). f_equal.
      destruct (Z.leb_spec j idx).
      + rewrite <- (S2 j) by lia. apply load_le_ext. intros t Ht.
        rewrite CFr, BFr by fr_lia. reflexivity.
      + destruct (Z.eq_dec j (idx + 1)) as [->|Hne'].
        * replace (idx + 1 - 1) with idx by lia.
          transitivity (load_le 2 m3 (off_addr new (nkO + 1) (idx + 1)));
            [|rewrite BOff; lia].
          apply load_le_ext. intros t Ht. apply CFr; fr_lia.
        * pose proof (COff (j - (idx + 1)) (offs (j - 1)) ltac:(lia)) as E.
          replace (idx + 1 + (j - (idx + 1))) with j in E by lia.
          replace (idx + (j - (idx + 1))) with (j - 1) in E by lia.
          rewrite E by (apply Off3; lia).
          replace (offs idx + (4 + len key + len val) + (offs (j - 1) - offs idx))
            with (offs (j - 1) + (4 + len key + len val)) by lia.
          apply uint16_small.
          pose proof (Hmono idx (j - 1) ltac:(lia) ltac:(lia)). hlia. }
  (* the record bytes of the new node *)
  assert (P1 : forall t, 0 <= t < offs idx ->
            load m4 (lo new + (HEADER + 10 * (nkO + 1)) + t) =
            load m (lo old + (HEADER + 10 * nkO) + t)).
  { intros t Ht. rewrite <- Ld1 by fr_lia.
    pose proof (ABlk t ltac:(lia)) as E.
    rewrite !Z.add_0_r in E. rewrite <- E.
    unfold load. rewrite CFr, BFr by fr_lia. reflexivity. }
  assert (P2 : forall t, offs idx <= t < offs nkO ->
            load m4 (lo new + (HEADER + 10 * (nkO + 1)) + (4 + len key + len val) + t) =
            load m (lo old + (HEADER + 10 * nkO) + t)).
  { intros t Ht. rewrite <- Ld3 by fr_lia.
    pose proof (CBlk (t - offs idx) ltac:(lia)) as E.
    replace (lo old + (HEADER + 10 * nkO + offs idx) + (t - offs idx))
      with (lo old + (HEADER + 10 * nkO) + t) in E by lia.
    rewrite <- E. f_equal. lia. }
  assert (KO : forall j, 0 <= j <= nkO ->
            KVPos old j m = Some (HEADER + 10 * nkO + offs j)).
  { intros j Hj. rewrite (KVPos_spec old m nkO j (offs j)) by (auto; lia).
    pose proof (Hmono 0 j ltac:(lia) ltac:(lia)). pose proof (Hmono j nkO ltac:(lia) ltac:(lia)).
    f_equal. apply uint16_small. hlia. }
  assert (KN : forall j, 0 <= j <= (nkO + 1) ->
            KVPos new j m4 =
            Some (HEADER + 10 * (nkO + 1) +
                  (if j <=? idx then offs j else offs (j - 1) + (4 + len key + len val)))).
  { intros j Hj. rewrite (KVPos_spec new m4 (nkO + 1) j _ N4 Hj (SN j Hj)).
    f_equal. apply uint16_small.
    destruct (Z.leb_spec j idx).
    - pose proof (Hmono 0 j ltac:(lia) ltac:(lia)).
      pose proof (Hmono j nkO ltac:(lia) ltac:(lia)). hlia.
    - pose proof (Hmono 0 (j - 1) ltac:(lia) ltac:(lia)).
      pose proof (Hmono (j - 1) nkO ltac:(lia) ltac:(lia)). hlia. }
  (* copied entries decode alike *)
  assert (RL : forall pN pO,
            (forall t, 0 <= t < 4 ->
               load m4 (lo new + pN + t) = load m (lo old + pO + t)) ->
            rec_len new m4 pN = rec_len old m pO).
  { intros pN pO LD. unfold rec_len. f_equal; [f_equal|].
    - apply load_le_loads. intros t Ht. apply LD. lia.
    - apply load_le_loads. intros t Ht.
      replace (lo new + pN + 2 + t) with (lo new + pN + (2 + t)) by lia.
      replace (lo old + pO + 2 + t) with (lo old + pO + (2 + t)) by lia.
      apply LD. lia. }
  assert (Copied : forall j jN, 0 <= j < nkO ->
            jN = (if j <? idx then j else j + 1) ->
            entry new m4 jN = entry old m j /\ entry old m j <> None /\
            rec_len new m4 (HEADER + 10 * (nkO + 1) +
                            ins_offs offs idx (4 + len key + len val) jN) =
            rec_len old m (HEADER + 10 * nkO + offs j)).
  { intros j jN Hj ->.
    pose proof (Hrec j Hj) as Hr.
    pose proof (rec_len_min old m (HEADER + 10 * nkO + offs j)) as Hr4.
    pose proof (Hmono 0 j ltac:(lia) ltac:(lia)).
    pose proof (Hmono (j + 1) nkO ltac:(lia) ltac:(lia)).
    destruct (Z.ltb_spec j idx) as [Hlt|Hge].
    - pose proof (Hmono (j + 1) idx ltac:(lia) ltac:(lia)).
      pose proof (KN j ltac:(lia)) as KNj. destruct (Z.leb_spec j idx); [|lia].
      assert (LD : forall t, 0 <= t < rec_len old m (HEADER + 10 * nkO + offs j) ->
                load m4 (lo new + (HEADER + 10 * (nkO + 1) + offs j) + t) =
                load m (lo old + (HEADER + 10 * nkO + offs j) + t)).
      { intros t Ht.
        replace (lo new + (HEADER + 10 * (nkO + 1) + offs j) + t)
          with (lo new + (HEADER + 10 * (nkO + 1)) + (offs j + t)) by lia.
        replace (lo old + (HEADER + 10 * nkO + offs j) + t)
          with (lo old + (HEADER + 10 * nkO) + (offs j + t)) by lia.
        apply P1. lia. }
      destruct (record_copy new old m m4 (nkO + 1) nkO j j
                  (HEADER + 10 * (nkO + 1) + offs j) (HEADER + 10 * nkO + offs j))
        as (ks & vs & ks' & vs' & E1 & E2 & E3 & E4 & E5 & E6);
        auto; try hlia; [apply KO; lia |].
      unfold entry. rewrite E1, E2, E3, E4, E5, E6.
      split; [reflexivity|]. split; [discriminate|].
      unfold ins_offs. destruct (Z.leb_spec j idx); [|lia].
      apply RL. intros t Ht. apply LD. lia.
    - pose proof (Hmono idx j ltac:(lia) ltac:(lia)).
      pose proof (KN (j + 1) ltac:(lia)) as KNj. destruct (Z.leb_spec (j + 1) idx); [lia|].
      replace (j + 1 - 1) with j in KNj by lia.
      assert (LD : forall t, 0 <= t < rec_len old m (HEADER + 10 * nkO + offs j) ->
                load m4 (lo new + (HEADER + 10 * (nkO + 1) +
                                   (offs j + (4 + len key + len val))) + t) =
                load m (lo old + (HEADER + 10 * nkO + offs j) + t)).
      { intros t Ht.
        replace (lo new + (HEADER + 10 * (nkO + 1) + (offs j + (4 + len key + len val))) + t)
          with (lo new + (HEADER + 10 * (nkO + 1)) + (4 + len key + len val) + (offs j + t)) by lia.
        replace (lo old + (HEADER + 10 * nkO + offs j) + t)
          with (lo old + (HEADER + 10 * nkO) + (offs j + t)) by lia.
        apply P2. lia. }
      destruct (record_copy new old m m4 (nkO + 1) nkO (j + 1) j
                  (HEADER + 10 * (nkO + 1) + (offs j + (4 + len key + len val)))
                  (HEADER + 10 * nkO + offs j))
        as (ks & vs & ks' & vs' & E1 & E2 & E3 & E4 & E5 & E6);
        auto; try hlia; [apply KO; lia |].
      unfold entry. rewrite E1, E2, E3, E4, E5, E6.
      split; [reflexivity|]. split; [discriminate|].
      unfold ins_offs. destruct (Z.leb_spec (j + 1) idx); [lia|].
      replace (j + 1 - 1) with j by lia.
      apply RL. intros t Ht. apply LD. lia. }
  split; [exact SN|].
  split; [exact Copied|].
  (* the inserted entry *)
  pose proof (KN idx ltac:(lia)) as KNi. destruct (Z.leb_spec idx idx); [|lia].
  assert (L1' : load_le 2 m4 (lo new + (HEADER + 10 * (nkO + 1) + offs idx)) = len key).
  { rewrite <- L1. apply load_le_ext. intros t Ht. apply CFr; fr_lia. }
  assert (L2' : load_le 2 m4 (lo new + (HEADER + 10 * (nkO + 1) + offs idx) + 2) = len val).
  { rewrite <- L2. apply load_le_ext. intros t Ht. apply CFr; fr_lia. }
  split.
  { unfold entry.
    rewrite (GetKey_spec new m4 (nkO + 1) idx (HEADER + 10 * (nkO + 1) + offs idx))
      by (auto; rewrite ?L1'; hlia).
    rewrite (GetVal_spec new m4 (nkO + 1) idx (HEADER + 10 * (nkO + 1) + offs idx))
      by (auto; rewrite ?L1', ?L2'; hlia).
    rewrite L1', L2'. f_equal. f_equal.
    - rewrite <- Bk. apply bytes_at_loads; [reflexivity|]. cbn [base len].
      intros t Ht. unfold load. rewrite CFr by fr_lia. reflexivity.
    - rewrite <- Bv. apply bytes_at_loads; [reflexivity|]. cbn [base len].
      intros t Ht. unfold load. rewrite CFr by fr_lia. reflexivity. }
  split.
  { unfold rec_len. rewrite L1', L2'. lia. }
  intros x Hx. rewrite Fr4, Fr3, Fr2 by hlia. apply Fr1. hlia.
Qed.

(** With the count bytes of the destination already holding
    [old.NKeys() + 1], [LeafInsert] builds the leaf the insertion calls
    for; only the type field is wrong. *)
Lemma LeafInsert_when_count_set new old idx key val m nkO offs :
  node_ok old m nkO offs ->
  NKeys new m = Some (nkO + 1) ->
  0 <= idx <= nkO -> 0 <= len key -> 0 <= len val ->
  len (Data new) <= cap (Data new) ->
  HEADER + 10 * (nkO + 1) + offs nkO + 4 + len key + len val
    <= Z.min (len (Data new)) 65535 ->
  separate (Data new) (Data old) ->
  separate (Data new) key -> separate (Data new) val ->
  exists m',
    LeafInsert new old idx key val m = Ok tt m' /\
    NKeys new m' = Some (nkO + 1) /\
    BType new m' = Some (nkO + 1) /\
    (forall j, 0 <= j < nkO -> entry old m j <> None) /\
    (forall j, 0 <= j < idx -> entry new m' j = entry old m j) /\
    entry new m' idx = Some (bytes_at m key, bytes_at m val) /\
    (forall j, idx <= j < nkO -> entry new m' (j + 1) = entry old m j).
Proof.
  intros Hok HnkN Hidx Hlk Hlv HcN HfN Hsep Hsk Hsv.
  destruct (LeafInsert_layout new old idx key val m nkO offs)
    as (m' & Run & N & T & _ & Copied & Ins & _); try assumption.
  exists m'. split; [exact Run|]. split; [exact N|]. split; [exact T|].
  split; [intros j Hj; apply (Copied j _ Hj eq_refl)|].
  split.
  { intros j Hj. destruct (Copied j j ltac:(lia)) as [E _]; [|exact E].
    destruct (Z.ltb_spec j idx); [reflexivity|lia]. }
  split; [exact Ins|].
  intros j Hj. destruct (Copied j (j + 1) ltac:(lia)) as [E _]; [|exact E].
  destruct (Z.ltb_spec j idx); [lia|reflexivity].
Qed.

(** The three-entry leaf is laid out as [node_ok] asks, with offsets
    0, 6, 12, 18. *)
Lemma leaf3_ok : node_ok (page 0) m_ex4 3 (fun j => 6 * j).
Proof.
  split; [reflexivity|]. split; [vm_compute; discriminate|]. split; [reflexivity|].
  split; [|split; [|vm_compute; discriminate]].
  - intros j Hj. assert (Hc : j = 0 \/ j = 1 \/ j = 2 \/ j = 3) by lia.
    destruct Hc as [-> | [-> | [-> | ->]]]; reflexivity.
  - intros j Hj. assert (Hc : j = 0 \/ j = 1 \/ j = 2) by lia.
    destruct Hc as [-> | [-> | ->]]; reflexivity.
Qed.

Example LeafInsert_when_count_set_leaf3 :
  exists m', LeafInsert (page 4096) (page 0) 1 key_b val_9 m_ex4 = Ok tt m' /\
             entry (page 4096) m' 0 = Some ([97], [49]) /\
             entry (page 4096) m' 1 = Some ([98], [57]) /\
             entry (page 4096) m' 2 = Some ([99], [50]) /\
             entry (page 4096) m' 3 = Some ([101], [51]).
Proof.
  destruct (LeafInsert_when_count_set (page 4096) (page 0) 1 key_b val_9 m_ex4 3
              (fun j => 6 * j) leaf3_ok)
    as (m' & Hrun & _ & _ & _ & Hlo & Hat & Hhi);
    [ reflexivity | lia | vm_compute; discriminate | vm_compute; discriminate
    | vm_compute; discriminate | vm_compute; discriminate
    | right; vm_compute; discriminate | left; vm_compute; discriminate
    | left; vm_compute; discriminate | ].
  exists m'. split; [exact Hrun|].
  split; [exact (Hlo 0 ltac:(lia))|].
  split; [exact Hat|].
  split; [exact (Hhi 1 ltac:(lia)) | exact (Hhi 2 ltac:(lia))].
Qed.

(* ================================================================== *)
(** * Pointer and offset slots: what is written is read back *)

(** Position of pointer slot [idx] as the code computes it: never inside
    the header, whatever the index. *)
Lemma ptr_pos_header idx : 4 <= add16 HEADER (mul16 8 idx) < 65536.
Proof. unfold HEADER. u16. Qed.

Lemma ptr_pos_small idx :
  0 <= idx < 8192 -> add16 HEADER (mul16 8 idx) = 4 + 8 * idx.
Proof. unfold HEADER. intros. u16. Qed.

(** What a successful [SetPtr] is. *)
Lemma SetPtr_inv n idx v m m' :
  SetPtr n idx v m = Ok tt m' ->
  exists nk, NKeys n m = Some nk /\ idx < nk /\
    let pos := add16 HEADER (mul16 8 idx) in
    pos + 8 <= len (Data n) /\
    m' = store_le 8 m (lo n + pos) v.
Proof.
  unfold SetPtr, bind, lift, liftO, AssertM.
  destruct (NKeys n m) as [nk|]; [|discriminate].
  destruct (Z.ltb_spec idx nk); cbn [Assert]; [|discriminate].
  unfold slice_from, PutUint64.
  destruct ((0 <=? add16 HEADER (mul16 8 idx)) &&
            (add16 HEADER (mul16 8 idx) <=? len (Data n))); [|discriminate].
  cbn [base len].
  destruct (Z.leb_spec 8 (len (Data n) - add16 HEADER (mul16 8 idx))); [|discriminate].
  intros E. injection E as <-. exists nk. repeat split; auto. lia.
Qed.

(** X1: whenever [SetPtr(idx, v)] returns, [GetPtr(idx)] reads [v] back
    (as a [uint64]); the key count, the type and every cell outside the
    eight bytes of the slot are unchanged, and so is every other pointer
    (indices below 8192, where slot positions do not wrap). *)
Theorem SetPtr_GetPtr n idx v m m' :
  SetPtr n idx v m = Ok tt m' ->
  GetPtr n idx m' = Some (uint64 v) /\
  NKeys n m' = NKeys n m /\
  BType n m' = BType n m /\
  (forall x, ~ (lo n + add16 HEADER (mul16 8 idx) <= x
                < lo n + add16 HEADER (mul16 8 idx) + 8) -> m' x = m x) /\
  (forall j, 0 <= idx < 8192 -> 0 <= j < 8192 -> j <> idx ->
     GetPtr n j m' = GetPtr n j m).
Proof.
  intros H. destruct (SetPtr_inv _ _ _ _ _ H) as (nk & Hnk & Hlt & Hfit & ->).
  pose proof (ptr_pos_header idx) as Hp.
  set (pos := add16 HEADER (mul16 8 idx)) in *.
  assert (HN : NKeys n (store_le 8 m (lo n + pos) v) = NKeys n m).
  { apply NKeys_ext. intros x Hx. apply store_le_outside. lia. }
  split.
  { unfold GetPtr. rewrite HN, Hnk. destruct (Z.ltb_spec idx nk); [|lia]. cbn [Assert].
    fold pos. rewrite slice_from_some by lia. rewrite Uint64_some by (cbn [len]; lia).
    cbn [base]. fold (lo n). rewrite load_le_store_le_same. reflexivity. }
  split; [exact HN|]. split.
  { unfold BType, Uint16. destruct (2 <=? len (Data n)); [|reflexivity].
    f_equal. apply load_le_ext. intros t Ht. apply store_le_outside.
    fold (lo n). change (Z.of_nat 2) with 2 in Ht. lia. }
  split.
  { intros x Hx. apply store_le_outside. change (Z.of_nat 8) with 8. lia. }
  intros j Hi Hj Hne. unfold GetPtr. rewrite HN.
  destruct (NKeys n m) as [nk'|]; [|reflexivity].
  destruct (Assert (j <? nk')); [|reflexivity].
  destruct (slice_from (Data n) (add16 HEADER (mul16 8 j))) as [b|] eqn:Hb; [|reflexivity].
  unfold Uint64. destruct (Z.leb_spec 8 (len b)); [|reflexivity].
  f_equal. apply load_le_ext. intros t Ht. apply store_le_outside.
  unfold slice_from in Hb.
  destruct ((0 <=? add16 HEADER (mul16 8 j)) && (add16 HEADER (mul16 8 j) <=? len (Data n)));
    [|discriminate].
  injection Hb as <-. cbn [base]. fold (lo n).
  unfold pos. rewrite (ptr_pos_small idx Hi), (ptr_pos_small j Hj).
  change (Z.of_nat 8) with 8 in *. lia.
Qed.

(** Pointer 2 of the three-entry leaf. *)
Lemma SetPtr_GetPtr_witness :
  exists m', SetPtr (page 0) 2 4660 m_ex = Ok tt m' /\
             GetPtr (page 0) 2 m' = Some 4660.
Proof.
  assert (E : SetPtr (page 0) 2 4660 m_ex
              = Ok tt (store_le 8 m_ex (ptr_addr (page 0) 2) 4660))
    by (apply (SetPtr_ok _ _ 3); [reflexivity | lia | vm_compute; discriminate]).
  eexists. split; [exact E|].
  exact (proj1 (SetPtr_GetPtr _ _ _ _ _ E)).
Defined.

(** What a successful [SetOffset] is, on a node whose tables lie below
    2^16. *)
Lemma off_pos_small nk idx :
  0 <= nk -> 1 <= idx <= nk -> HEADER + 8 * nk + 2 * idx <= 65536 ->
  add16 (add16 HEADER (mul16 8 nk)) (mul16 2 (sub16 idx 1)) = 4 + 8 * nk + 2 * (idx - 1).
Proof. unfold HEADER. intros. u16. Qed.

(** X2: on a node of [nk] keys whose tables lie inside the buffer and
    below 2^16, [SetOffset(idx, v)] for [1 <= idx <= nk] returns, after
    which [GetOffset(idx)] is [v] (as a [uint16]) and [KVPos(idx)] is
    [HEADER + 10*nk + v]; the key count, the type, the other offsets and
    record positions, the pointers and every cell outside the two bytes of
    the slot are unchanged. *)
Theorem SetOffset_GetOffset n m nk idx v :
  NKeys n m = Some nk -> 1 <= idx <= nk ->
  HEADER + 10 * nk <= Z.min (len (Data n)) 65535 ->
  exists m',
    SetOffset n idx v m = Ok tt m' /\
    GetOffset n idx m' = Some (uint16 v) /\
    KVPos n idx m' = Some (uint16 (HEADER + 10 * nk + uint16 v)) /\
    NKeys n m' = Some nk /\
    BType n m' = BType n m /\
    (forall j, j <> idx -> GetOffset n j m' = GetOffset n j m) /\
    (forall j, j <> idx -> KVPos n j m' = KVPos n j m) /\
    (forall j, 0 <= j -> GetPtr n j m' = GetPtr n j m) /\
    (forall x, ~ (off_addr n nk idx <= x < off_addr n nk idx + 2) -> m' x = m x).
Proof.
  intros Hnk Hidx Hfit.
  pose proof (NKeys_inv _ _ _ Hnk) as (Hc4 & _ & Hr).
  exists (store_le 2 m (off_addr n nk idx) v).
  set (m' := store_le 2 m (off_addr n nk idx) v).
  assert (Fr : forall x, ~ (off_addr n nk idx <= x < off_addr n nk idx + 2) -> m' x = m x).
  { intros x Hx. apply store_le_outside. change (Z.of_nat 2) with 2. lia. }
  assert (HN : NKeys n m' = Some nk).
  { rewrite <- Hnk. apply NKeys_ext. intros x Hx. apply Fr. fr_lia. }
  assert (HG : GetOffset n idx m' = Some (uint16 v)).
  { rewrite (GetOffset_spec n m' nk idx) by (auto; hlia). f_equal.
    unfold m'. rewrite load_le_store_le_same. reflexivity. }
  assert (HO : forall j, j <> idx -> GetOffset n j m' = GetOffset n j m).
  { intros j Hne. unfold GetOffset. destruct (j =? 0); [reflexivity|].
    unfold OffsetPos. rewrite HN, Hnk.
    destruct (Z.leb_spec 1 j); cbn [andb Assert]; [|reflexivity].
    destruct (Z.leb_spec j nk); cbn [Assert]; [|reflexivity].
    rewrite off_pos_small by hlia.
    rewrite slice_from_some by hlia. rewrite !Uint16_some by (cbn [len]; hlia).
    cbn [base]. f_equal. apply load_le_ext. intros t Ht. apply Fr.
    change (Z.of_nat 2) with 2 in Ht. fr_lia. }
  split; [apply (SetOffset_ok n m nk idx); auto; hlia|].
  split; [exact HG|]. split; [apply KVPos_spec; auto; lia|].
  split; [exact HN|]. split.
  { unfold BType. rewrite !Uint16_some by hlia. f_equal.
    apply load_le_ext. intros t Ht. apply Fr. change (Z.of_nat 2) with 2 in Ht. fr_lia. }
  split; [exact HO|]. split.
  { intros j Hne. unfold KVPos. rewrite HN, Hnk, (HO j Hne). reflexivity. }
  split; [|exact Fr].
  intros j Hj. unfold GetPtr. rewrite HN, Hnk.
  destruct (Z.ltb_spec j nk); cbn [Assert]; [|reflexivity].
  destruct (slice_from (Data n) (add16 HEADER (mul16 8 j))) as [b|] eqn:Hb; [|reflexivity].
  unfold Uint64. destruct (Z.leb_spec 8 (len b)); [|reflexivity].
  f_equal. apply load_le_ext. intros t Ht. apply Fr.
  change (Z.of_nat 8) with 8 in Ht.
  unfold slice_from in Hb.
  destruct ((0 <=? add16 HEADER (mul16 8 j)) && (add16 HEADER (mul16 8 j) <=? len (Data n)));
    [|discriminate].
  injection Hb as <-. cbn [base len] in *.
  rewrite ptr_pos_small by hlia. fr_lia.
Qed.

(** Offset 2 of the three-entry leaf. *)
Lemma SetOffset_GetOffset_witness :
  exists m', SetOffset (page 0) 2 40 m_ex = Ok tt m' /\
             GetOffset (page 0) 2 m' = Some 40 /\
             KVPos (page 0) 2 m' = Some 74.
Proof.
  destruct (SetOffset_GetOffset (page 0) m_ex 3 2 40)
    as (m' & H1 & H2 & H3 & _);
    [reflexivity | lia | vm_compute; discriminate |].
  exists m'. split; [exact H1|]. split; [exact H2 | exact H3].
Defined.

(* ================================================================== *)
(** * Index checks *)

(** X3: with [nk] the key count, [GetPtr] and [SetPtr] panic for
    [idx >= nk]; [OffsetPos] and [SetOffset] panic for [idx = 0] and for
    [idx > nk]; [GetOffset], [KVPos], [GetKey] and [GetVal] panic for
    [idx > nk].  A setter that panics on its index has written nothing. *)
Theorem index_checks n m nk idx :
  NKeys n m = Some nk ->
  (nk <= idx ->
     GetPtr n idx m = None /\ forall v, SetPtr n idx v m = Panic m) /\
  (idx < 1 \/ nk < idx ->
     OffsetPos n idx m = None /\ forall v, SetOffset n idx v m = Panic m) /\
  (nk < idx ->
     GetOffset n idx m = None /\ KVPos n idx m = None /\
     GetKey n idx m = None /\ GetVal n idx m = None).
Proof.
  intros Hnk. pose proof (NKeys_inv _ _ _ Hnk) as (_ & _ & Hr).
  split; [|split].
  - intros Hi. split.
    + unfold GetPtr. rewrite Hnk. destruct (Z.ltb_spec idx nk); [lia|reflexivity].
    + intros v. unfold SetPtr. erewrite bind_lift by exact Hnk.
      destruct (Z.ltb_spec idx nk); [lia|reflexivity].
  - intros Hi.
    assert (E : OffsetPos n idx m = None).
    { unfold OffsetPos. rewrite Hnk.
      destruct (Z.leb_spec 1 idx), (Z.leb_spec idx nk); try lia; reflexivity. }
    split; [exact E|]. intros v. unfold SetOffset, bind, lift, liftO.
    rewrite E. reflexivity.
  - intros Hi.
    assert (E : GetOffset n idx m = None).
    { unfold GetOffset, OffsetPos. destruct (Z.eqb_spec idx 0); [lia|]. rewrite Hnk.
      destruct (Z.leb_spec 1 idx), (Z.leb_spec idx nk); try lia; reflexivity. }
    split; [exact E|].
    unfold KVPos, GetKey, GetVal. rewrite Hnk.
    destruct (Z.leb_spec idx nk); [lia|]. repeat split; reflexivity.
Qed.

(** On the three-entry leaf. *)
Lemma index_checks_witness :
  GetPtr (page 0) 3 m_ex = None /\ SetOffset (page 0) 0 7 m_ex = Panic m_ex /\
  GetKey (page 0) 4 m_ex = None.
Proof.
  destruct (index_checks (page 0) m_ex 3 3 eq_refl) as (H1 & _ & _).
  destruct (index_checks (page 0) m_ex 3 0 eq_refl) as (_ & H2 & _).
  destruct (index_checks (page 0) m_ex 3 4 eq_refl) as (_ & _ & H3).
  split; [apply H1; lia|]. split; [apply H2; lia | apply H3; lia].
Defined.

(** ** The windows returned by [GetKey] and [GetVal] *)

Lemma slice_from_inv s p b :
  slice_from s p = Some b ->
  0 <= p <= len s /\ b = mkSlice (base s + p) (len s - p) (cap s - p).
Proof.
  unfold slice_from. destruct (Z.leb_spec 0 p); [|discriminate].
  destruct (Z.leb_spec p (len s)); [|discriminate].
  intros E. injection E as <-. auto.
Qed.

Lemma slice_to_inv s q b :
  slice_to s q = Some b -> 0 <= q <= cap s /\ b = mkSlice (base s) q (cap s).
Proof.
  unfold slice_to, slice_range. cbn [Z.leb andb].
  destruct (Z.leb_spec 0 q); [|discriminate].
  destruct (Z.leb_spec q (cap s)); [|discriminate].
  intros E. injection E as <-. rewrite Z.add_0_r, !Z.sub_0_r. auto.
Qed.

Lemma Uint16_inv b m v : Uint16 b m = Some v -> 2 <= len b /\ v = load_le 2 m (base b).
Proof.
  unfold Uint16. destruct (Z.leb_spec 2 (len b)); [|discriminate].
  intros E. injection E as <-. auto.
Qed.

Lemma GetKey_inv n i m ks :
  GetKey n i m = Some ks ->
  exists pos, KVPos n i m = Some pos /\
    pos + 2 <= len (Data n) /\ add16 pos 4 <= len (Data n) /\
    ks = mkSlice (lo n + add16 pos 4) (load_le 2 m (lo n + pos))
                 (cap (Data n) - add16 pos 4) /\
    load_le 2 m (lo n + pos) <= cap (Data n) - add16 pos 4.
Proof.
  unfold GetKey. destruct (NKeys n m) as [nk|]; [|discriminate].
  destruct (Assert (i <=? nk)); [|discriminate].
  destruct (KVPos n i m) as [pos|]; [|discriminate].
  destruct (slice_from (Data n) pos) as [b|] eqn:Hb; [|discriminate].
  destruct (Uint16 b m) as [klen|] eqn:Hk; [|discriminate].
  destruct (slice_from (Data n) (add16 pos 4)) as [r|] eqn:Hr; [|discriminate].
  intros Hs. apply slice_from_inv in Hb, Hr. destruct Hb as [Hb ->], Hr as [Hr ->].
  apply Uint16_inv in Hk. cbn [base len] in Hk. destruct Hk as [Hk ->].
  apply slice_to_inv in Hs. cbn [base cap] in Hs. destruct Hs as [Hs ->].
  exists pos. unfold lo. repeat split; auto; lia.
Qed.

Lemma GetVal_inv n i m vs :
  GetVal n i m = Some vs ->
  exists pos, KVPos n i m = Some pos /\
    let klen := load_le 2 m (lo n + pos) in
    let p := add16 (add16 pos 4) klen in
    p <= len (Data n) /\
    vs = mkSlice (lo n + p) (load_le 2 m (lo n + add16 pos 2)) (cap (Data n) - p) /\
    load_le 2 m (lo n + add16 pos 2) <= cap (Data n) - p.
Proof.
  unfold GetVal. destruct (NKeys n m) as [nk|]; [|discriminate].
  destruct (Assert (i <=? nk)); [|discriminate].
  destruct (KVPos n i m) as [pos|] eqn:Hp; [|discriminate].
  assert (Hp0 : add16 pos 0 = pos).
  { unfold KVPos in Hp. destruct (NKeys n m); [|discriminate].
    destruct (Assert (i <=? z)); [|discriminate].
    destruct (GetOffset n i m); [|discriminate]. injection Hp as <-. u16. }
  rewrite Hp0.
  destruct (slice_from (Data n) pos) as [b|] eqn:Hb; [|discriminate].
  destruct (Uint16 b m) as [klen|] eqn:Hk; [|discriminate].
  destruct (slice_from (Data n) (add16 pos 2)) as [b2|] eqn:Hb2; [|discriminate].
  destruct (Uint16 b2 m) as [vlen|] eqn:Hv; [|discriminate].
  destruct (slice_from (Data n) (add16 (add16 pos 4) klen)) as [r|] eqn:Hr; [|discriminate].
  intros Hs. apply slice_from_inv in Hb, Hb2, Hr.
  destruct Hb as [Hb ->], Hb2 as [Hb2 ->], Hr as [Hr ->].
  apply Uint16_inv in Hk, Hv. cbn [base len] in Hk, Hv.
  destruct Hk as [Hk ->], Hv as [Hv ->].
  apply slice_to_inv in Hs. cbn [base cap] in Hs. destruct Hs as [Hs ->].
  exists pos. unfold lo. cbv zeta. repeat split; auto; lia.
Qed.

Lemma GetKey_window n i m ks :
  GetKey n i m = Some ks ->
  lo n <= base ks /\ 0 <= len ks < 65536 /\ base ks + len ks <= hi n.
Proof.
  intros H. destruct (GetKey_inv _ _ _ _ H) as (pos & _ & _ & Hp & -> & Hk).
  pose proof (load_le_2_range m (lo n + pos)). pose proof (uint16_range (pos + 4)).
  unfold add16 in *. cbn [base len]. unfold hi, lo in *. lia.
Qed.

Lemma GetVal_window n i m vs :
  GetVal n i m = Some vs ->
  lo n <= base vs /\ 0 <= len vs < 65536 /\ base vs + len vs <= hi n.
Proof.
  intros H. destruct (GetVal_inv _ _ _ _ H) as (pos & _ & Hp & -> & Hv).
  cbv zeta in *.
  pose proof (load_le_2_range m (lo n + add16 pos 2)).
  pose proof (uint16_range (add16 pos 4 + load_le 2 m (lo n + pos))).
  unfold add16 in *. cbn [base len]. unfold hi, lo in *. lia.
Qed.

(** X4: a window returned by [GetKey] or [GetVal] lies inside the node's
    buffer and is shorter than 2^16; and when both return for an entry at
    position [pos] (with [pos + 4 + len(key) < 2^16]) the key starts at
    [pos + 4], the value starts where the key ends, and their lengths are
    the two 16-bit fields stored at [pos] and [pos + 2]. *)
Theorem GetKey_GetVal_windows n i m :
  (forall ks, GetKey n i m = Some ks ->
     lo n <= base ks /\ 0 <= len ks < 65536 /\ base ks + len ks <= hi n) /\
  (forall vs, GetVal n i m = Some vs ->
     lo n <= base vs /\ 0 <= len vs < 65536 /\ base vs + len vs <= hi n) /\
  (forall ks vs pos,
     GetKey n i m = Some ks -> GetVal n i m = Some vs ->
     KVPos n i m = Some pos -> pos + 4 + len ks < 65536 ->
     base ks = lo n + pos + 4 /\
     base vs = base ks + len ks /\
     len ks = load_le 2 m (lo n + pos) /\
     len vs = load_le 2 m (lo n + pos + 2)).
Proof.
  split; [intros ks; apply GetKey_window|].
  split; [intros vs; apply GetVal_window|].
  intros ks vs pos Hk Hv Hp Hfit.
  destruct (GetKey_inv _ _ _ _ Hk) as (pos1 & Hp1 & _ & _ & -> & _).
  destruct (GetVal_inv _ _ _ _ Hv) as (pos2 & Hp2 & _ & -> & _).
  rewrite Hp in Hp1, Hp2. injection Hp1 as <-. injection Hp2 as <-.
  cbn [base len] in *.
  pose proof (load_le_2_range m (lo n + pos)).
  assert (0 <= pos).
  { unfold KVPos in Hp. destruct (NKeys n m); [|discriminate].
    destruct (Assert (i <=? z)); [|discriminate].
    destruct (GetOffset n i m); [|discriminate]. injection Hp as <-. u16. }
  replace (add16 pos 4) with (pos + 4) by u16.
  replace (add16 pos 2) with (pos + 2) by u16.
  replace (add16 (pos + 4) (load_le 2 m (lo n + pos)))
    with (pos + 4 + load_le 2 m (lo n + pos)) by u16.
  replace (lo n + (pos + 2)) with (lo n + pos + 2) by lia.
  repeat split; try reflexivity; lia.
Qed.

(** Entry 1 of the three-entry leaf: key at 44, value at 45. *)
Lemma GetKey_GetVal_windows_witness :
  exists ks vs, GetKey (page 0) 1 m_ex = Some ks /\ GetVal (page 0) 1 m_ex = Some vs /\
                base ks = 44 /\ base vs = 45 /\ base vs + len vs <= 4096.
Proof.
  destruct (GetKey_GetVal_windows (page 0) 1 m_ex) as (_ & Hv & Hkv).
  exists (mkSlice 44 1 4052), (mkSlice 45 1 4051).
  split; [reflexivity|]. split; [reflexivity|].
  destruct (Hkv (mkSlice 44 1 4052) (mkSlice 45 1 4051) 40) as (H1 & H2 & _);
    [reflexivity | reflexivity | reflexivity | vm_compute; reflexivity |].
  split; [exact H1|]. split; [exact H2|].
  apply (Hv (mkSlice 45 1 4051)). reflexivity.
Defined.

(* ================================================================== *)
(** * Decoding is a function of the node's own bytes *)

Section SameBuffer.
Variables (n : BNode) (m m' : mem).
Hypothesis Hsame : forall x, lo n <= x < hi n -> m' x = m x.

Lemma same_Uint16 b :
  lo n <= base b -> base b + len b <= hi n -> Uint16 b m' = Uint16 b m.
Proof.
  intros H1 H2. unfold Uint16. destruct (Z.leb_spec 2 (len b)); [|reflexivity].
  f_equal. apply load_le_ext. intros t Ht. apply Hsame.
  change (Z.of_nat 2) with 2 in Ht. lia.
Qed.

Lemma same_Uint64 b :
  lo n <= base b -> base b + len b <= hi n -> Uint64 b m' = Uint64 b m.
Proof.
  intros H1 H2. unfold Uint64. destruct (Z.leb_spec 8 (len b)); [|reflexivity].
  f_equal. apply load_le_ext. intros t Ht. apply Hsame.
  change (Z.of_nat 8) with 8 in Ht. lia.
Qed.

Lemma same_from_Uint16 p :
  (let? b := slice_from (Data n) p in Uint16 b m') =
  (let? b := slice_from (Data n) p in Uint16 b m).
Proof.
  destruct (slice_from (Data n) p) as [b|] eqn:Hb; [|reflexivity].
  apply slice_from_within in Hb. apply same_Uint16; apply Hb.
Qed.

Lemma same_BType : BType n m' = BType n m.
Proof. unfold BType. apply same_Uint16; unfold lo, hi; lia. Qed.

Lemma same_NKeys : NKeys n m' = NKeys n m.
Proof.
  rewrite !NKeys_eq. destruct (Z.leb_spec 4 (cap (Data n))); [|reflexivity].
  f_equal. apply load_le_ext. intros t Ht. apply Hsame.
  change (Z.of_nat 2) with 2 in Ht. unfold hi, lo. lia.
Qed.

Lemma same_GetPtr i : GetPtr n i m' = GetPtr n i m.
Proof.
  unfold GetPtr. rewrite same_NKeys. destruct (NKeys n m); [|reflexivity].
  destruct (Assert (i <? z)); [|reflexivity].
  destruct (slice_from (Data n) (add16 HEADER (mul16 8 i))) as [b|] eqn:Hb; [|reflexivity].
  apply slice_from_within in Hb. apply same_Uint64; apply Hb.
Qed.

Lemma same_OffsetPos i : OffsetPos n i m' = OffsetPos n i m.
Proof. unfold OffsetPos. rewrite same_NKeys. reflexivity. Qed.

Lemma same_GetOffset i : GetOffset n i m' = GetOffset n i m.
Proof.
  unfold GetOffset. destruct (i =? 0); [reflexivity|].
  rewrite same_OffsetPos. destruct (OffsetPos n i m); [|reflexivity].
  apply same_from_Uint16.
Qed.

Lemma same_KVPos i : KVPos n i m' = KVPos n i m.
Proof. unfold KVPos. rewrite same_NKeys, same_GetOffset. reflexivity. Qed.

Lemma same_GetKey i : GetKey n i m' = GetKey n i m.
Proof.
  unfold GetKey. rewrite same_NKeys, same_KVPos.
  destruct (NKeys n m); [|reflexivity]. destruct (Assert (i <=? z)); [|reflexivity].
  destruct (KVPos n i m) as [pos|]; [|reflexivity].
  destruct (slice_from (Data n) pos) as [b|] eqn:Hb; [|reflexivity].
  apply slice_from_within in Hb. rewrite (same_Uint16 b) by apply Hb. reflexivity.
Qed.

Lemma same_GetVal i : GetVal n i m' = GetVal n i m.
Proof.
  unfold GetVal. rewrite same_NKeys, same_KVPos.
  destruct (NKeys n m); [|reflexivity]. destruct (Assert (i <=? z)); [|reflexivity].
  destruct (KVPos n i m) as [pos|]; [|reflexivity].
  destruct (slice_from (Data n) (add16 pos 0)) as [b|] eqn:Hb; [|reflexivity].
  apply slice_from_within in Hb. rewrite (same_Uint16 b) by apply Hb.
  destruct (Uint16 b m) as [klen|]; [|reflexivity].
  destruct (slice_from (Data n) (add16 pos 2)) as [b2|] eqn:Hb2; [|reflexivity].
  apply slice_from_within in Hb2. rewrite (same_Uint16 b2) by apply Hb2. reflexivity.
Qed.

Lemma same_window s :
  lo n <= base s -> base s + len s <= hi n -> bytes_at m' s = bytes_at m s.
Proof. intros H1 H2. apply bytes_at_ext. intros x Hx. apply Hsame. lia. Qed.

Lemma same_key_bytes i :
  option_map (bytes_at m') (GetKey n i m') = option_map (bytes_at m) (GetKey n i m).
Proof.
  rewrite same_GetKey. destruct (GetKey n i m) as [ks|] eqn:E; [|reflexivity].
  cbn [option_map]. f_equal. apply GetKey_window in E. apply same_window; lia.
Qed.

Lemma same_entry i : entry n m' i = entry n m i.
Proof.
  unfold entry. rewrite same_GetKey, same_GetVal.
  destruct (GetKey n i m) as [ks|] eqn:Ek; [|reflexivity].
  destruct (GetVal n i m) as [vs|] eqn:Ev; [|reflexivity].
  apply GetKey_window in Ek. apply GetVal_window in Ev.
  rewrite (same_window ks), (same_window vs) by lia. reflexivity.
Qed.

End SameBuffer.

(** X5: two stores that agree on the bytes of a node's buffer decode it
    alike: the same type, key count, size, pointers, offsets, record
    positions, key and value windows and entries; and, for a search key
    with the same bytes in both, the same [NodeLookUpLE] result. *)
Theorem readers_depend_on_buffer n m m' :
  (forall x, lo n <= x < hi n -> m' x = m x) ->
  BType n m' = BType n m /\ NKeys n m' = NKeys n m /\ Nbyte n m' = Nbyte n m /\
  (forall i,
     GetPtr n i m' = GetPtr n i m /\ GetOffset n i m' = GetOffset n i m /\
     KVPos n i m' = KVPos n i m /\
     GetKey n i m' = GetKey n i m /\ GetVal n i m' = GetVal n i m /\
     entry n m' i = entry n m i) /\
  (forall key, bytes_at m' key = bytes_at m key ->
     NodeLookUpLE n key m' = NodeLookUpLE n key m).
Proof.
  intros H. split; [apply same_BType; exact H|].
  split; [apply same_NKeys; exact H|]. split.
  { unfold Nbyte. rewrite (same_NKeys n m m' H).
    destruct (NKeys n m); [|reflexivity]. apply same_KVPos. exact H. }
  split.
  { intros i. split; [apply same_GetPtr; exact H|].
    split; [apply same_GetOffset; exact H|]. split; [apply same_KVPos; exact H|].
    split; [apply same_GetKey; exact H|]. split; [apply same_GetVal; exact H|].
    apply same_entry. exact H. }
  intros key Hkey. unfold NodeLookUpLE. rewrite (same_NKeys n m m' H).
  destruct (NKeys n m) as [nk|] eqn:Hnk; [|reflexivity].
  pose proof (NKeys_inv _ _ _ Hnk) as (_ & _ & Hr).
  apply lookup_loop_ext; [exact Hr | lia | | exact Hkey].
  intros j _. apply same_key_bytes. exact H.
Qed.

(** A write at address 5000 does not touch the page at 0. *)
Lemma readers_depend_on_buffer_witness :
  Nbyte (page 0) (store m_ex 5000 1) = Some 52 /\
  entry (page 0) (store m_ex 5000 1) 2 = Some ([101], [51]).
Proof.
  destruct (readers_depend_on_buffer (page 0) m_ex (store m_ex 5000 1))
    as (_ & _ & HN & Hi & _).
  - intros x Hx. unfold store. destruct (Z.eqb_spec x 5000) as [->|]; [|reflexivity].
    exfalso. revert Hx. vm_compute. intros [_ Hx]. discriminate.
  - split; [rewrite HN; reflexivity|].
    destruct (Hi 2) as (_ & _ & _ & _ & _ & He). rewrite He. reflexivity.
Defined.

(* ================================================================== *)
(** * What [SetHeader] writes *)

(** X6: on a buffer of at least two bytes [SetHeader(btype, nkeys)]
    returns having changed bytes 0 and 1 only: [BType()] is then [nkeys],
    [NKeys()] and the pointers are what they were.  With capacity below 2
    it panics at once; with length below 2 but capacity for the first
    slice it panics after writing [btype]. *)
Theorem SetHeader_writes_first_two_bytes n btype nkeys m :
  (2 <= len (Data n) -> 2 <= cap (Data n) ->
     exists m', SetHeader n btype nkeys m = Ok tt m' /\
       BType n m' = Some (uint16 nkeys) /\
       NKeys n m' = NKeys n m /\
       (forall i, GetPtr n i m' = GetPtr n i m) /\
       (forall x, ~ (lo n <= x < lo n + 2) -> m' x = m x)) /\
  (cap (Data n) < 2 -> SetHeader n btype nkeys m = Panic m) /\
  (len (Data n) < 2 <= cap (Data n) ->
     SetHeader n btype nkeys m = Panic (store_le 2 m (lo n) btype)).
Proof.
  split; [|split].
  - intros Hl Hc. rewrite SetHeader_spec by assumption.
    set (m' := store_le 2 (store_le 2 m (lo n) btype) (lo n) nkeys).
    assert (Fr : forall x, ~ (lo n <= x < lo n + 2) -> m' x = m x).
    { intros x Hx. unfold m'. rewrite !store_le_outside by lia. reflexivity. }
    exists m'. split; [reflexivity|]. split.
    { unfold BType. rewrite Uint16_some by lia. f_equal. fold (lo n).
      unfold m'. rewrite load_le_store_le_same. reflexivity. }
    assert (HN : NKeys n m' = NKeys n m).
    { apply NKeys_ext. intros x Hx. apply Fr. lia. }
    split; [exact HN|]. split; [|exact Fr].
    intros i. unfold GetPtr. rewrite HN. destruct (NKeys n m); [|reflexivity].
    destruct (Assert (i <? z)); [|reflexivity].
    destruct (slice_from (Data n) (add16 HEADER (mul16 8 i))) as [b|] eqn:Hb;
      [|reflexivity].
    apply slice_from_inv in Hb. destruct Hb as [_ ->].
    unfold Uint64. cbn [base len].
    destruct (8 <=? _); [|reflexivity]. f_equal.
    apply load_le_ext. intros t Ht. apply Fr.
    pose proof (ptr_pos_header i). unfold lo. lia.
  - intros Hc. unfold SetHeader, slice_range. cbn [Z.leb andb].
    destruct (Z.leb_spec 2 (cap (Data n))); [lia|]. reflexivity.
  - intros [Hl Hc]. unfold SetHeader.
    erewrite bind_liftO by (apply slice_range_some; lia).
    erewrite bind_ok by (apply PutUint16_ok; cbn [len]; lia).
    unfold PutUint16. destruct (Z.leb_spec 2 (len (Data n))); [lia|].
    cbn [base]. unfold lo. rewrite Z.add_0_r. reflexivity.
Qed.

(** On the three-entry leaf. *)
Lemma SetHeader_writes_first_two_bytes_witness :
  exists m', SetHeader (page 0) BNODE_BNODE 7 m_ex = Ok tt m' /\
             BType (page 0) m' = Some 7 /\ NKeys (page 0) m' = Some 3.
Proof.
  destruct (SetHeader_writes_first_two_bytes (page 0) BNODE_BNODE 7 m_ex) as (H & _ & _).
  destruct H as (m' & H1 & H2 & H3 & _);
    [vm_compute; discriminate | vm_compute; discriminate |].
  exists m'. split; [exact H1|]. split; [exact H2 | rewrite H3; reflexivity].
Defined.

(* ================================================================== *)
(** * More on [NodeAppendKV] *)

(** X7: under the conditions of a fitting append at slot [idx],
    [NodeAppendKV] leaves the offsets up to [idx] and the other pointers
    as they were, every earlier entry whose record ends at or before the
    offset of [idx] decodes as before, and when [idx] is the last slot
    [Nbyte()] becomes [HEADER + 10*nk + offset(idx) + 4 + len(key) +
    len(val)]. *)
Theorem NodeAppendKV_keeps_earlier new idx ptr key val m nk off :
  NKeys new m = Some nk ->
  0 <= idx < nk ->
  GetOffset new idx m = Some off ->
  0 <= len key -> 0 <= len val ->
  len (Data new) <= cap (Data new) ->
  HEADER + 10 * nk + off + 4 + len key + len val <= Z.min (len (Data new)) 65535 ->
  separate (Data new) key -> separate (Data new) val ->
  exists m',
    NodeAppendKV new idx ptr key val m = Ok tt m' /\
    (forall j, 0 <= j <= idx -> GetOffset new j m' = GetOffset new j m) /\
    (forall j, 0 <= j < nk -> j <> idx -> GetPtr new j m' = GetPtr new j m) /\
    (forall j oj, 0 <= j < idx -> GetOffset new j m = Some oj ->
       oj + rec_len new m (HEADER + 10 * nk + oj) <= off ->
       entry new m' j = entry new m j /\ entry new m j <> None) /\
    (idx + 1 = nk ->
       Nbyte new m' = Some (HEADER + 10 * nk + off + 4 + len key + len val)).
Proof.
  intros Hnk Hidx Hoff Hlk Hlv Hcap Hfit Hsk Hsv.
  destruct (NodeAppendKV_run new idx ptr key val m nk off
              Hnk Hidx Hoff Hlk Hlv Hfit Hsk Hsv)
    as (m' & Hrun & HN & _ & _ & _ & _ & _ & Ho & Hfr).
  pose proof (NKeys_inv _ _ _ Hnk) as (_ & _ & Hr).
  pose proof (GetOffset_range _ _ _ _ Hoff) as Hoffr.
  exists m'. split; [exact Hrun|].
  assert (HO : forall j, 0 <= j <= idx -> GetOffset new j m' = GetOffset new j m).
  { intros j Hj. apply (GetOffset_frame new m m' nk j); auto; [lia | hlia |].
    intros Hne. apply load_le_ext. intros t Ht. change (Z.of_nat 2) with 2 in Ht.
    apply Hfr; fr_lia. }
  split; [exact HO|]. split.
  { intros j Hj Hne.
    rewrite (GetPtr_spec new m' nk j), (GetPtr_spec new m nk j) by (auto; hlia).
    f_equal. apply load_le_ext. intros t Ht. change (Z.of_nat 8) with 8 in Ht.
    apply Hfr; fr_lia. }
  split.
  { intros j oj Hj Hoj Hrec.
    pose proof (GetOffset_range _ _ _ _ Hoj) as Hojr.
    pose proof (rec_len_min new m (HEADER + 10 * nk + oj)) as Hr4.
    assert (KP : forall mi, NKeys new mi = Some nk -> GetOffset new j mi = Some oj ->
                 KVPos new j mi = Some (HEADER + 10 * nk + oj)).
    { intros mi H1 H2. rewrite (KVPos_spec new mi nk j oj) by (auto; lia).
      f_equal. apply uint16_small. hlia. }
    destruct (record_copy new new m m' nk nk j j
                (HEADER + 10 * nk + oj) (HEADER + 10 * nk + oj))
      as (ks & vs & ks' & vs' & E1 & E2 & E3 & E4 & E5 & E6);
      auto; try hlia.
    - apply KP; auto. rewrite HO by lia. exact Hoj.
    - intros t Ht. unfold load. rewrite Hfr by fr_lia. reflexivity.
    - unfold entry. rewrite E1, E2, E3, E4, E5, E6. split; [reflexivity|discriminate]. }
  intros Hlast. unfold Nbyte. rewrite HN.
  rewrite (KVPos_spec new m' nk nk (off + 4 + len key + len val)); auto; [|lia|].
  - f_equal. rewrite uint16_small by hlia. lia.
  - rewrite <- Hlast. rewrite (GetOffset_spec new m' nk (idx + 1)) by (auto; hlia).
    f_equal. exact Ho.
Qed.

(** Rewriting entry 1 of the three-entry leaf keeps entry 0. *)
Lemma NodeAppendKV_keeps_earlier_witness :
  exists m', NodeAppendKV (page 0) 1 0 key_b val_9 m_ex = Ok tt m' /\
             entry (page 0) m' 0 = Some ([97], [49]).
Proof.
  destruct (NodeAppendKV_keeps_earlier (page 0) 1 0 key_b val_9 m_ex 3 6)
    as (m' & R & _ & _ & He & _);
    [ reflexivity | lia | reflexivity | vm_compute; discriminate
    | vm_compute; discriminate | vm_compute; discriminate | vm_compute; discriminate
    | left; vm_compute; discriminate | left; vm_compute; discriminate |].
  exists m'. split; [exact R|].
  destruct (He 0 0) as [E _];
    [lia | reflexivity | vm_compute; discriminate | rewrite E; reflexivity].
Defined.

(* ================================================================== *)
(** * [NodeAppendKV] does not check the room for the value *)

(** X8: [NodeAppendKV] never compares the record with the room left in
    the buffer.  When the record header and the key fit but the value
    does not, the call still returns normally: only the leading bytes of
    the value that reach the end of the buffer are stored, while the
    length field and the next offset record the full value length, so
    that for the last slot [Nbyte()] exceeds the buffer length. *)
Theorem NodeAppendKV_truncates_value new idx ptr key val m nk off :
  NKeys new m = Some nk ->
  0 <= idx < nk ->
  GetOffset new idx m = Some off ->
  0 <= len key -> 0 <= len val ->
  let pos := HEADER + 10 * nk + off in
  pos + 4 + len key <= len (Data new) ->
  len (Data new) < pos + 4 + len key + len val ->
  pos + 4 + len key + len val <= 65535 ->
  separate (Data new) key -> separate (Data new) val ->
  let room := len (Data new) - (pos + 4 + len key) in
  exists m',
    NodeAppendKV new idx ptr key val m = Ok tt m' /\
    NKeys new m' = Some nk /\
    load_le 2 m' (lo new + pos + 2) = len val /\
    bytes_at m' (mkSlice (lo new + pos + 4 + len key) room room) =
      firstn (Z.to_nat room) (bytes_at m val) /\
    GetOffset new (idx + 1) m' = Some (off + 4 + len key + len val) /\
    (idx + 1 = nk ->
       exists sz, Nbyte new m' = Some sz /\ len (Data new) < sz) /\
    (forall x, ~ (lo new <= x < lo new + len (Data new)) -> m' x = m x).
Proof.
  intros Hnk Hidx Hoff Hlk Hlv pos Hkfit Hover Hw Hsk Hsv room.
  pose proof (NKeys_inv _ _ _ Hnk) as (Hc4 & Hnkv & Hnkr).
  pose proof (GetOffset_range _ _ _ _ Hoff) as Hoffr.
  unfold separate, extent in Hsk, Hsv.
  assert (Hpos : forall m1, NKeys new m1 = Some nk -> GetOffset new idx m1 = Some off ->
                            KVPos new idx m1 = Some pos).
  { intros m1 H1 H2. rewrite (KVPos_spec new m1 nk idx off) by (auto; lia).
    f_equal. apply uint16_small. unfold pos, HEADER in *. lia. }
  set (B := base (Data new)) in *.
  unfold room, pos, lo, ptr_addr, off_addr, HEADER in *. clear room pos. fold B.
  set (m1 := store_le 8 m (B + 4 + 8 * idx) ptr).
  set (m2 := store_le 2 m1 (B + (4 + 10 * nk + off)) (uint16 (len key))).
  set (m3 := store_le 2 m2 (B + (4 + 10 * nk + off) + 2) (uint16 (len val))).
  set (m4 := store_list m3 (B + (4 + 10 * nk + off) + 4) (bytes_at m key)).
  set (tl := firstn (Z.to_nat (len (Data new) - (4 + 10 * nk + off + 4 + len key)))
                    (bytes_at m val)).
  assert (Htl : Z.of_nat (length tl) = len (Data new) - (4 + 10 * nk + off + 4 + len key)).
  { unfold tl. rewrite length_firstn, bytes_at_length. lia. }
  set (m5 := store_list m4 (B + (4 + 10 * nk + off) + 4 + len key) tl).
  set (m6 := store_le 2 m5 (B + 4 + 8 * nk + 2 * (idx + 1 - 1)) (off + 4 + len key + len val)).
  assert (N : forall mi, load_le 2 mi (B + 2) = load_le 2 m (B + 2) -> NKeys new mi = Some nk).
  { intros mi Hmi. rewrite NKeys_eq. unfold lo. fold B. rewrite Hmi.
    destruct (Z.leb_spec 4 (cap (Data new))); [|lia]. f_equal. symmetry. exact Hnkv. }
  assert (N1 : NKeys new m1 = Some nk) by (apply N; unfold m1; mem_out; reflexivity).
  assert (N5 : NKeys new m5 = Some nk)
    by (apply N; unfold m5, m4, m3, m2, m1; mem_out; reflexivity).
  assert (N6 : NKeys new m6 = Some nk)
    by (apply N; unfold m6, m5, m4, m3, m2, m1; mem_out; reflexivity).
  assert (O : forall mi, NKeys new mi = Some nk ->
            (idx <> 0 -> load_le 2 mi (B + 4 + 8 * nk + 2 * (idx - 1)) =
                         load_le 2 m (B + 4 + 8 * nk + 2 * (idx - 1))) ->
            GetOffset new idx mi = Some off).
  { intros mi Hmi Hs. rewrite <- Hoff.
    apply (GetOffset_frame new m mi nk idx); auto; unfold HEADER, off_addr; fold B; lia. }
  assert (O1 : GetOffset new idx m1 = Some off)
    by (apply O; [exact N1 | intros; unfold m1; mem_out; reflexivity]).
  assert (O5 : GetOffset new idx m5 = Some off)
    by (apply O; [exact N5 | intros; unfold m5, m4, m3, m2, m1; mem_out; reflexivity]).
  assert (Kk : bytes_at m3 key = bytes_at m key).
  { unfold m3, m2, m1. mem_out. reflexivity. }
  assert (Kv : bytes_at m4 val = bytes_at m val).
  { unfold m4, m3, m2, m1. mem_out. reflexivity. }
  assert (G6 : GetOffset new (idx + 1) m6 = Some (off + 4 + len key + len val)).
  { rewrite (GetOffset_spec new m6 nk (idx + 1)) by (auto; unfold HEADER; lia).
    unfold off_addr, HEADER. fold B. unfold m6. rewrite load_le_store_le_same.
    change (256 ^ Z.of_nat 2) with 65536. f_equal. u16. }
  exists m6. split.
  { unfold NodeAppendKV.
    erewrite bind_ok
      by (apply (SetPtr_ok new m nk idx ptr); auto; unfold HEADER; lia).
    unfold ptr_addr, HEADER. fold B. fold m1.
    erewrite bind_lift by (apply Hpos; assumption).
    replace (add16 (4 + 10 * nk + off) 0) with (4 + 10 * nk + off) by u16.
    erewrite bind_liftO by (apply slice_from_some; lia).
    erewrite bind_ok by (apply PutUint16_ok; cbn [len]; lia). cbn [base]. fold B. fold m2.
    replace (add16 (4 + 10 * nk + off) 2) with (4 + 10 * nk + off + 2) by u16.
    erewrite bind_liftO by (apply slice_from_some; lia).
    erewrite bind_ok by (apply PutUint16_ok; cbn [len]; lia). cbn [base]. fold B.
    rewrite (Z.add_assoc B (4 + 10 * nk + off) 2). fold m3.
    replace (add16 (4 + 10 * nk + off) 4) with (4 + 10 * nk + off + 4) by u16.
    erewrite bind_liftO by (apply slice_from_some; lia).
    erewrite bind_ok by (apply copy_ok; cbn [len]; lia). cbn [base]. fold B.
    rewrite Kk. rewrite (Z.add_assoc B (4 + 10 * nk + off) 4). fold m4.
    replace (add16 (4 + 10 * nk + off + 4) (uint16 (len key)))
      with (4 + 10 * nk + off + 4 + len key) by u16.
    erewrite bind_liftO by (apply slice_from_some; lia).
    erewrite bind_ok; cycle 1.
    { unfold copy. cbn [base len]. rewrite Z.min_l by lia. rewrite Kv. reflexivity. }
    fold B. fold tl.
    rewrite (Z.add_assoc B (4 + 10 * nk + off + 4) (len key)).
    rewrite (Z.add_assoc B (4 + 10 * nk + off) 4). fold m5.
    erewrite bind_lift by exact O5.
    replace (add16 idx 1) with (idx + 1) by u16.
    replace (add16 (add16 off 4) (uint16 (len key + len val)))
      with (off + 4 + len key + len val) by u16.
    rewrite (SetOffset_ok new m5 nk (idx + 1)) by (auto; unfold HEADER; lia).
    unfold off_addr, HEADER. fold B. reflexivity. }
  split; [exact N6|]. split.
  { rewrite <- Z.add_assoc.
    replace (B + (4 + 10 * nk + off + 2)) with (B + (4 + 10 * nk + off) + 2) by lia.
    unfold m6, m5, m4. mem_out. unfold m3. rewrite load_le_store_le_same.
    change (256 ^ Z.of_nat 2) with 65536. u16. }
  split.
  { replace (B + 4 + 10 * nk + off + 4 + len key)
      with (B + (4 + 10 * nk + off) + 4 + len key) by lia.
    unfold m6. rewrite bytes_at_store_le_out by (cbn [base len]; lia). unfold m5.
    rewrite bytes_at_store_list by (cbn [base len]; lia).
    unfold tl. rewrite <- firstn_map. rewrite map_mod_bytes_at. reflexivity. }
  split; [exact G6|]. split.
  { intros Hlast. eexists. split.
    - unfold Nbyte. rewrite N6.
      rewrite (KVPos_spec new m6 nk nk (off + 4 + len key + len val)); auto; [lia|].
      rewrite <- Hlast. exact G6.
    - rewrite uint16_small by (unfold HEADER; lia). unfold HEADER. lia. }
  intros x Hx. unfold m6, m5, m4, m3, m2, m1.
  rewrite !store_le_outside, !store_list_outside, !store_le_outside
    by (rewrite ?bytes_at_length; lia).
  reflexivity.
Qed.

(** A 52-byte node holding the three-entry leaf: rewriting entry 2 with a
    two-byte value stores one byte of it and records an end offset of 19. *)
Lemma NodeAppendKV_truncates_value_witness :
  exists m',
    NodeAppendKV (mkBNode (mkSlice 0 52 52)) 2 0 key_b (mkSlice 9000 2 2) m_ex = Ok tt m' /\
    bytes_at m' (mkSlice 51 1 1) = [98] /\
    GetOffset (mkBNode (mkSlice 0 52 52)) 3 m' = Some 19 /\
    exists sz, Nbyte (mkBNode (mkSlice 0 52 52)) m' = Some sz /\ 52 < sz.
Proof.
  destruct (NodeAppendKV_truncates_value (mkBNode (mkSlice 0 52 52)) 2 0 key_b
              (mkSlice 9000 2 2) m_ex 3 12)
    as (m' & R & _ & _ & Hb & Ho & Hn & _);
    [ reflexivity | lia | reflexivity | vm_compute; discriminate
    | vm_compute; discriminate | vm_compute; discriminate | reflexivity
    | vm_compute; discriminate
    | left; vm_compute; discriminate | left; vm_compute; discriminate |].
  exists m'. split; [exact R|]. split; [exact Hb|]. split; [exact Ho|].
  apply Hn. reflexivity.
Defined.

(* ================================================================== *)
(** * [LeafInsert] keeps the node layout, its size and its key order *)

Lemma ins_offs_le offs idx d j : j <= idx -> ins_offs offs idx d j = offs j.
Proof. intros H. unfold ins_offs. destruct (Z.leb_spec j idx); [reflexivity|lia]. Qed.

Lemma ins_offs_gt offs idx d j : idx < j -> ins_offs offs idx d j = offs (j - 1) + d.
Proof. intros H. unfold ins_offs. destruct (Z.leb_spec j idx); [lia|reflexivity]. Qed.

Lemma Nbyte_node_ok n m nk offs :
  node_ok n m nk offs -> Nbyte n m = Some (HEADER + 10 * nk + offs nk).
Proof.
  intros Hok. pose proof (node_ok_mono _ _ _ _ Hok) as Hmono.
  destruct Hok as (Hnk & Hc & Ho0 & Hoffs & Hrec & Hf).
  pose proof (NKeys_inv _ _ _ Hnk) as (_ & _ & Hr).
  pose proof (Hmono 0 nk ltac:(lia) ltac:(lia)).
  unfold Nbyte. rewrite Hnk.
  rewrite (KVPos_spec n m nk nk (offs nk)) by (first [assumption | lia | apply Hoffs; lia]).
  f_equal. apply uint16_small. hlia.
Qed.

(** X9: let the source be well laid out with [nkO] entries, the count
    bytes of the destination already hold [nkO + 1], [idx <= nkO], the
    destination buffer have room for the whole result
    ([HEADER + 10*(nkO+1) + offs(nkO) + 4 + len(key) + len(val)] at most
    its length and 65535) and not overlap the source, the key or the
    value.  Then [LeafInsert] returns and leaves a well-laid-out
    destination: offsets start at 0, each record ends where the next
    begins, the offsets after [idx] are those of the source plus the size
    of the new record, and [Nbyte()] of the result is [Nbyte()] of the
    source plus [10 + 4 + len(key) + len(val)].  Nothing outside the
    destination buffer changes. *)
Theorem LeafInsert_keeps_layout new old idx key val m nkO offs :
  node_ok old m nkO offs ->
  NKeys new m = Some (nkO + 1) ->
  0 <= idx <= nkO -> 0 <= len key -> 0 <= len val ->
  len (Data new) <= cap (Data new) ->
  HEADER + 10 * (nkO + 1) + offs nkO + 4 + len key + len val
    <= Z.min (len (Data new)) 65535 ->
  separate (Data new) (Data old) ->
  separate (Data new) key -> separate (Data new) val ->
  exists m' szO,
    LeafInsert new old idx key val m = Ok tt m' /\
    node_ok new m' (nkO + 1) (ins_offs offs idx (4 + len key + len val)) /\
    Nbyte old m = Some szO /\
    Nbyte new m' = Some (szO + 10 + 4 + len key + len val) /\
    (forall x, ~ (lo new <= x < lo new + len (Data new)) -> m' x = m x).
Proof.
  intros Hok HnkN Hidx Hlk Hlv HcN HfN Hsep Hsk Hsv.
  pose proof (node_ok_mono _ _ _ _ Hok) as Hmono.
  pose proof (Nbyte_node_ok _ _ _ _ Hok) as HszO.
  destruct (LeafInsert_layout new old idx key val m nkO offs)
    as (m' & Run & N & T & SN & Copied & Ins & RI & Fr); try assumption.
  destruct Hok as (HnkO & HcO & Ho0 & Hoffs & Hrec & HfO).
  assert (Hok' : node_ok new m' (nkO + 1) (ins_offs offs idx (4 + len key + len val))).
  { split; [exact N|]. split; [exact HcN|]. split.
    { rewrite ins_offs_le by lia. exact Ho0. }
    split; [exact SN|]. split.
    { intros j Hj. destruct (Z.lt_total j idx) as [Hlt|[->|Hgt]].
      - destruct (Copied j j ltac:(lia)) as (_ & _ & E).
        { destruct (Z.ltb_spec j idx); [reflexivity|lia]. }
        rewrite E. rewrite !ins_offs_le by lia. apply Hrec. lia.
      - rewrite ins_offs_le by lia. rewrite RI.
        rewrite ins_offs_gt by lia. replace (idx + 1 - 1) with idx by lia. reflexivity.
      - destruct (Copied (j - 1) j ltac:(lia)) as (_ & _ & E).
        { destruct (Z.ltb_spec (j - 1) idx); lia. }
        rewrite E. rewrite !ins_offs_gt by lia.
        replace (j + 1 - 1) with (j - 1 + 1) by lia.
        rewrite <- (Hrec (j - 1)) by lia. lia. }
    rewrite ins_offs_gt by lia. replace (nkO + 1 - 1) with nkO by lia. hlia. }
  exists m', (HEADER + 10 * nkO + offs nkO).
  split; [exact Run|]. split; [exact Hok'|]. split; [exact HszO|]. split; [|exact Fr].
  rewrite (Nbyte_node_ok _ _ _ _ Hok').
  rewrite ins_offs_gt by lia. replace (nkO + 1 - 1) with nkO by lia. f_equal. lia.
Qed.

(** Inserting "b" -> "9" at slot 1 of the three-entry leaf: 52 bytes
    become 68. *)
Lemma LeafInsert_keeps_layout_witness :
  exists m',
    LeafInsert (page 4096) (page 0) 1 key_b val_9 m_ex4 = Ok tt m' /\
    Nbyte (page 0) m_ex4 = Some 52 /\
    Nbyte (page 4096) m' = Some 68.
Proof.
  destruct (LeafInsert_keeps_layout (page 4096) (page 0) 1 key_b val_9 m_ex4 3
              (fun j => 6 * j) leaf3_ok)
    as (m' & szO & Hrun & _ & HO & HN & _);
    [ reflexivity | lia | vm_compute; discriminate | vm_compute; discriminate
    | vm_compute; discriminate | vm_compute; discriminate
    | right; vm_compute; discriminate | left; vm_compute; discriminate
    | left; vm_compute; discriminate | ].
  exists m'. split; [exact Hrun|].
  assert (E : szO = 52) by (vm_compute in HO; congruence).
  subst szO. split; [reflexivity | exact HN].
Defined.

Lemma bytes_Compare_refl a : bytes_Compare a a = 0.
Proof. pose proof (bytes_Compare_antisym a a). lia. Qed.

Lemma entry_key n m i k :
  option_map fst (entry n m i) = Some k ->
  exists s, GetKey n i m = Some s /\ bytes_at m s = k.
Proof.
  unfold entry. destruct (GetKey n i m) as [ks|]; [|discriminate].
  destruct (GetVal n i m) as [vs|]; [|discriminate].
  cbn [option_map fst]. intros H. injection H as <-. eauto.
Qed.

(** X10: let the source be well laid out with [nkO] entries, the count
    bytes of the destination already hold [nkO + 1], [idx <= nkO], the
    destination buffer have room for the whole result
    ([HEADER + 10*(nkO+1) + offs(nkO) + 4 + len(key) + len(val)] at most
    its length and 65535) and not overlap the source, the key or the
    value.  When moreover the keys of the source are strictly ascending
    and the new key lies strictly above the keys before [idx] and strictly
    below those from [idx] on, [LeafInsert] returns, the keys of the
    resulting leaf are strictly ascending and [NodeLookUpLE] finds the new
    key at [idx]. *)
Theorem LeafInsert_then_lookup new old idx key val m nkO offs K :
  node_ok old m nkO offs ->
  NKeys new m = Some (nkO + 1) ->
  0 <= idx <= nkO -> 0 <= len key -> 0 <= len val ->
  len (Data new) <= cap (Data new) ->
  HEADER + 10 * (nkO + 1) + offs nkO + 4 + len key + len val
    <= Z.min (len (Data new)) 65535 ->
  separate (Data new) (Data old) ->
  separate (Data new) key -> separate (Data new) val ->
  (forall j, 0 <= j < nkO -> option_map fst (entry old m j) = Some (K j)) ->
  (forall i j, 0 <= i < j -> j < nkO -> bytes_Compare (K i) (K j) < 0) ->
  (forall j, 0 <= j < idx -> bytes_Compare (K j) (bytes_at m key) < 0) ->
  (forall j, idx <= j < nkO -> bytes_Compare (bytes_at m key) (K j) < 0) ->
  exists m',
    LeafInsert new old idx key val m = Ok tt m' /\
    NodeLookUpLE new key m' = Some idx /\
    (forall i j, 0 <= i < j -> j <= nkO ->
       exists ki kj,
         option_map fst (entry new m' i) = Some ki /\
         option_map fst (entry new m' j) = Some kj /\
         bytes_Compare ki kj < 0).
Proof.
  intros Hok HnkN Hidx Hlk Hlv HcN HfN Hsep Hsk Hsv HK Hasc Hlow Hhigh.
  destruct (LeafInsert_layout new old idx key val m nkO offs)
    as (m' & Run & N & _ & _ & Copied & Ins & _ & Fr); try assumption.
  pose proof (NKeys_inv _ _ _ N) as (_ & _ & HrN).
  set (kb := bytes_at m key) in *.
  set (K' := fun j => if j <? idx then K j else if j =? idx then kb else K (j - 1)).
  assert (HK' : forall i, 0 <= i < nkO + 1 -> option_map fst (entry new m' i) = Some (K' i)).
  { intros i Hi. unfold K'. destruct (Z.ltb_spec i idx) as [Hlt|Hge].
    - destruct (Copied i i ltac:(lia)) as (E & _).
      { destruct (Z.ltb_spec i idx); [reflexivity|lia]. }
      rewrite E. apply HK. lia.
    - destruct (Z.eqb_spec i idx) as [->|Hne].
      + rewrite Ins. reflexivity.
      + destruct (Copied (i - 1) i ltac:(lia)) as (E & _).
        { destruct (Z.ltb_spec (i - 1) idx); lia. }
        rewrite E. apply HK. lia. }
  assert (Hasc' : forall i j, 0 <= i < j -> j < nkO + 1 ->
                              bytes_Compare (K' i) (K' j) < 0).
  { intros i j Hij Hj. unfold K'.
    destruct (Z.ltb_spec i idx), (Z.ltb_spec j idx); try lia.
    - apply Hasc; lia.
    - destruct (Z.eqb_spec j idx); [apply Hlow; lia | apply Hasc; lia].
    - destruct (Z.eqb_spec i idx), (Z.eqb_spec j idx); try lia.
      + apply Hhigh. lia.
      + apply Hasc; lia. }
  assert (Hkey : bytes_at m' key = kb).
  { apply bytes_at_ext. intros x Hx. apply Fr. fr_lia. }
  exists m'. split; [exact Run|]. split.
  - unfold NodeLookUpLE. rewrite N.
    destruct (lookup_loop_correct new key m' (nkO + 1) HrN K') with
      (fuel := Z.to_nat (nkO + 1)) (i := 1) as (r & Hr & Hr0 & Hle & Hgt).
    + intros i Hi. apply entry_key. apply HK'. lia.
    + intros i j Hij Hj. apply Hasc'; lia.
    + lia.
    + lia.
    + intros j Hj. lia.
    + change (1 - 1) with 0 in Hr. rewrite Hr. f_equal.
      rewrite Hkey in Hle, Hgt.
      destruct (Z.lt_total r idx) as [Hlt|[->|Hg]]; [exfalso | reflexivity | exfalso].
      * specialize (Hgt idx ltac:(lia)). unfold K' in Hgt.
        destruct (Z.ltb_spec idx idx); [lia|].
        destruct (Z.eqb_spec idx idx); [|lia].
        rewrite bytes_Compare_refl in Hgt. lia.
      * destruct Hle as [->|[Hrn Hc]]; [lia|]. unfold K' in Hc.
        destruct (Z.ltb_spec r idx); [lia|].
        destruct (Z.eqb_spec r idx); [lia|].
        specialize (Hhigh (r - 1) ltac:(lia)).
        rewrite bytes_Compare_antisym in Hhigh. lia.
  - intros i j Hij Hj. exists (K' i), (K' j).
    split; [apply HK'; lia|]. split; [apply HK'; lia|]. apply Hasc'; lia.
Qed.

(** "b" goes between "a" and "c": the lookup of "b" in the new leaf
    answers 1. *)
Lemma LeafInsert_then_lookup_witness :
  exists m',
    LeafInsert (page 4096) (page 0) 1 key_b val_9 m_ex4 = Ok tt m' /\
    NodeLookUpLE (page 4096) key_b m' = Some 1.
Proof.
  destruct (LeafInsert_then_lookup (page 4096) (page 0) 1 key_b val_9 m_ex4 3
              (fun j => 6 * j) leaf3_key leaf3_ok)
    as (m' & Hrun & Hlk & _);
    [ reflexivity | lia | vm_compute; discriminate | vm_compute; discriminate
    | vm_compute; discriminate | vm_compute; discriminate
    | right; vm_compute; discriminate | left; vm_compute; discriminate
    | left; vm_compute; discriminate | | | | | ].
  - intros j Hj. assert (Hc : j = 0 \/ j = 1 \/ j = 2) by lia.
    destruct Hc as [-> | [-> | ->]]; reflexivity.
  - intros i j Hij Hj.
    assert (Hc : (i = 0 /\ j = 1) \/ (i = 0 /\ j = 2) \/ (i = 1 /\ j = 2)) by lia.
    destruct Hc as [[-> ->] | [[-> ->] | [-> ->]]]; reflexivity.
  - intros j Hj. assert (j = 0) by lia. subst j. reflexivity.
  - intros j Hj. assert (Hc : j = 1 \/ j = 2) by lia.
    destruct Hc as [-> | ->]; reflexivity.
  - exists m'. split; [exact Hrun | exact Hlk].
Defined.

(* ================================================================== *)
(** * Rejected ranges *)

(** X11: [NodeAppendRange] compares both range ends (computed in 16
    bits) with the key counts before it writes anything, so a rejected
    range leaves the store as it was.  [LeafInsert] with [idx] above the
    key count of the source therefore panics in its first range copy,
    having written only the two header bytes of the destination. *)
Theorem range_checks_come_first new old m nkO :
  NKeys old m = Some nkO ->
  (forall dst src n, nkO < add16 src n ->
     NodeAppendRange new old dst src n m = Panic m) /\
  (forall dst src n nkN, NKeys new m = Some nkN -> nkN < add16 dst n ->
     NodeAppendRange new old dst src n m = Panic m) /\
  (forall idx key val,
     0 <= idx < 65536 -> nkO < idx ->
     2 <= len (Data new) -> 2 <= cap (Data new) ->
     separate (Data new) (Data old) ->
     LeafInsert new old idx key val m =
       Panic (store_le 2 (store_le 2 m (lo new) BNODE_BLEAF) (lo new) (add16 nkO 1))).
Proof.
  intros HnkO. split; [|split].
  - intros dst src n Hgt. unfold NodeAppendRange.
    erewrite bind_lift by exact HnkO.
    destruct (Z.leb_spec (add16 src n) nkO); [lia|]. reflexivity.
  - intros dst src n nkN HnkN Hgt. unfold NodeAppendRange.
    erewrite bind_lift by exact HnkO.
    destruct (Z.leb_spec (add16 src n) nkO); [|reflexivity].
    cbn [Assert AssertM liftO bind]. unfold bind at 1. cbn.
    unfold lift, liftO. rewrite HnkN.
    destruct (Z.leb_spec (add16 dst n) nkN); [lia|]. reflexivity.
  - intros idx key val Hidx Hgt Hl Hc Hsep. unfold LeafInsert.
    erewrite bind_lift by exact HnkO.
    erewrite bind_ok by (apply SetHeader_spec; lia).
    set (m1 := store_le 2 _ _ _).
    assert (N1 : NKeys old m1 = Some nkO).
    { rewrite <- HnkO. apply NKeys_ext. intros x Hx. unfold m1.
      pose proof (NKeys_inv _ _ _ HnkO) as (Hc4 & _ & _).
      rewrite !store_le_outside by (cbn; fr_lia). reflexivity. }
    unfold bind at 1. unfold NodeAppendRange.
    erewrite bind_lift by exact N1.
    replace (add16 0 idx) with idx by u16.
    destruct (Z.leb_spec idx nkO); [lia|]. reflexivity.
Qed.

(** The three-entry leaf has no entries 2 and 3 to copy from slot 2, and
    no slot 4 to insert at. *)
Lemma range_checks_come_first_witness :
  NodeAppendRange (page 4096) (page 0) 0 2 2 m_ex = Panic m_ex /\
  panicked (LeafInsert (page 4096) (page 0) 4 key_b val_9 m_ex) = true.
Proof.
  destruct (range_checks_come_first (page 4096) (page 0) m_ex 3 eq_refl)
    as (H1 & _ & H3).
  split; [apply H1; vm_compute; reflexivity|].
  rewrite H3;
    [ reflexivity | lia | vm_compute; reflexivity | vm_compute; discriminate
    | vm_compute; discriminate | right; vm_compute; discriminate ].
Defined.

(* ================================================================== *)
(** * A single entry fits a page *)

(** X12: the bound [init] asserts holds, and it is the size of a node
    with one entry of the largest key and value: on a buffer of at least
    a page whose key count is 1, [NodeAppendKV] at slot 0 with a key of at
    most [BTREE_MAX_KEY_SIZE] bytes and a value of at most
    [BTREE_MAX_VAL_SIZE] bytes returns, the entry reads back, and
    [Nbyte()] is [HEADER + 8 + 2 + 4 + len(key) + len(val)], at most
    [BTREE_PAGE_SIZE]. *)
Theorem single_entry_fits_page new ptr key val m :
  NKeys new m = Some 1 ->
  BTREE_PAGE_SIZE <= len (Data new) <= cap (Data new) ->
  0 <= len key <= BTREE_MAX_KEY_SIZE ->
  0 <= len val <= BTREE_MAX_VAL_SIZE ->
  separate (Data new) key -> separate (Data new) val ->
  init = Some tt /\
  exists m',
    NodeAppendKV new 0 ptr key val m = Ok tt m' /\
    GetPtr new 0 m' = Some (uint64 ptr) /\
    entry new m' 0 = Some (bytes_at m key, bytes_at m val) /\
    Nbyte new m' = Some (HEADER + 8 + 2 + 4 + len key + len val) /\
    HEADER + 8 + 2 + 4 + len key + len val <= nodelmax /\
    nodelmax <= BTREE_PAGE_SIZE.
Proof.
  intros Hnk Hlen Hk Hv Hsk Hsv. split; [reflexivity|].
  unfold nodelmax, BTREE_PAGE_SIZE, BTREE_MAX_KEY_SIZE, BTREE_MAX_VAL_SIZE in *.
  destruct (NodeAppendKV_run new 0 ptr key val m 1 0)
    as (m' & Run & N & P & L1 & L2 & Bk & Bv & BOff & _);
    [ first [ assumption | apply GetOffset_0 | hlia ] .. |].
  replace (HEADER + 10 * 1 + 0) with 14 in * by reflexivity.
  assert (KP : KVPos new 0 m' = Some 14).
  { rewrite (KVPos_spec new m' 1 0 0) by (first [assumption | lia | apply GetOffset_0]).
    reflexivity. }
  assert (G1 : GetOffset new 1 m' = Some (4 + len key + len val)).
  { rewrite (GetOffset_spec new m' 1 1) by (first [assumption | hlia]).
    f_equal. change (0 + 1) with 1 in BOff. rewrite BOff. lia. }
  exists m'. split; [exact Run|]. split.
  { rewrite (GetPtr_spec new m' 1 0) by (first [assumption | hlia]).
    f_equal. exact P. }
  split.
  { unfold entry.
    rewrite (GetKey_spec new m' 1 0 14) by (first [assumption | rewrite ?L1; hlia]).
    rewrite (GetVal_spec new m' 1 0 14) by (first [assumption | rewrite ?L1, ?L2; hlia]).
    rewrite L1, L2. f_equal. f_equal.
    - rewrite <- Bk. apply bytes_at_loads; [reflexivity|]. intros; reflexivity.
    - rewrite <- Bv. apply bytes_at_loads; [reflexivity|]. intros; reflexivity. }
  split.
  { unfold Nbyte. rewrite N.
    rewrite (KVPos_spec new m' 1 1 _ N ltac:(lia) G1).
    f_equal. rewrite uint16_small by hlia. hlia. }
  hlia.
Qed.

(** One-byte key and value on the one-entry leaf: 20 bytes. *)
Lemma single_entry_fits_page_witness :
  exists m',
    NodeAppendKV (page 0) 0 7 key_b val_9 (mem_of 0 leaf1) = Ok tt m' /\
    GetPtr (page 0) 0 m' = Some 7 /\
    Nbyte (page 0) m' = Some 20.
Proof.
  destruct (single_entry_fits_page (page 0) 7 key_b val_9 (mem_of 0 leaf1))
    as (_ & m' & Run & P & _ & Sz & _);
    [ reflexivity | split; vm_compute; discriminate
    | split; vm_compute; discriminate | split; vm_compute; discriminate
    | left; vm_compute; discriminate | left; vm_compute; discriminate |].
  exists m'. split; [exact Run|]. split; [exact P | exact Sz].
Defined.

(* ================================================================== *)
(** * The loops of the builders end *)

Lemma bind_never_ok_l {A B} (c : M A) (k : A -> M B) :
  (forall m v m', c m <> Ok v m') ->
  forall m v m', bind c k m <> Ok v m'.
Proof.
  intros Hc m v m'. unfold bind. specialize (Hc m).
  destruct (c m) as [a m1|m1|]; [exfalso; eapply Hc; reflexivity | discriminate | discriminate].
Qed.

Lemma bind_never_ok_r {A B} (c : M A) (k : A -> M B) :
  (forall a m v m', k a m <> Ok v m') ->
  forall m v m', bind c k m <> Ok v m'.
Proof.
  intros Hk m v m'. unfold bind.
  destruct (c m) as [a m1|m1|]; [apply Hk | discriminate | discriminate].
Qed.

(** A loop over a [uint16] counter whose condition is [i <= 65535] never
    leaves through its condition. *)
Lemma for_loop_le_max_never_ok body fuel : forall i,
  0 <= i < 65536 ->
  forall m v m', for_loop fuel (fun i => i <=? 65535) body i m <> Ok v m'.
Proof.
  induction fuel as [|fuel IH]; intros i Hi m v m'; cbn [for_loop]; [discriminate|].
  destruct (Z.leb_spec i 65535); [|lia].
  apply bind_never_ok_r. intros _. apply IH. u16.
Qed.

(** X13: for 16-bit arguments every call of [NodeAppendRange] and of
    [LeafInsert] returns or panics; no loop runs forever.  With
    [n = 65535] the condition [i <= n] of the offset loop is never false,
    and the call panics instead of returning. *)
Theorem NodeAppendRange_ends new old dst src n idx m :
  0 <= dst < 65536 -> 0 <= n < 65536 -> 0 <= idx < 65536 ->
  NodeAppendRange new old dst src n m <> OutOfFuel /\
  (n = 65535 -> panicked (NodeAppendRange new old dst src n m) = true) /\
  (forall key val, LeafInsert new old idx key val m <> OutOfFuel).
Proof.
  intros Hd Hn Hidx. split; [apply term_NodeAppendRange; assumption|]. split.
  - intros ->.
    pose proof (term_NodeAppendRange new old dst src 65535 Hd Hn m) as Ht.
    assert (Hok : forall v m', NodeAppendRange new old dst src 65535 m <> Ok v m').
    { revert m Ht. intros m _. revert m.
      unfold NodeAppendRange.
      apply bind_never_ok_r. intros nkO.
      apply bind_never_ok_r. intros _.
      apply bind_never_ok_r. intros nkN.
      apply bind_never_ok_r. intros _.
      change (65535 =? 0) with false. cbv iota.
      apply bind_never_ok_r. intros _.
      apply bind_never_ok_r. intros dstBegin.
      apply bind_never_ok_r. intros srcBegin.
      apply bind_never_ok_l.
      apply for_loop_le_max_never_ok. lia. }
    destruct (NodeAppendRange new old dst src 65535 m) as [[] m1|m1|];
      [exfalso; eapply Hok; reflexivity | reflexivity | congruence].
  - intros key val. apply term_LeafInsert. exact Hidx.
Qed.

(** A copy of 65535 entries from slot 1 passes both range checks, the
    sums wrapping to 0, and panics. *)
Lemma NodeAppendRange_ends_witness :
  panicked (NodeAppendRange (page 4096) (page 0) 1 1 65535 m_ex) = true.
Proof.
  destruct (NodeAppendRange_ends (page 4096) (page 0) 1 1 65535 1 m_ex)
    as (_ & H & _); [lia | lia | lia |].
  apply H. reflexivity.
Defined.

(* ================================================================== *)
(** * What the lookup guarantees on any node *)

Lemma lookup_loop_scan n key m nk (Hnk : 0 <= nk < 65536) fuel : forall i r,
  1 <= i <= Z.max 1 nk ->
  nk <= i \/ nk - i < Z.of_nat fuel ->
  (forall j, 1 <= j < i ->
     exists k, option_map (bytes_at m) (GetKey n j m) = Some k /\
               bytes_Compare k (bytes_at m key) < 0) ->
  lookup_loop n key nk fuel i (i - 1) m = Some r ->
  (r = 0 \/ 1 <= r < nk) /\
  (forall j, 1 <= j <= r ->
     exists k, option_map (bytes_at m) (GetKey n j m) = Some k /\
               bytes_Compare k (bytes_at m key) <= 0 /\
               (j < r -> bytes_Compare k (bytes_at m key) < 0)) /\
  (r + 1 < nk ->
     (1 <= r /\ exists k, option_map (bytes_at m) (GetKey n r m) = Some k /\
                          bytes_Compare k (bytes_at m key) = 0) \/
     (exists k, option_map (bytes_at m) (GetKey n (r + 1) m) = Some k /\
                bytes_Compare k (bytes_at m key) > 0)).
Proof.
  induction fuel as [|fuel IH]; intros i r Hi Hfuel Hinv H; cbn [lookup_loop] in H.
  - injection H as <-. split; [lia|]. split; [|lia].
    intros j Hj. destruct (Hinv j ltac:(lia)) as (k & E & C).
    exists k. split; [exact E|]. split; lia.
  - destruct (Z.ltb_spec i nk) as [Hlt|Hge].
    + destruct (GetKey n i m) as [s|] eqn:Hs; [|discriminate].
      set (c := bytes_Compare (bytes_at m s) (bytes_at m key)) in *.
      destruct (Z.geb_spec c 0) as [Hc|Hc].
      * destruct (Z.leb_spec c 0) as [Hc'|Hc']; injection H as <-.
        -- split; [lia|]. split.
           ++ intros j Hj. destruct (Z.eq_dec j i) as [->|Hne].
              ** exists (bytes_at m s). rewrite Hs. split; [reflexivity|]. fold c. lia.
              ** destruct (Hinv j ltac:(lia)) as (k & E & C).
                 exists k. split; [exact E|]. split; lia.
           ++ intros _. left. split; [lia|]. exists (bytes_at m s).
              rewrite Hs. split; [reflexivity|]. fold c. lia.
        -- split; [lia|]. split.
           ++ intros j Hj. destruct (Hinv j ltac:(lia)) as (k & E & C).
              exists k. split; [exact E|]. split; lia.
           ++ intros _. right. replace (i - 1 + 1) with i by lia.
              exists (bytes_at m s). rewrite Hs. split; [reflexivity|]. fold c. lia.
      * destruct (Z.leb_spec c 0) as [Hc'|Hc']; [|lia].
        replace (add16 i 1) with (i + 1) in H by u16.
        replace i with (i + 1 - 1) in H at 2 by lia.
        apply IH in H; [exact H | lia | lia |].
        intros j Hj. destruct (Z.eq_dec j i) as [->|Hne].
        -- exists (bytes_at m s). rewrite Hs. split; [reflexivity|]. fold c. lia.
        -- apply Hinv. lia.
    + injection H as <-. split; [lia|]. split; [|lia].
      intros j Hj. destruct (Hinv j ltac:(lia)) as (k & E & C).
      exists k. split; [exact E|]. split; lia.
Qed.

(** X14: whatever the order of the keys, an answer [r] of
    [NodeLookUpLE] is 0 or an index below the key count; every key at
    [1 .. r-1] is strictly below the search key and the key at [r] (when
    [r >= 1]) is at most the search key; and when [r + 1] is still an
    index, either the key at [r] equals the search key or the key at
    [r + 1] is above it. *)
Theorem NodeLookUpLE_scan n key m nk r :
  NKeys n m = Some nk ->
  NodeLookUpLE n key m = Some r ->
  (r = 0 \/ 1 <= r < nk) /\
  (forall j, 1 <= j <= r ->
     exists k, option_map (bytes_at m) (GetKey n j m) = Some k /\
               bytes_Compare k (bytes_at m key) <= 0 /\
               (j < r -> bytes_Compare k (bytes_at m key) < 0)) /\
  (r + 1 < nk ->
     (1 <= r /\ exists k, option_map (bytes_at m) (GetKey n r m) = Some k /\
                          bytes_Compare k (bytes_at m key) = 0) \/
     (exists k, option_map (bytes_at m) (GetKey n (r + 1) m) = Some k /\
                bytes_Compare k (bytes_at m key) > 0)).
Proof.
  intros Hnk H. pose proof (NKeys_inv _ _ _ Hnk) as (_ & _ & Hr).
  unfold NodeLookUpLE in H. rewrite Hnk in H.
  apply (lookup_loop_scan n key m nk Hr (Z.to_nat nk) 1 r); [lia | lia | intros; lia |].
  exact H.
Qed.

(** Looking up "c" in the three-entry leaf answers 1, the slot of "c". *)
Lemma NodeLookUpLE_scan_witness :
  exists k, option_map (bytes_at m_ex) (GetKey (page 0) 1 m_ex) = Some k /\
            bytes_Compare k (bytes_at m_ex (mkSlice 44 1 1)) <= 0.
Proof.
  destruct (NodeLookUpLE_scan (page 0) (mkSlice 44 1 1) m_ex 3 1 eq_refl eq_refl)
    as (_ & H & _).
  destruct (H 1 ltac:(lia)) as (k & E & C & _).
  exists k. split; [exact E | exact C].
Defined.

(* ================================================================== *)
(** * [NodeAppendKV] with a key that does not fit *)

(** X15: when the four length bytes of the record fit the buffer but the
    key does not, [NodeAppendKV] panics at the slice it takes for the
    value, after the pointer and both length fields were written; it
    changes nothing outside the pointer slot and the bytes from the record
    position to the end of the buffer, so the next offset is left as it
    was. *)
Theorem NodeAppendKV_key_overflow new idx ptr key val m nk off :
  NKeys new m = Some nk ->
  0 <= idx < nk ->
  GetOffset new idx m = Some off ->
  0 <= len key ->
  let pos := HEADER + 10 * nk + off in
  pos + 4 <= len (Data new) ->
  len (Data new) < pos + 4 + len key ->
  pos + 4 + len key <= 65535 ->
  separate (Data new) key ->
  exists m',
    NodeAppendKV new idx ptr key val m = Panic m' /\
    NKeys new m' = Some nk /\
    load_le 8 m' (ptr_addr new idx) = uint64 ptr /\
    load_le 2 m' (lo new + pos) = len key /\
    load_le 2 m' (lo new + pos + 2) = uint16 (len val) /\
    (forall x,
       ~ (ptr_addr new idx <= x < ptr_addr new idx + 8) ->
       ~ (lo new + pos <= x < lo new + len (Data new)) ->
       m' x = m x).
Proof.
  intros Hnk Hidx Hoff Hlk pos Hhdr Hover Hw Hsk.
  pose proof (NKeys_inv _ _ _ Hnk) as (Hc4 & Hnkv & Hnkr).
  pose proof (GetOffset_range _ _ _ _ Hoff) as Hoffr.
  unfold separate, extent in Hsk.
  assert (Hpos : forall m1, NKeys new m1 = Some nk -> GetOffset new idx m1 = Some off ->
                            KVPos new idx m1 = Some pos).
  { intros m1 H1 H2. rewrite (KVPos_spec new m1 nk idx off) by (auto; lia).
    f_equal. apply uint16_small. unfold pos, HEADER in *. lia. }
  set (B := base (Data new)) in *.
  unfold pos, lo, ptr_addr, off_addr, HEADER in *. clear pos. fold B.
  set (m1 := store_le 8 m (B + 4 + 8 * idx) ptr).
  set (m2 := store_le 2 m1 (B + (4 + 10 * nk + off)) (uint16 (len key))).
  set (m3 := store_le 2 m2 (B + (4 + 10 * nk + off) + 2) (uint16 (len val))).
  set (tl := firstn (Z.to_nat (len (Data new) - (4 + 10 * nk + off + 4)))
                    (bytes_at m key)).
  assert (Htl : Z.of_nat (length tl) = len (Data new) - (4 + 10 * nk + off + 4)).
  { unfold tl. rewrite length_firstn, bytes_at_length. lia. }
  set (m4 := store_list m3 (B + (4 + 10 * nk + off) + 4) tl).
  assert (N : forall mi, load_le 2 mi (B + 2) = load_le 2 m (B + 2) -> NKeys new mi = Some nk).
  { intros mi Hmi. rewrite NKeys_eq. unfold lo. fold B. rewrite Hmi.
    destruct (Z.leb_spec 4 (cap (Data new))); [|lia]. f_equal. symmetry. exact Hnkv. }
  assert (N1 : NKeys new m1 = Some nk) by (apply N; unfold m1; mem_out; reflexivity).
  assert (N4 : NKeys new m4 = Some nk)
    by (apply N; unfold m4, m3, m2, m1; mem_out; reflexivity).
  assert (O1 : GetOffset new idx m1 = Some off).
  { rewrite <- Hoff.
    apply (GetOffset_frame new m m1 nk idx); auto; unfold off_addr, HEADER; fold B;
      first [ lia | intros; unfold m1; mem_out; reflexivity ]. }
  assert (Kk : bytes_at m3 key = bytes_at m key).
  { unfold m3, m2, m1. mem_out. reflexivity. }
  exists m4. split.
  { unfold NodeAppendKV.
    erewrite bind_ok
      by (apply (SetPtr_ok new m nk idx ptr); auto; unfold HEADER; lia).
    unfold ptr_addr, HEADER. fold B. fold m1.
    erewrite bind_lift by (apply Hpos; assumption).
    replace (add16 (4 + 10 * nk + off) 0) with (4 + 10 * nk + off) by u16.
    erewrite bind_liftO by (apply slice_from_some; lia).
    erewrite bind_ok by (apply PutUint16_ok; cbn [len]; lia). cbn [base]. fold B. fold m2.
    replace (add16 (4 + 10 * nk + off) 2) with (4 + 10 * nk + off + 2) by u16.
    erewrite bind_liftO by (apply slice_from_some; lia).
    erewrite bind_ok by (apply PutUint16_ok; cbn [len]; lia). cbn [base]. fold B.
    rewrite (Z.add_assoc B (4 + 10 * nk + off) 2). fold m3.
    replace (add16 (4 + 10 * nk + off) 4) with (4 + 10 * nk + off + 4) by u16.
    erewrite bind_liftO by (apply slice_from_some; lia).
    erewrite bind_ok; cycle 1.
    { unfold copy. cbn [base len]. rewrite Z.min_l by lia. rewrite Kk. reflexivity. }
    fold B. fold tl. rewrite (Z.add_assoc B (4 + 10 * nk + off) 4). fold m4.
    replace (add16 (4 + 10 * nk + off + 4) (uint16 (len key)))
      with (4 + 10 * nk + off + 4 + len key) by u16.
    unfold bind at 1. unfold slice_from.
    destruct (Z.leb_spec 0 (4 + 10 * nk + off + 4 + len key)); [|lia].
    destruct (Z.leb_spec (4 + 10 * nk + off + 4 + len key) (len (Data new))); [lia|].
    reflexivity. }
  split; [exact N4|]. split.
  { unfold m4, m3, m2. mem_out. unfold m1. rewrite load_le_store_le_same. reflexivity. }
  split.
  { unfold m4, m3. mem_out. unfold m2. rewrite load_le_store_le_same.
    change (256 ^ Z.of_nat 2) with 65536. u16. }
  split.
  { rewrite <- Z.add_assoc.
    replace (B + (4 + 10 * nk + off + 2)) with (B + (4 + 10 * nk + off) + 2) by lia.
    unfold m4. mem_out. unfold m3. rewrite load_le_store_le_same.
    change (256 ^ Z.of_nat 2) with 65536. u16. }
  intros x Hx1 Hx2. unfold m4, m3, m2, m1.
  rewrite !store_list_outside, !store_le_outside by (rewrite ?bytes_at_length; lia).
  reflexivity.
Qed.

(** A 50-byte node holding the three-entry leaf has room for the length
    fields of entry 2 but not for its one-byte key. *)
Lemma NodeAppendKV_key_overflow_witness :
  exists m',
    NodeAppendKV (mkBNode (mkSlice 0 50 50)) 2 0 key_b val_9 m_ex = Panic m' /\
    NKeys (mkBNode (mkSlice 0 50 50)) m' = Some 3.
Proof.
  destruct (NodeAppendKV_key_overflow (mkBNode (mkSlice 0 50 50)) 2 0 key_b val_9 m_ex 3 12)
    as (m' & R & N & _);
    [ reflexivity | lia | reflexivity | vm_compute; discriminate
    | vm_compute; discriminate | reflexivity | vm_compute; discriminate
    | left; vm_compute; discriminate |].
  exists m'. split; [exact R | exact N].
Defined.
